(** * MCP client / manager: shallow embedding and verified properties

    The development follows [src/mcp-client.js] (class [MCPClient]) and
    [src/mcp-manager.js] (class [MCPManager]).

    - [JS]         : the fragment of the JavaScript runtime the two classes
                     rely on (JSON values, truthiness, property access,
                     [Buffer.toString], [String.split], [String.trim]).
    - [MCPClient]  : one child connection as an event-driven state machine.
                     Every callback the class registers (stdout data, write
                     completion, timers, process exit) is an [Event]; an
                     [await] is cut into the part before it and a
                     continuation that a [Resume] event runs once the awaited
                     promise is settled.
    - [MCPManager] : the registry of server configurations and live clients.

    Definitions come first, lemmas and theorems afterwards. *)

From Stdlib Require Import ZArith NArith List String Bool Lia.
From stdpp Require Import base option list strings gmap.
Import ListNotations.

Local Open Scope Z_scope.
Set Warnings "-register-all".

(* ===================================================================== *)
(** * JavaScript runtime fragment *)
(* ===================================================================== *)

Module JS.

(** JavaScript values as far as the two classes look at them.  Numbers are
    the integer-valued ones (request ids are produced by [requestId++]);
    [JUndefined] is what a missing property reads as. *)
Inductive JSValue : Type :=
| JUndefined
| JNull
| JBool (b : bool)
| JNum (n : Z)
| JStr (s : string)
| JArr (items : list JSValue)
| JObj (fields : list (string * JSValue)).

(** ToBoolean. *)
Definition truthy (v : JSValue) : bool :=
  match v with
  | JUndefined | JNull => false
  | JBool b => b
  | JNum n => negb (n =? 0)
  | JStr s => negb (String.eqb s "")
  | JArr _ | JObj _ => true
  end.

(** [a || b]. *)
Definition or_else (a b : JSValue) : JSValue := if truthy a then a else b.

Fixpoint lookup_field (k : string) (fields : list (string * JSValue)) : JSValue :=
  match fields with
  | [] => JUndefined
  | (k', v) :: rest => if String.eqb k k' then v else lookup_field k rest
  end.

(** [v.k]: [None] is the TypeError raised on [null] and [undefined].  The
    keys read by the classes ([id], [error], [method], [result], [tools],
    [resources]) are own properties of objects only. *)
Definition get_prop (v : JSValue) (k : string) : option JSValue :=
  match v with
  | JUndefined | JNull => None
  | JObj fields => Some (lookup_field k fields)
  | _ => Some JUndefined
  end.

(** [v?.k]. *)
Definition get_prop_opt (v : JSValue) (k : string) : JSValue :=
  match get_prop v k with
  | Some x => x
  | None => JUndefined
  end.

Definition is_array (v : JSValue) : bool :=
  match v with JArr _ => true | _ => false end.

Definition has_field (k : string) (fields : list (string * JSValue)) : bool :=
  existsb (fun field => String.eqb k (fst field)) fields.

(** Whether [ToString(v)] throws, for values as [JSON.parse] gives them,
    none of which is callable.  An object is converted by its [toString]
    and [valueOf]: with a [toString] of its own, which is not callable, what
    is left is [valueOf], its own (not callable) or the inherited one (which
    returns the object), and the conversion ends in a TypeError; without
    one the inherited [toString] gives a string.  An array is joined, its
    elements other than [null] and [undefined] being converted in turn. *)
Fixpoint to_string_throws (v : JSValue) : bool :=
  match v with
  | JArr items => existsb to_string_throws items
  | JObj fields => has_field "toString" fields
  | _ => false
  end.

(** Whether evaluating the template [`${v.length}`] throws: [length] cannot
    be read of [null] and [undefined]; an array and a string have a number
    there, the other primitives nothing, and an object the field of that
    name if it has one. *)
Definition length_text_throws (v : JSValue) : bool :=
  match v with
  | JUndefined | JNull => true
  | JObj fields => to_string_throws (lookup_field "length" fields)
  | _ => false
  end.

(** ** Plain objects used as maps

    An object made by [{}] and filled by [obj[key] = value]: its own
    properties and its prototype, [None] standing for [Object.prototype], the
    one it starts with.  A key other than [__proto__] becomes an own
    property.  An assignment to [__proto__] finds the accessor that
    [Object.prototype] provides and runs its setter, which makes the value
    the prototype when it is an object or [null] and does nothing otherwise;
    no property is made.  The accessor is not reached when the object has an
    own property of that name, or when the prototype chain ends before it or
    has a data property of that name first: then the assignment makes or
    updates the own property. *)
Record PlainObject (A : Type) := {
  own : gmap string A;
  proto : option A
}.
Arguments own {A} _.
Arguments proto {A} _.

(** How a value behaves as a prototype. *)
Class ProtoValue (A : Type) := {
  as_prototype : A -> bool;   (* an object or [null]: the setter takes it *)
  hides_setter : A -> bool    (* as the prototype, keeps [__proto__] from the accessor *)
}.

#[export] Instance JSValue_proto : ProtoValue JSValue := {
  as_prototype v := match v with JArr _ | JObj _ | JNull => true | _ => false end;
  hides_setter v := match v with
                    | JNull => true
                    | JObj fields => has_field "__proto__" fields
                    | _ => false
                    end
}.

Definition empty_object {A} : PlainObject A := {| own := ∅; proto := None |}.

(** [obj[key] = v]. *)
Definition set_property {A} `{ProtoValue A} (key : string) (v : A) (obj : PlainObject A)
  : PlainObject A :=
  if negb (String.eqb key "__proto__") then
    {| own := <[key := v]> (own obj); proto := proto obj |}
  else if match own obj !! "__proto__" with Some _ => true | None => false end
          || match proto obj with Some p => hides_setter p | None => false end
  then {| own := <["__proto__" := v]> (own obj); proto := proto obj |}
  else if as_prototype v then {| own := own obj; proto := Some v |}
  else obj.

(** [Object.values(obj)], in the order of [map_to_list]. *)
Definition values {A} (obj : PlainObject A) : list A := map snd (map_to_list (own obj)).

(** ** Text

    A decoded string is the list of its code points. *)
Definition text := list N.

Definition REPLACEMENT : N := 0xFFFD%N.

(** State of the UTF-8 decoder inside a multi-byte sequence: code point so
    far, continuation bytes still needed, accepted range of the next byte. *)
Record Utf8Partial := { u_cp : N; u_need : nat; u_lo : N; u_hi : N }.

Definition utf8_lead (b : N) : option Utf8Partial * text :=
  (if b <=? 0x7F then (None, [b])
   else if (0xC2 <=? b) && (b <=? 0xDF) then
     (Some {| u_cp := N.land b 0x1F; u_need := 1; u_lo := 0x80; u_hi := 0xBF |}, [])
   else if (0xE0 <=? b) && (b <=? 0xEF) then
     (Some {| u_cp := N.land b 0xF; u_need := 2;
              u_lo := if b =? 0xE0 then 0xA0 else 0x80;
              u_hi := if b =? 0xED then 0x9F else 0xBF |}, [])
   else if (0xF0 <=? b) && (b <=? 0xF4) then
     (Some {| u_cp := N.land b 0x7; u_need := 3;
              u_lo := if b =? 0xF0 then 0x90 else 0x80;
              u_hi := if b =? 0xF4 then 0x8F else 0xBF |}, [])
   else (None, [REPLACEMENT]))%N.

Definition utf8_step (s : option Utf8Partial) (b : N) : option Utf8Partial * text :=
  match s with
  | None => utf8_lead b
  | Some p =>
      if ((u_lo p <=? b) && (b <=? u_hi p))%N then
        let cp := N.lor (N.shiftl (u_cp p) 6) (N.land b 0x3F) in
        match u_need p with
        | S (S n) => (Some {| u_cp := cp; u_need := S n; u_lo := 0x80; u_hi := 0xBF |}, [])
        | _ => (None, [cp])
        end
      else
        let '(s', out) := utf8_lead b in (s', REPLACEMENT :: out)
  end.

Fixpoint utf8_decode (s : option Utf8Partial) (bytes : list N) : text :=
  match bytes with
  | [] => match s with None => [] | Some _ => [REPLACEMENT] end
  | b :: rest => let '(s', out) := utf8_step s b in out ++ utf8_decode s' rest
  end.

(** The state the decoder is in after these bytes. *)
Fixpoint utf8_state (s : option Utf8Partial) (bytes : list N) : option Utf8Partial :=
  match bytes with
  | [] => s
  | b :: rest => utf8_state (fst (utf8_step s b)) rest
  end.

(** [data.toString()] of a [Buffer]: UTF-8 decoding of these bytes alone,
    an ill-formed or truncated sequence giving U+FFFD. *)
Definition toString (data : list Byte.byte) : text :=
  utf8_decode None (map Byte.to_N data).

Definition LF : N := 10%N.

(** [s.split('\n')]: never empty; the last element is what follows the
    last newline. *)
Fixpoint split (s : text) : list text :=
  match s with
  | [] => [[]]
  | c :: rest =>
      if (c =? LF)%N then [] :: split rest
      else match split rest with
           | l :: ls => (c :: l) :: ls
           | [] => [[c]]
           end
  end.

(** WhiteSpace and LineTerminator code points, as [String.prototype.trim]
    removes them. *)
Definition is_space (c : N) : bool :=
  ((c =? 0x9) || (c =? 0xA) || (c =? 0xB) || (c =? 0xC) || (c =? 0xD)
   || (c =? 0x20) || (c =? 0xA0) || (c =? 0x1680)
   || ((0x2000 <=? c) && (c <=? 0x200A))
   || (c =? 0x2028) || (c =? 0x2029) || (c =? 0x202F) || (c =? 0x205F)
   || (c =? 0x3000) || (c =? 0xFEFF))%N.

Fixpoint trimStart (s : text) : text :=
  match s with
  | c :: rest => if is_space c then trimStart rest else s
  | [] => []
  end.

Definition trim (s : text) : text := rev (trimStart (rev (trimStart s))).

(** Truthiness of a string: non-empty. *)
Definition nonempty (s : text) : bool :=
  match s with [] => false | _ => true end.

(** Test data: the bytes of an ASCII literal in which an apostrophe stands
    for a double quote. *)
Definition quote_byte (b : Byte.byte) : Byte.byte :=
  match b with Byte.x27 => Byte.x22 | _ => b end.

Definition bytes (s : string) : list Byte.byte :=
  map quote_byte (list_byte_of_string s).

End JS.

(* ===================================================================== *)
(** * src/mcp-client.js : class MCPClient *)
(* ===================================================================== *)

Module MCPClient.
Import JS.

Inductive Signal := SIGTERM | SIGKILL.

(** The errors the class raises, one constructor per message template. *)
Inductive Error :=
| ErrSpawn                                   (* thrown by spawn() *)
| ErrStreams                                 (* Failed to setup process streams *)
| ErrProcess                                 (* the child's 'error' event *)
| ErrNotInitialized (server : string)        (* Client .. not initialized *)
| ErrNoStdin (server : string)               (* Process stdin not available for .. *)
| ErrWrite (server : string)                 (* Failed to write to .. *)
| ErrNotify (server : string)                (* Failed to send notification to .. *)
| ErrTimeout (id : Z) (server : string)      (* Request id to .. timed out *)
| ErrRemote (server : string) (error : JSValue)  (* MCP Error from ..: error *)
| ErrClosed (server : string)                (* Connection to .. closed *)
| ErrType.                                   (* TypeError on a property of null *)

(** How a promise is settled. *)
Inductive Outcome :=
| Resolved (v : JSValue)
| Rejected (e : Error).

(** A promise is named by the order of its creation; the waiter stored in
    [pendingRequests] is the [{resolve, reject}] pair of one promise. *)
Definition Promise := nat.
Bind Scope nat_scope with Promise.

Record Request := { req_id : Z; req_method : string; req_params : JSValue }.

(** The [config] argument of the constructor. *)
Record Config := {
  command : string;
  args : list string;
  env : gmap string string;
  cwd : option string
}.

(** The [ChildProcess] object returned by [spawn], with the operating
    system process behind it. *)
Record ChildProcess := {
  pid : Z;
  stdin : bool;               (* the stream objects exist *)
  stdout : bool;
  stderr : bool;
  killed : bool;              (* set by kill() once a signal was delivered *)
  exited : bool;              (* the process has exited *)
  signals : list Signal       (* signals delivered, oldest first *)
}.

(** A [stdin.write] whose completion callback has not run yet. *)
Inductive Write :=
| WRequest (id : Z) (p : Promise)
| WNotification (p : Promise).

(** A [setTimeout] callback that has not run yet. *)
Inductive Timer :=
| TRequest (id : Z) (p : Promise)
| TForceKill.

Definition delay (t : Timer) : Z :=
  match t with
  | TRequest _ _ => 30000
  | TForceKill => 5000
  end.

(** The code after an [await]. *)
Inductive Cont :=
| KInitialize (connecting : Promise)    (* initialize(), after the initialize request *)
| KInitialized (connecting : Promise)   (* initialize(), after the notification *)
| KListTools
| KCallTool
| KListResources
| KReadResource
| KDisconnect.

Inductive LogLevel := DEBUG | INFO | WARN | ERROR.

(** What the connection does to the outside, oldest first. *)
Inductive Effect :=
| ELog (lvl : LogLevel) (msg : string)
| EWriteRequest (p : Promise) (r : Request) (* stdin.write(JSON.stringify(r) + LF), for waiter p *)
| EWriteNotification (method : string)
| EKill (sig : Signal) (delivered : bool)  (* process.kill(sig) and its result *)
| ESettle (p : Promise) (o : Outcome)      (* a call of p's resolve or reject *)
| EEmitNotification (msg : JSValue)        (* this.emit('notification', msg) *)
| EEmitDisconnected                        (* this.emit('disconnected') *)
| EReturn (p : Promise) (o : Outcome)      (* the verb that awaited p completes *)
| EThrow (e : Error).                      (* a verb fails before sending anything *)

(** The object fields of [MCPClient] ([serverName] .. [buffer]) and the
    runtime state its callbacks depend on.  [process] tells whether
    [this.process] is non-null; the object it refers to is [child], which
    outlives [this.process = null].  [handlers] is set once [connect] has
    installed the stdout, exit and error handlers and holds the promise
    that the error handler rejects. *)
Record Client := {
  serverName : string;
  config : Config;
  process : bool;
  requestId : Z;
  pendingRequests : gmap Z Promise;
  initialized : bool;
  buffer : text;
  child : option ChildProcess;
  handlers : option Promise;
  nextPromise : Promise;
  awaiting : gmap nat Cont;
  writes : list Write;
  timers : list Timer;
  effects : list Effect
}.

Definition set_process (v : bool) (st : Client) : Client :=
  {| serverName := serverName st; config := config st; process := v;
     requestId := requestId st; pendingRequests := pendingRequests st;
     initialized := initialized st; buffer := buffer st; child := child st;
     handlers := handlers st; nextPromise := nextPromise st; awaiting := awaiting st;
     writes := writes st; timers := timers st; effects := effects st |}.

Definition set_requestId (v : Z) (st : Client) : Client :=
  {| serverName := serverName st; config := config st; process := process st;
     requestId := v; pendingRequests := pendingRequests st;
     initialized := initialized st; buffer := buffer st; child := child st;
     handlers := handlers st; nextPromise := nextPromise st; awaiting := awaiting st;
     writes := writes st; timers := timers st; effects := effects st |}.

Definition set_pendingRequests (v : gmap Z Promise) (st : Client) : Client :=
  {| serverName := serverName st; config := config st; process := process st;
     requestId := requestId st; pendingRequests := v; initialized := initialized st;
     buffer := buffer st; child := child st; handlers := handlers st;
     nextPromise := nextPromise st; awaiting := awaiting st; writes := writes st;
     timers := timers st; effects := effects st |}.

Definition set_initialized (v : bool) (st : Client) : Client :=
  {| serverName := serverName st; config := config st; process := process st;
     requestId := requestId st; pendingRequests := pendingRequests st;
     initialized := v; buffer := buffer st; child := child st;
     handlers := handlers st; nextPromise := nextPromise st; awaiting := awaiting st;
     writes := writes st; timers := timers st; effects := effects st |}.

Definition set_buffer (v : text) (st : Client) : Client :=
  {| serverName := serverName st; config := config st; process := process st;
     requestId := requestId st; pendingRequests := pendingRequests st;
     initialized := initialized st; buffer := v; child := child st;
     handlers := handlers st; nextPromise := nextPromise st; awaiting := awaiting st;
     writes := writes st; timers := timers st; effects := effects st |}.

Definition set_child (v : option ChildProcess) (st : Client) : Client :=
  {| serverName := serverName st; config := config st; process := process st;
     requestId := requestId st; pendingRequests := pendingRequests st;
     initialized := initialized st; buffer := buffer st; child := v;
     handlers := handlers st; nextPromise := nextPromise st; awaiting := awaiting st;
     writes := writes st; timers := timers st; effects := effects st |}.

Definition set_handlers (v : option Promise) (st : Client) : Client :=
  {| serverName := serverName st; config := config st; process := process st;
     requestId := requestId st; pendingRequests := pendingRequests st;
     initialized := initialized st; buffer := buffer st; child := child st;
     handlers := v; nextPromise := nextPromise st; awaiting := awaiting st;
     writes := writes st; timers := timers st; effects := effects st |}.

Definition set_nextPromise (v : Promise) (st : Client) : Client :=
  {| serverName := serverName st; config := config st; process := process st;
     requestId := requestId st; pendingRequests := pendingRequests st;
     initialized := initialized st; buffer := buffer st; child := child st;
     handlers := handlers st; nextPromise := v; awaiting := awaiting st;
     writes := writes st; timers := timers st; effects := effects st |}.

Definition set_awaiting (v : gmap nat Cont) (st : Client) : Client :=
  {| serverName := serverName st; config := config st; process := process st;
     requestId := requestId st; pendingRequests := pendingRequests st;
     initialized := initialized st; buffer := buffer st; child := child st;
     handlers := handlers st; nextPromise := nextPromise st; awaiting := v;
     writes := writes st; timers := timers st; effects := effects st |}.

Definition set_writes (v : list Write) (st : Client) : Client :=
  {| serverName := serverName st; config := config st; process := process st;
     requestId := requestId st; pendingRequests := pendingRequests st;
     initialized := initialized st; buffer := buffer st; child := child st;
     handlers := handlers st; nextPromise := nextPromise st; awaiting := awaiting st;
     writes := v; timers := timers st; effects := effects st |}.

Definition set_timers (v : list Timer) (st : Client) : Client :=
  {| serverName := serverName st; config := config st; process := process st;
     requestId := requestId st; pendingRequests := pendingRequests st;
     initialized := initialized st; buffer := buffer st; child := child st;
     handlers := handlers st; nextPromise := nextPromise st; awaiting := awaiting st;
     writes := writes st; timers := v; effects := effects st |}.

Definition set_effects (v : list Effect) (st : Client) : Client :=
  {| serverName := serverName st; config := config st; process := process st;
     requestId := requestId st; pendingRequests := pendingRequests st;
     initialized := initialized st; buffer := buffer st; child := child st;
     handlers := handlers st; nextPromise := nextPromise st; awaiting := awaiting st;
     writes := writes st; timers := timers st; effects := v |}.

Definition constructor (cfg : Config) (name : string) : Client :=
  {| serverName := name; config := cfg; process := false; requestId := 1;
     pendingRequests := ∅; initialized := false; buffer := [];
     child := None; handlers := None; nextPromise := 0%nat; awaiting := ∅;
     writes := []; timers := []; effects := [] |}.

(** ** Runtime primitives *)

Definition emit (e : Effect) (st : Client) : Client :=
  set_effects (effects st ++ [e]) st.

Definition log (lvl : LogLevel) (msg : string) (st : Client) : Client :=
  emit (ELog lvl msg) st.

(** [new Promise(..)]. *)
Definition new_promise (st : Client) : Promise * Client :=
  (nextPromise st, set_nextPromise (S (nextPromise st)) st).

(** A call of [resolve] or [reject] of promise [p]. *)
Definition settle (p : Promise) (o : Outcome) (st : Client) : Client :=
  emit (ESettle p o) st.

(** The calls made on [p], oldest first. *)
Fixpoint calls_on (p : Promise) (es : list Effect) : list Outcome :=
  match es with
  | [] => []
  | ESettle q o :: rest => if Nat.eqb q p then o :: calls_on p rest else calls_on p rest
  | _ :: rest => calls_on p rest
  end.

(** The state of a promise: the first call settles it, later ones are
    ignored. *)
Definition outcome (p : Promise) (st : Client) : option Outcome :=
  head (calls_on p (effects st)).

(** [await p], the rest of the function being [k]. *)
Definition await (p : Promise) (k : Cont) (st : Client) : Client :=
  set_awaiting (<[p := k]> (awaiting st)) st.

Definition write_eqb (a b : Write) : bool :=
  match a, b with
  | WRequest i p, WRequest j q => (i =? j) && Nat.eqb p q
  | WNotification p, WNotification q => Nat.eqb p q
  | _, _ => false
  end.

Definition timer_eqb (a b : Timer) : bool :=
  match a, b with
  | TRequest i p, TRequest j q => (i =? j) && Nat.eqb p q
  | TForceKill, TForceKill => true
  | _, _ => false
  end.

(** Remove the first element equal to [x]; [None] when there is none. *)
Fixpoint take_out {A} (eqb : A -> A -> bool) (x : A) (l : list A) : option (list A) :=
  match l with
  | [] => None
  | y :: rest =>
      if eqb x y then Some rest
      else match take_out eqb x rest with
           | Some rest' => Some (y :: rest')
           | None => None
           end
  end.

(** [this.process.stdin.write(line, 'utf8', callback)]. *)
Definition stdin_write (w : Write) (e : Effect) (st : Client) : Client :=
  emit e (set_writes (writes st ++ [w]) st).

Definition setTimeout (t : Timer) (st : Client) : Client :=
  set_timers (timers st ++ [t]) st.

(** [this.process?.stdin] is truthy. *)
Definition has_stdin (st : Client) : bool :=
  process st && match child st with
                | Some c => stdin c
                | None => false
                end.

(** [this.process.kill(sig)]: the signal reaches a process that has not
    exited, and then [killed] is set. *)
Definition kill (sig : Signal) (st : Client) : Client :=
  match child st with
  | Some c =>
      if exited c then emit (EKill sig false) st
      else
        emit (EKill sig true)
          (set_child (Some {| pid := pid c; stdin := stdin c; stdout := stdout c;
                              stderr := stderr c; killed := true; exited := false;
                              signals := signals c ++ [sig] |}) st)
  | None => emit (EKill sig false) st
  end.

(** ** Methods *)

(** [this.requestId++].  The counter of the code is a double: it counts
    exactly up to 2^53 and stays there, [2^53 + 1] being rounded back to
    [2^53].  The model counts in [Z]; the two agree on every connection whose
    [requestId] is at most 2^53, which is the bound the statements about ids
    carry. *)
Definition getNextRequestId (st : Client) : Z * Client :=
  (requestId st, set_requestId (requestId st + 1) st).

Definition sendRequest (r : Request) (st : Client) : Promise * Client :=
  let '(p, st) := new_promise st in
  if negb (has_stdin st) then
    (p, settle p (Rejected (ErrNoStdin (serverName st))) st)
  else
    let st := set_pendingRequests (<[req_id r := p]> (pendingRequests st)) st in
    let st := log DEBUG "Sending request" st in
    let st := stdin_write (WRequest (req_id r) p) (EWriteRequest p r) st in
    let st := setTimeout (TRequest (req_id r) p) st in
    (p, st).

Definition sendNotification (method : string) (st : Client) : Promise * Client :=
  let '(p, st) := new_promise st in
  if negb (has_stdin st) then
    (p, settle p (Rejected (ErrNoStdin (serverName st))) st)
  else
    let st := log DEBUG "Sending notification" st in
    (p, stdin_write (WNotification p) (EWriteNotification method) st).

(** The callback passed to [stdin.write]. *)
Definition write_callback (w : Write) (ok : bool) (st : Client) : Client :=
  match w with
  | WRequest id p =>
      if ok then st
      else settle p (Rejected (ErrWrite (serverName st)))
             (set_pendingRequests (delete id (pendingRequests st)) st)
  | WNotification p =>
      if ok then settle p (Resolved JUndefined) st
      else settle p (Rejected (ErrNotify (serverName st))) st
  end.

Definition force_kill (st : Client) : Client :=
  if process st && match child st with
                   | Some c => negb (killed c)
                   | None => false
                   end
  then kill SIGKILL (log WARN "Force killing process" st)
  else st.

(** The callback passed to [setTimeout]. *)
Definition timer_callback (t : Timer) (st : Client) : Client :=
  match t with
  | TRequest id p =>
      match pendingRequests st !! id with
      | Some _ =>
          settle p (Rejected (ErrTimeout id (serverName st)))
            (set_pendingRequests (delete id (pendingRequests st)) st)
      | None => st
      end
  | TForceKill => force_kill st
  end.

(** [cleanup] walks [pendingRequests] and rejects every waiter; the map is
    walked in the order of [map_to_list]. *)
Definition reject_closed (st : Client) (entry : Z * Promise) : Effect :=
  ESettle (snd entry) (Rejected (ErrClosed (serverName st))).

Definition cleanup (st : Client) : Client :=
  let st :=
    if process st then
      let st := kill SIGTERM st in
      let st := setTimeout TForceKill st in
      set_process false st
    else st in
  let st := set_effects (effects st ++
              map (reject_closed st) (map_to_list (pendingRequests st))) st in
  let st := set_pendingRequests ∅ st in
  let st := set_initialized false st in
  emit EEmitDisconnected st.

(** [this.pendingRequests.has(v)] for a value read from a message, with the
    entry found: only a number can equal a key. *)
Definition find_pending (v : JSValue) (st : Client) : option (Z * Promise) :=
  match v with
  | JNum n => match pendingRequests st !! n with
              | Some p => Some (n, p)
              | None => None
              end
  | _ => None
  end.

(** [handleResponse(response)]; the boolean tells that it threw. *)
Definition handleResponse (response : JSValue) (st : Client) : Client * bool :=
  let st := log DEBUG "Received response" st in
  match get_prop response "id" with
  | None => (st, true)
  | Some idv =>
      match (if truthy idv then find_pending idv st else None) with
      | Some (id, p) =>
          let st := set_pendingRequests (delete id (pendingRequests st)) st in
          let error := get_prop_opt response "error" in
          if truthy error
          then (settle p (Rejected (ErrRemote (serverName st) error)) st, false)
          else (settle p (Resolved response) st, false)
      | None =>
          if truthy (get_prop_opt response "method") then
            let st := log DEBUG "Received notification" st in
            (emit (EEmitNotification response) st, false)
          else (st, false)
      end
  end.

(** The body of the loop of [handleStdout]; [parse] is [JSON.parse], [None]
    being a SyntaxError. *)
Definition handleLine (parse : text -> option JSValue) (st : Client) (line : text)
  : Client :=
  if nonempty (trim line) then
    match parse (trim line) with
    | Some response =>
        let '(st', threw) := handleResponse response st in
        if threw then log ERROR "Failed to parse response" st' else st'
    | None => log ERROR "Failed to parse response" st
    end
  else st.

(** [handleStdout] on text that is already decoded. *)
Definition handleText (parse : text -> option JSValue) (chunk : text) (st : Client)
  : Client :=
  let lines := split (buffer st ++ chunk) in
  let st := set_buffer (List.last lines []) st in
  fold_left (handleLine parse) (removelast lines) st.

Definition handleStdout (parse : text -> option JSValue) (data : list Byte.byte)
  (st : Client) : Client :=
  handleText parse (toString data) st.

Definition initRequest (id : Z) : Request :=
  {| req_id := id; req_method := "initialize";
     req_params :=
       JObj [("protocolVersion", JStr "2024-11-05");
             ("capabilities", JObj [("tools", JObj [])]);
             ("clientInfo", JObj [("name", JStr "mcp-railway-service");
                                  ("version", JStr "1.0.0")])] |}.

(** Taking the next id, sending the request and awaiting its answer, the
    rest of the method being [k]. *)
Definition request (k : Cont) (method : string) (params : JSValue) (st : Client)
  : Client :=
  let '(id, st) := getNextRequestId st in
  let '(p, st) :=
    sendRequest {| req_id := id; req_method := method; req_params := params |} st in
  await p k st.

(** The guard at the head of the four verbs. *)
Definition when_initialized (body : Client -> Client) (st : Client) : Client :=
  if negb (initialized st) then emit (EThrow (ErrNotInitialized (serverName st))) st
  else body st.

(** The four verbs up to their [await]. *)
Definition listTools : Client -> Client :=
  when_initialized (request KListTools "tools/list" JUndefined).

Definition callTool (name : string) (arguments_ : JSValue) : Client -> Client :=
  when_initialized
    (fun st =>
       request KCallTool "tools/call"
         (JObj [("name", JStr name); ("arguments", arguments_)])
         (log DEBUG "Calling tool" st)).

Definition listResources : Client -> Client :=
  when_initialized (request KListResources "resources/list" JUndefined).

Definition readResource (uri : string) : Client -> Client :=
  when_initialized (request KReadResource "resources/read" (JObj [("uri", JStr uri)])).

(** The verbs after their [await]: what they return for the outcome of the
    request. *)
Definition list_return (field : string) (o : Outcome) : Outcome :=
  match o with
  | Rejected e => Rejected e
  | Resolved response =>
      match get_prop response "result" with
      | Some result => Resolved (or_else (get_prop_opt result field) (JArr []))
      | None => Rejected ErrType
      end
  end.

Definition listTools_return : Outcome -> Outcome := list_return "tools".
Definition listResources_return : Outcome -> Outcome := list_return "resources".

Definition result_return (o : Outcome) : Outcome :=
  match o with
  | Rejected e => Rejected e
  | Resolved response =>
      match get_prop response "result" with
      | Some result => Resolved result
      | None => Rejected ErrType
      end
  end.

(** [disconnect()] up to its [await]; without one when not initialized. *)
Definition disconnect (st : Client) : Client :=
  if initialized st then request KDisconnect "shutdown" JUndefined st
  else cleanup st.

(** What follows an [await] on [p] once [p] is settled with [o]. *)
Definition resume_with (k : Cont) (p : Promise) (o : Outcome) (st : Client) : Client :=
  match k with
  | KInitialize connecting =>
      match o with
      | Resolved _ =>
          let '(q, st) := sendNotification "notifications/initialized" st in
          await q (KInitialized connecting) st
      | Rejected e => settle connecting (Rejected e) st
      end
  | KInitialized connecting =>
      match o with
      | Resolved _ =>
          let st := log DEBUG "Connection initialized" st in
          let st := set_initialized true st in
          let st := log INFO "initialized successfully" st in
          settle connecting (Resolved JUndefined) st
      | Rejected e => settle connecting (Rejected e) st
      end
  | KListTools => emit (EReturn p (listTools_return o)) st
  | KListResources => emit (EReturn p (listResources_return o)) st
  | KCallTool | KReadResource => emit (EReturn p (result_return o)) st
  | KDisconnect =>
      let st :=
        match o with
        | Resolved _ => log DEBUG "Shutdown request sent" st
        | Rejected _ => log ERROR "Error during shutdown" st
        end in
      cleanup st
  end.

Definition resume (p : Promise) (st : Client) : Client :=
  match awaiting st !! p, outcome p st with
  | Some k, Some o => resume_with k p o (set_awaiting (delete p (awaiting st)) st)
  | _, _ => st
  end.

(** What [spawn] gives back: it throws, or returns a fresh [ChildProcess]
    some of whose streams may be missing. *)
Inductive SpawnResult :=
| SpawnThrows
| Spawned (pid : Z) (stdin stdout stderr : bool).

(** [initialize()] up to its first [await]; [connecting] is the promise
    [connect] returns. *)
Definition initialize (connecting : Promise) (st : Client) : Client :=
  let '(id, st) := getNextRequestId st in
  let st := log DEBUG "Initializing connection..." st in
  let '(p, st) := sendRequest (initRequest id) st in
  await p (KInitialize connecting) st.

(** [connect()] up to the [await] inside [initialize()]. *)
Definition connect (sp : SpawnResult) (st : Client) : Client :=
  let '(connecting, st) := new_promise st in
  let st := log INFO "Starting server" st in
  let st := log INFO "config env" st in
  match sp with
  | SpawnThrows =>
      settle connecting (Rejected ErrSpawn) (log ERROR "Failed to spawn process" st)
  | Spawned pid i o e =>
      let c := {| pid := pid; stdin := i; stdout := o; stderr := e;
                  killed := false; exited := false; signals := [] |} in
      let st := set_child (Some c) (set_process true st) in
      if negb (i && o && e) then settle connecting (Rejected ErrStreams) st
      else initialize connecting (set_handlers (Some connecting) st)
  end.

(** The handler of the child's exit event. *)
Definition on_exit (st : Client) : Client :=
  match handlers st, child st with
  | Some _, Some c =>
      if exited c then st
      else
        let c' := {| pid := pid c; stdin := stdin c; stdout := stdout c;
                     stderr := stderr c; killed := killed c; exited := true;
                     signals := signals c |} in
        cleanup (log INFO "exited" (set_child (Some c') st))
  | _, _ => st
  end.

(** The handler of the child's error event. *)
Definition on_error (st : Client) : Client :=
  match handlers st with
  | Some connecting =>
      settle connecting (Rejected ErrProcess) (log ERROR "process error" st)
  | None => st
  end.

Definition isConnected (st : Client) : bool :=
  initialized st && process st
  && match child st with
     | Some c => negb (killed c)
     | None => false
     end.

Record Status := {
  st_serverName : string;
  st_connected : bool;
  st_initialized : bool;
  st_pendingRequests : nat;
  st_pid : option Z
}.

Definition getStatus (st : Client) : Status :=
  {| st_serverName := serverName st;
     st_connected := isConnected st;
     st_initialized := initialized st;
     st_pendingRequests := size (pendingRequests st);
     st_pid := if process st
               then match child st with
                    | Some c => if pid c =? 0 then None else Some (pid c)
                    | None => None
                    end
               else None |}.

(** ** The connection as a state machine

    Calls of the public methods and the callbacks of the runtime. *)
Inductive Event :=
| ListTools
| CallTool (name : string) (arguments_ : JSValue)
| ListResources
| ReadResource (uri : string)
| Disconnect
| Resume (p : Promise)                  (* an awaiting method goes on *)
| Stdout (data : list Byte.byte)        (* stdout 'data' *)
| Stderr                                (* stderr 'data' *)
| WriteDone (w : Write) (ok : bool)     (* a write callback, with or without error *)
| TimerFired (t : Timer)                (* a timer is due *)
| Exit                                  (* the child's 'exit' *)
| ProcError.                            (* the child's 'error' *)

Definition step (parse : text -> option JSValue) (st : Client) (ev : Event) : Client :=
  match ev with
  | ListTools => listTools st
  | CallTool name arguments_ => callTool name arguments_ st
  | ListResources => listResources st
  | ReadResource uri => readResource uri st
  | Disconnect => disconnect st
  | Resume p => resume p st
  | Stdout data =>
      match handlers st with
      | Some _ => handleStdout parse data st
      | None => st
      end
  | Stderr =>
      match handlers st with
      | Some _ => log DEBUG "stderr" st
      | None => st
      end
  | WriteDone w ok =>
      match take_out write_eqb w (writes st) with
      | Some rest => write_callback w ok (set_writes rest st)
      | None => st
      end
  | TimerFired t =>
      match take_out timer_eqb t (timers st) with
      | Some rest => timer_callback t (set_timers rest st)
      | None => st
      end
  | Exit => on_exit st
  | ProcError => on_error st
  end.

Definition run (parse : text -> option JSValue) (st : Client) (evs : list Event)
  : Client :=
  fold_left (step parse) evs st.

End MCPClient.

(* ===================================================================== *)
(** * src/mcp-manager.js : class MCPManager *)
(* ===================================================================== *)

Module MCPManager.
Import JS.

(** A registered server configuration. *)
Record ServerConfig := {
  name : string;
  command : string;
  args : list string;
  env : gmap string string;
  cwd : option string;
  autoStart : bool;
  description : option string
}.

(** The [customConfig] argument of [connectServer]; [None] is a field that
    is not given. *)
Record CustomConfig := {
  custom_command : option string;
  custom_args : option (list string);
  custom_env : option (gmap string string);
  custom_cwd : option string
}.

Definition noCustomConfig : CustomConfig :=
  {| custom_command := None; custom_args := None; custom_env := None;
     custom_cwd := None |}.

(** [this.clients] and [this.configs]. *)
Record Manager := {
  clients : gmap string MCPClient.Client;
  configs : gmap string ServerConfig
}.

Inductive Error :=
| ErrNotRegistered (server : string) (available : list string)
| ErrConnectFailed (server : string) (cause : MCPClient.Error)
| ErrNotConnected (server : string)
| ErrClient (e : MCPClient.Error).      (* an error of the client, passed on *)

(** The completion of an async method. *)
Inductive Result (A : Type) :=
| Ok (a : A)
| Throw (e : Error).
Arguments Ok {A} a.
Arguments Throw {A} e.

Definition bind {A B} (r : Result A) (k : A -> Result B) : Result B :=
  match r with
  | Ok a => k a
  | Throw e => Throw e
  end.

Definition set_clients (v : gmap string MCPClient.Client) (m : Manager) : Manager :=
  {| clients := v; configs := configs m |}.

Definition registerServer (config : ServerConfig) (m : Manager) : Manager :=
  {| clients := clients m; configs := <[name config := config]> (configs m) |}.

(** [a || b] on strings that may be missing. *)
Definition or_string (a : option string) (b : option string) : option string :=
  match a with
  | Some s => if String.eqb s "" then b else Some s
  | None => b
  end.

Definition mcpConfig (config : ServerConfig) (customConfig : CustomConfig)
  : MCPClient.Config :=
  {| MCPClient.command :=
       default "" (or_string (custom_command customConfig) (Some (command config)));
     MCPClient.args := default (args config) (custom_args customConfig);
     MCPClient.env := default ∅ (custom_env customConfig) ∪ env config;
     MCPClient.cwd := or_string (custom_cwd customConfig) (cwd config) |}.

(** The listener [connectServer] puts on the client's disconnected signal. *)
Definition on_disconnected (serverName : string) (m : Manager) : Manager :=
  set_clients (delete serverName (clients m)) m.

(** [connectServer] up to [await client.connect()]. *)
Inductive ConnectStart :=
| AlreadyConnected                         (* returns { alreadyConnected: true } *)
| NotRegistered (e : Error)                (* throws *)
| Connecting (client : MCPClient.Client).  (* new MCPClient; client.connect() is called *)

Definition connectServer (serverName : string) (customConfig : CustomConfig)
  (m : Manager) : Manager * ConnectStart :=
  match clients m !! serverName with
  | Some _ => (m, AlreadyConnected)
  | None =>
      match configs m !! serverName with
      | None =>
          (m, NotRegistered
                (ErrNotRegistered serverName (map fst (map_to_list (configs m)))))
      | Some config =>
          (m, Connecting (MCPClient.constructor (mcpConfig config customConfig) serverName))
      end
  end.

Inductive ConnectReturn :=
| RetAlreadyConnected
| RetConnected (serverName : string) (status : MCPClient.Status).

(** [connectServer] after [await client.connect()]: the connected client, or
    the error [connect] was rejected with. *)
Definition connectServer_resume (serverName : string)
  (connected : MCPClient.Client + MCPClient.Error) (m : Manager)
  : Manager * Result ConnectReturn :=
  match connected with
  | inl client =>
      (set_clients (<[serverName := client]> (clients m)) m,
       Ok (RetConnected serverName (MCPClient.getStatus client)))
  | inr e => (m, Throw (ErrConnectFailed serverName e))
  end.

(** [disconnectServer] up to [await client.disconnect()]. *)
Definition disconnectServer (serverName : string) (m : Manager)
  : Manager * Result MCPClient.Client :=
  match clients m !! serverName with
  | Some client => (m, Ok client)
  | None => (m, Throw (ErrNotConnected serverName))
  end.

(** [disconnectServer] after the [await], in the manager state found then:
    both the normal path and the catch path delete the entry, the catch
    path throws the error again. *)
Definition disconnectServer_resume (serverName : string) (disconnected : Result unit)
  (m : Manager) : Manager * Result unit :=
  match disconnected with
  | Ok _ => (set_clients (delete serverName (clients m)) m, Ok tt)
  | Throw e => (set_clients (delete serverName (clients m)) m, Throw e)
  end.

(** One turn of the loop of [listAllTools] and [listAllResources], on the
    result object, a plain [{}]: [call client] is how
    [await client.listTools()] (or [listResources()]) completes.  Inside the
    [try] the list is stored and then the template
    [`Found ${tools.length} tools`] is evaluated, which can throw after the
    entry is stored; the [catch] stores the empty list, whichever of the two
    failed. *)
Definition store_listed (call : MCPClient.Client -> MCPClient.Outcome)
  (entry : string * MCPClient.Client) (all : PlainObject JSValue)
  : PlainObject JSValue :=
  match call (snd entry) with
  | MCPClient.Resolved listed =>
      let stored := set_property (fst entry) listed all in
      if length_text_throws listed
      then set_property (fst entry) (JArr []) stored
      else stored
  | MCPClient.Rejected _ => set_property (fst entry) (JArr []) all
  end.

(** Nothing is thrown out of the loop body. *)
Definition list_entry (call : MCPClient.Client -> MCPClient.Outcome)
  (all : Result (PlainObject JSValue)) (entry : string * MCPClient.Client)
  : Result (PlainObject JSValue) :=
  bind all (fun all => Ok (store_listed call entry all)).

(** [listAllTools()] and [listAllResources()].  The loop walks
    [this.clients] while it is live: [visited] are the entries its iterator
    yields, one after the other, whatever is added to or taken out of the
    map while a call is awaited. *)
Definition listAllTools (listTools : MCPClient.Client -> MCPClient.Outcome)
  (visited : list (string * MCPClient.Client)) : Result (PlainObject JSValue) :=
  fold_left (list_entry listTools) visited (Ok empty_object).

Definition listAllResources (listResources : MCPClient.Client -> MCPClient.Outcome)
  (visited : list (string * MCPClient.Client)) : Result (PlainObject JSValue) :=
  fold_left (list_entry listResources) visited (Ok empty_object).

(** ** The other methods of the manager *)

Definition getClient (serverName : string) (m : Manager) : option MCPClient.Client :=
  clients m !! serverName.

(** [Array.from(this.clients.keys())] and [Array.from(this.configs.keys())],
    in the order of [map_to_list]. *)
Definition getConnectedServers (m : Manager) : list string :=
  map fst (map_to_list (clients m)).

Definition getRegisteredServers (m : Manager) : list string :=
  map fst (map_to_list (configs m)).

(** The errors of [callTool] and [readResource]: their own, which lists the
    connected servers, or the one the client threw, thrown again. *)
Inductive VerbError :=
| ErrNoClient (server : string) (connected : list string)
| ErrRethrown (e : MCPClient.Error).

(** [callTool(serverName, toolName, arguments_)]; [call client] is how
    [await client.callTool(toolName, arguments_)] completes. *)
Definition callTool (call : MCPClient.Client -> MCPClient.Outcome)
  (serverName : string) (m : Manager) : JSValue + VerbError :=
  match clients m !! serverName with
  | None => inr (ErrNoClient serverName (getConnectedServers m))
  | Some client =>
      match call client with
      | MCPClient.Resolved result => inl result
      | MCPClient.Rejected e => inr (ErrRethrown e)
      end
  end.

(** [readResource(serverName, uri)]; [read client] is how
    [await client.readResource(uri)] completes. *)
Definition readResource (read : MCPClient.Client -> MCPClient.Outcome)
  (serverName : string) (m : Manager) : JSValue + VerbError :=
  match clients m !! serverName with
  | None => inr (ErrNoClient serverName (getConnectedServers m))
  | Some client =>
      match read client with
      | MCPClient.Resolved content => inl content
      | MCPClient.Rejected e => inr (ErrRethrown e)
      end
  end.

(** One of the async functions [disconnectAll] maps over the names: the call
    of [disconnectServer] after its [await], inside try/catch. *)
Definition disconnect_one (disconnected : string -> Result unit) (m : Manager)
  (serverName : string) : Manager :=
  fst (disconnectServer_resume serverName (disconnected serverName) m).

(** [disconnectAll()].  [disconnectServer] is called for every name that
    [this.clients] holds, and each call finds its client, before any of them
    goes on after its [await]; [order] is the order in which they go on and
    [disconnected name] is how [await client.disconnect()] completes.  Every
    error is caught, so [Promise.all] is fulfilled. *)
Definition disconnectAll (disconnected : string -> Result unit) (order : list string)
  (m : Manager) : Manager * Result unit :=
  (fold_left (disconnect_one disconnected) order m, Ok tt).

Definition isServerConnected (serverName : string) (m : Manager) : bool :=
  match clients m !! serverName with
  | Some client => MCPClient.isConnected client
  | None => false
  end.

Record ServerStatus := {
  ss_name : string;
  ss_registered : bool;
  ss_connected : bool;
  ss_description : string;
  ss_status : option MCPClient.Status;
  ss_autoStart : bool
}.

Definition getServerStatus (serverName : string) (m : Manager) : ServerStatus :=
  let client := clients m !! serverName in
  let config := configs m !! serverName in
  {| ss_name := serverName;
     ss_registered := match config with Some _ => true | None => false end;
     ss_connected := match client with
                     | Some client => MCPClient.isConnected client
                     | None => false
                     end;
     ss_description :=
       default "No description"
         (or_string (match config with Some c => description c | None => None end) None);
     ss_status := match client with
                  | Some client => Some (MCPClient.getStatus client)
                  | None => None
                  end;
     ss_autoStart := match config with Some c => autoStart c | None => false end |}.

(** [Array.from(new Set(names))]: every name once, at its first place. *)
Fixpoint set_of (seen : list string) (names : list string) : list string :=
  match names with
  | [] => []
  | n :: rest =>
      if bool_decide (n ∈ seen) then set_of seen rest
      else n :: set_of (n :: seen) rest
  end.

Definition getAllServerStatus (m : Manager) : list ServerStatus :=
  map (fun serverName => getServerStatus serverName m)
    (set_of [] (getRegisteredServers m ++ getConnectedServers m)).

(** The names [initializeDefaultServers] goes through. *)
Definition serversToStart (m : Manager) : list string :=
  map name (List.filter autoStart (map snd (map_to_list (configs m)))).

(** One round of the loop of [initializeDefaultServers]: a whole call of
    [connectServer] inside try/catch, nothing else touching the manager
    while it is awaited; [connect client] is how [await client.connect()]
    completes for the client that was made. *)
Definition start_one (connect : MCPClient.Client -> MCPClient.Client + MCPClient.Error)
  (m : Manager) (serverName : string) : Manager :=
  match connectServer serverName noCustomConfig m with
  | (m, Connecting client) => fst (connectServer_resume serverName (connect client) m)
  | (m, _) => m
  end.

Definition initializeDefaultServers
  (connect : MCPClient.Client -> MCPClient.Client + MCPClient.Error) (m : Manager)
  : Manager :=
  fold_left (start_one connect) (serversToStart m) m.

(** An entry of [health.summary]. *)
Inductive Health :=
| Healthy (toolCount : JSValue) (connected : bool)
| Unhealthy (error : MCPClient.Error) (connected : bool).

Definition is_unhealthy (h : Health) : bool :=
  match h with Unhealthy _ _ => true | Healthy _ _ => false end.

(** The entries are objects, with the three fields above and no other. *)
#[export] Instance Health_proto : ProtoValue Health := {
  as_prototype _ := true;
  hides_setter _ := false
}.

(** What [healthCheck()] returns, but for the timestamp; [h_summary] is a
    plain [{}]. *)
Record HealthReport := {
  h_status : string;
  h_registered : nat;
  h_connected : nat;
  h_details : list ServerStatus;
  h_summary : PlainObject Health
}.

(** One turn of the loop of [healthCheck]: [listTools client] is how
    [await client.listTools()] completes, [after client] is the client then,
    and [length_of tools] is [tools.length], which cannot be read of [null]
    and [undefined]. *)
Definition health_entry (listTools : MCPClient.Client -> MCPClient.Outcome)
  (after : MCPClient.Client -> MCPClient.Client) (length_of : JSValue -> JSValue)
  (client : MCPClient.Client) : Health :=
  match listTools client with
  | MCPClient.Resolved tools =>
      match tools with
      | JUndefined | JNull =>
          Unhealthy MCPClient.ErrType (MCPClient.isConnected (after client))
      | _ => Healthy (length_of tools) (MCPClient.isConnected (after client))
      end
  | MCPClient.Rejected e => Unhealthy e (MCPClient.isConnected (after client))
  end.

(** [healthCheck()].  The registered and connected servers are counted and
    described at the start, in the manager [m]; the loop then walks
    [this.clients] while it is live, [visited] being the entries its iterator
    yields. *)
Definition healthCheck (listTools : MCPClient.Client -> MCPClient.Outcome)
  (after : MCPClient.Client -> MCPClient.Client) (length_of : JSValue -> JSValue)
  (visited : list (string * MCPClient.Client)) (m : Manager) : HealthReport :=
  let summary :=
    fold_left
      (fun summary entry =>
         set_property (fst entry)
           (health_entry listTools after length_of (snd entry)) summary)
      visited empty_object in
  let unhealthyServers := List.filter is_unhealthy (values summary) in
  {| h_status := if (0 <? length unhealthyServers)%nat then "degraded" else "healthy";
     h_registered := length (getRegisteredServers m);
     h_connected := length (getConnectedServers m);
     h_details := getAllServerStatus m;
     h_summary := summary |}.

(** [registerDefaultServers()]; [nodit_api_key] is
    [process.env.NODIT_API_KEY], a variable that is not set giving no entry
    in [env]. *)
Definition web3_mcp (mode description : string) : ServerConfig :=
  {| name := mode; command := "npx";
     args := ["-y"; "@tamago-labs/web3-mcp"; String.append "--agent_mode=" mode];
     env := ∅; cwd := None; autoStart := false; description := Some description |}.

Definition defaultServers (nodit_api_key : option string) : list ServerConfig :=
  [ {| name := "filesystem"; command := "npx";
       args := ["-y"; "@modelcontextprotocol/server-filesystem"; "/tmp"];
       env := ∅; cwd := None; autoStart := false;
       description := Some "File system operations in /tmp directory" |};
    {| name := "nodit"; command := "npx";
       args := ["-y"; "@noditlabs/nodit-mcp-server"];
       env := match nodit_api_key with
              | Some key => {[ "NODIT_API_KEY" := key ]}
              | None => ∅
              end;
       cwd := None; autoStart := false;
       description := Some "Base MCP for other blockchain analytics in the system" |};
    web3_mcp "agent-base"
      "Base MCP tools including symbol converter, cached Nodit API specs";
    web3_mcp "portfolio-snapshot"
      "Cross-chain wallet and portfolio analysis for EVM-chains";
    web3_mcp "gas-optimization-helper"
      "Smart gas price analysis and transaction timing optimization to minimize fees across EVM chains";
    web3_mcp "whale-monitor"
      "Track large token transfers and whale wallet activities";
    web3_mcp "token-intelligence"
      "Comprehensive token analysis including price data, holder distribution, and market metrics";
    web3_mcp "transaction-tracker"
      "Detailed transaction analysis and address activity monitoring";
    web3_mcp "nft-collection-insights"
      "NFT collection analytics including holder distribution, trading activity, and rarity analysis";
    web3_mcp "bitcoin-wallet-analyzer"
      "Comprehensive Bitcoin wallet analysis with UTXO optimization";
    web3_mcp "bitcoin-transaction-tracker"
      "Bitcoin transaction forensics and flow analysis";
    web3_mcp "bitcoin-network-insights"
      "Bitcoin network health monitoring and mining analytics";
    web3_mcp "evm-defi"
      "Comprehensive DeFi analytics for liquidity pools, yield farming, and DEX trading for EVM chains";
    web3_mcp "aptos-defi"
      "Native Aptos DeFi ecosystem analysis including coin activities, liquidity pools, and protocol interactions";
    web3_mcp "quant-trading"
      "Institutional-grade quantitative trading platform combining multi-factor token scoring, momentum detection, and risk assessment";
    web3_mcp "block-analytics"
      "Block tools for EVM-chains, good for testing." ].

Definition registerDefaultServers (nodit_api_key : option string) (m : Manager)
  : Manager :=
  fold_left (fun m config => registerServer config m) (defaultServers nodit_api_key) m.

Definition constructor (nodit_api_key : option string) : Manager :=
  registerDefaultServers nodit_api_key {| clients := ∅; configs := ∅ |}.

(** ** The manager over time

    Calls of the methods and completions of what they await.  A call of
    [connectServer] that has made its client is remembered until
    [client.connect()] completes; a call of [disconnectServer] may go on
    after its [await] at any time, and so may the listener of a client's
    disconnected signal. *)
Record Session := {
  manager : Manager;
  connecting : list string
}.

Inductive Event :=
| RegisterServer (config : ServerConfig)
| ConnectServer (serverName : string) (customConfig : CustomConfig)
| ConnectDone (serverName : string) (connected : MCPClient.Client + MCPClient.Error)
| DisconnectDone (serverName : string) (disconnected : Result unit)
| ClientDisconnected (serverName : string)
| DisconnectAll (disconnected : string -> Result unit) (order : list string)
| InitializeDefaultServers
    (connect : MCPClient.Client -> MCPClient.Client + MCPClient.Error).

(** Take the first [serverName] out of the calls in flight. *)
Fixpoint completed (serverName : string) (calls : list string) : list string :=
  match calls with
  | [] => []
  | n :: rest => if String.eqb n serverName then rest else n :: completed serverName rest
  end.

Definition step (s : Session) (ev : Event) : Session :=
  match ev with
  | RegisterServer config =>
      {| manager := registerServer config (manager s); connecting := connecting s |}
  | ConnectServer serverName customConfig =>
      match connectServer serverName customConfig (manager s) with
      | (m, Connecting _) => {| manager := m; connecting := serverName :: connecting s |}
      | (m, _) => {| manager := m; connecting := connecting s |}
      end
  | ConnectDone serverName connected =>
      if bool_decide (serverName ∈ connecting s)
      then {| manager := fst (connectServer_resume serverName connected (manager s));
              connecting := completed serverName (connecting s) |}
      else s
  | DisconnectDone serverName disconnected =>
      {| manager := fst (disconnectServer_resume serverName disconnected (manager s));
         connecting := connecting s |}
  | ClientDisconnected serverName =>
      {| manager := on_disconnected serverName (manager s); connecting := connecting s |}
  | DisconnectAll disconnected order =>
      {| manager := fst (disconnectAll disconnected order (manager s));
         connecting := connecting s |}
  | InitializeDefaultServers connect =>
      {| manager := initializeDefaultServers connect (manager s);
         connecting := connecting s |}
  end.

Definition run (s : Session) (evs : list Event) : Session := fold_left step evs s.

(** A manager as [new MCPManager()] gives it, no call in flight. *)
Definition start (nodit_api_key : option string) : Session :=
  {| manager := constructor nodit_api_key; connecting := [] |}.

End MCPManager.


(* ===================================================================== *)
(** * Sample data *)
(* ===================================================================== *)

Module Samples.
Import JS MCPClient.

Fixpoint text_eqb (a b : text) : bool :=
  match a, b with
  | [], [] => true
  | x :: a', y :: b' => N.eqb x y && text_eqb a' b'
  | _, _ => false
  end.

(** The string whose UTF-8 encoding is the ASCII literal [s] followed by the
    bytes [more]. *)
Definition utf8 (s : string) (more : list Byte.byte) : string :=
  string_of_list_byte (list_byte_of_string s ++ more).

Definition response (id : Z) (result : JSValue) : JSValue :=
  JObj [("jsonrpc", JStr "2.0"); ("id", JNum id); ("result", result)].

(** The lines of the examples with the values [JSON.parse] gives for them.
    The last two are the same response with the word cafe written with
    U+00E9, and with two U+FFFD in its place. *)
Definition parsed_lines : list (text * JSValue) :=
  [ (toString (bytes "{'jsonrpc':'2.0','id':1,'result':{}}"),
     response 1 (JObj []));
    (toString (bytes "{'jsonrpc':'2.0','id':2,'result':{'tools':[]}}"),
     response 2 (JObj [("tools", JArr [])]));
    (toString (bytes "{'jsonrpc':'2.0','id':2,'result':'caf"
               ++ [Byte.xc3; Byte.xa9] ++ bytes "'}"),
     response 2 (JStr (utf8 "caf" [Byte.xc3; Byte.xa9])));
    (toString (bytes "{'jsonrpc':'2.0','id':2,'result':'caf")
       ++ [REPLACEMENT; REPLACEMENT] ++ toString (bytes "'}"),
     response 2 (JStr (utf8 "caf" [Byte.xef; Byte.xbf; Byte.xbd;
                                   Byte.xef; Byte.xbf; Byte.xbd]))) ].

Fixpoint find_line (line : text) (table : list (text * JSValue)) : option JSValue :=
  match table with
  | [] => None
  | (l, v) :: rest => if text_eqb line l then Some v else find_line line rest
  end.

(** [JSON.parse] restricted to the lines above; the other lines used in the
    examples are not JSON. *)
Definition parse (line : text) : option JSValue := find_line line parsed_lines.

Definition filesystem : Config :=
  {| command := "npx";
     args := ["-y"; "@modelcontextprotocol/server-filesystem"; "/tmp"];
     env := ∅; cwd := None |}.

(** A client whose child was spawned with all three streams. *)
Definition spawned : Client :=
  connect (Spawned 4242 true true true) (constructor filesystem "filesystem").

(** The handshake: the initialize request is written, answered in two
    chunks, and the notification is written. *)
Definition handshake : list Event :=
  [ WriteDone (WRequest 1 1) true;
    Stdout (bytes "{'jsonrpc':'2.0','id':1,'re");
    Stdout (bytes "sult':{}}" ++ [Byte.x0a]);
    Resume 1;
    WriteDone (WNotification 2) true;
    Resume 2 ].

Definition ready : Client := run parse spawned handshake.

(** A ready client that has sent a tools/call request (id 2, waiter 3). *)
Definition calling : Client :=
  run parse ready [CallTool "read_file" (JObj []); WriteDone (WRequest 2 3) true].

(** That client after the 30 s timer of the request has fired. *)
Definition timed_out : Client := run parse calling [TimerFired (TRequest 2 3)].

(** The answer to the request, cut inside the two-byte encoding of U+00E9. *)
Definition cafe_head : list Byte.byte :=
  bytes "{'jsonrpc':'2.0','id':2,'result':'caf" ++ [Byte.xc3].

Definition cafe_tail : list Byte.byte :=
  [Byte.xa9] ++ bytes "'}" ++ [Byte.x0a].

(** A request of the server to the client: it has an id and a method. *)
Definition ping : JSValue :=
  JObj [("jsonrpc", JStr "2.0"); ("id", JNum 7); ("method", JStr "ping")].

(** An answer cut between two ASCII characters. *)
Definition tools_head : list Byte.byte := bytes "{'jsonrpc':'2.0','id':2,'re".

Definition tools_tail : list Byte.byte :=
  bytes "sult':{'tools':[]}}" ++ [Byte.x0a].

(** A ready client whose child neither answers nor exits: [disconnect] sends
    the shutdown request (id 2, waiter 3), the request times out, and
    [disconnect] goes on to [cleanup]. *)
Definition torn_down : Client :=
  run parse ready
    [Disconnect; WriteDone (WRequest 2 3) true; TimerFired (TRequest 2 3); Resume 3].

(** A child that never answers the initialize request: the request times out
    and [initialize] goes on with the rejection. *)
Definition handshake_timed_out : Client :=
  run parse spawned
    [WriteDone (WRequest 1 1) true; TimerFired (TRequest 1 1); Resume 1].

(** A connection from [connect] on: the handshake, a tools/call request
    (id 2, waiter 3) that is written and never answered, and its timer. *)
Definition unanswered : list Event :=
  handshake
  ++ [CallTool "read_file" (JObj []); WriteDone (WRequest 2 3) true;
      TimerFired (TRequest 2 3)].

(** The same, but the write of the request fails. *)
Definition unwritten : list Event :=
  handshake
  ++ [CallTool "read_file" (JObj []); WriteDone (WRequest 2 3) false;
      TimerFired (TRequest 2 3)].

Definition write_failed : Client := run parse spawned unwritten.

(** A manager with the filesystem server registered and connected. *)
Definition registered : MCPManager.Manager :=
  MCPManager.registerServer
    {| MCPManager.name := "filesystem"; MCPManager.command := "npx";
       MCPManager.args := ["-y"; "@modelcontextprotocol/server-filesystem"; "/tmp"];
       MCPManager.env := ∅; MCPManager.cwd := None;
       MCPManager.autoStart := false;
       MCPManager.description := Some "File system operations in /tmp directory" |}
    {| MCPManager.clients := ∅; MCPManager.configs := ∅ |}.

Definition connected : MCPManager.Manager :=
  fst (MCPManager.connectServer_resume "filesystem" (inl ready) registered).

(** A connection from [connect] on with a tools/call request (id 2,
    waiter 3) written and not answered yet. *)
Definition in_flight : list Event :=
  handshake ++ [CallTool "read_file" (JObj []); WriteDone (WRequest 2 3) true].

(** A connection from [connect] on whose child has exited after the
    handshake. *)
Definition child_gone : list Event := handshake ++ [Exit].

(** The request a [listTools()] call of a ready client would send. *)
Definition tools_request : Request :=
  {| req_id := 2; req_method := "tools/list"; req_params := JUndefined |}.

(** Its answer, as one chunk and as the line it holds. *)
Definition tools_answer : list Byte.byte := tools_head ++ tools_tail.

Definition tools_line : text :=
  toString (bytes "{'jsonrpc':'2.0','id':2,'result':{'tools':[]}}").

(** The request of the tools/call of [in_flight], and what is logged before
    it is written. *)
Definition call_request : Request :=
  {| req_id := 2; req_method := "tools/call";
     req_params := JObj [("name", JStr "read_file"); ("arguments", JObj [])] |}.

Definition before_call : list Effect :=
  effects ready ++ [ELog DEBUG "Calling tool"; ELog DEBUG "Sending request"].

(** [JSON.parse] on the examples and on the line [null]. *)
Definition parse_null (line : text) : option JSValue :=
  if text_eqb line (toString (bytes "null")) then Some JNull else parse line.

(** Two requests in flight: tools/call (id 2, waiter 3) and tools/list
    (id 3, waiter 4). *)
Definition two_in_flight : list Event :=
  in_flight ++ [ListTools; WriteDone (WRequest 3 4) true].

(** The filesystem server registered again, with another directory. *)
Definition filesystem_home : MCPManager.ServerConfig :=
  {| MCPManager.name := "filesystem"; MCPManager.command := "npx";
     MCPManager.args := ["-y"; "@modelcontextprotocol/server-filesystem"; "/home"];
     MCPManager.env := ∅; MCPManager.cwd := None;
     MCPManager.autoStart := true;
     MCPManager.description := None |}.

Definition filesystem_tmp : MCPManager.ServerConfig :=
  {| MCPManager.name := "filesystem"; MCPManager.command := "npx";
     MCPManager.args := ["-y"; "@modelcontextprotocol/server-filesystem"; "/tmp"];
     MCPManager.env := ∅; MCPManager.cwd := None;
     MCPManager.autoStart := false;
     MCPManager.description := Some "File system operations in /tmp directory" |}.

(** The child exits while the initialized notification is being written,
    and the write is reported as done. *)
Definition gone_during_handshake : Client :=
  run parse spawned
    [ WriteDone (WRequest 1 1) true;
      Stdout (bytes "{'jsonrpc':'2.0','id':1,'result':{}}" ++ [Byte.x0a]);
      Resume 1;
      Exit;
      WriteDone (WNotification 2) true ].

End Samples.

(* ===================================================================== *)
(** * Notions used to state the properties *)
(* ===================================================================== *)

Module Props.
Import JS MCPClient.

(** The chunk does not end inside a multi-byte character. *)
Definition ends_between_characters (chunk : list Byte.byte) : bool :=
  match utf8_state None (map Byte.to_N chunk) with
  | None => true
  | Some _ => false
  end.

(** The text holds no newline. *)
Definition no_LF (l : text) : bool := forallb (fun c => negb (N.eqb c LF)) l.

(** The entry of one server in the result of [listAllTools]: what its
    call returned, or the empty list when the call failed or when the length
    of what it returned could not be written into the log line. *)
Definition listed (o : Outcome) : JSValue :=
  match o with
  | Resolved v => if length_text_throws v then JArr [] else v
  | Rejected _ => JArr []
  end.

(** The client the loop saw last under the name [n]. *)
Definition last_visit (visited : list (string * Client)) (n : string) : option Client :=
  (list_to_map (rev visited) : gmap string Client) !! n.

(** The own property [__proto__] of the result when the server of that name
    is visited once: there is none, but when the call returned [null] or an
    object with a field [__proto__] of its own and the length of it could
    not be written; then it is the empty list. *)
Definition proto_entry (call : Client -> Outcome) (client : option Client)
  : option JSValue :=
  match client with
  | Some c =>
      match call c with
      | Resolved v =>
          if length_text_throws v && hides_setter v then Some (JArr []) else None
      | Rejected _ => None
      end
  | None => None
  end.

Definition is_disconnected (e : Effect) : bool :=
  match e with
  | EEmitDisconnected => true
  | _ => false
  end.

(** How often the disconnected signal was emitted. *)
Definition disconnected_count (st : Client) : nat :=
  length (List.filter is_disconnected (effects st)).

(** The events that run [cleanup]: the exit of the child, a [disconnect()]
    on a connection that is not initialized, and a [disconnect()] going on
    after its shutdown request was settled. *)
Definition runs_cleanup (st : Client) (ev : Event) : bool :=
  match ev with
  | Exit =>
      match handlers st, child st with
      | Some _, Some c => negb (exited c)
      | _, _ => false
      end
  | Disconnect => negb (initialized st)
  | Resume p =>
      match awaiting st !! p, outcome p st with
      | Some KDisconnect, Some _ => true
      | _, _ => false
      end
  | _ => false
  end.

Fixpoint cleanups (parse : text -> option JSValue) (st : Client) (evs : list Event)
  : nat :=
  match evs with
  | [] => 0
  | ev :: rest =>
      (if runs_cleanup st ev then 1 else 0) + cleanups parse (step parse st ev) rest
  end.

(** ** The outcomes of a request *)

Definition by_response (o : Outcome) : bool :=
  match o with
  | Resolved _ | Rejected (ErrRemote _ _) => true
  | _ => false
  end.

Definition by_timeout (o : Outcome) : bool :=
  match o with
  | Rejected (ErrTimeout _ _) => true
  | _ => false
  end.

Definition by_teardown (o : Outcome) : bool :=
  match o with
  | Rejected (ErrClosed _) => true
  | _ => false
  end.

Definition by_write_failure (o : Outcome) : bool :=
  match o with
  | Rejected (ErrWrite _) => true
  | _ => false
  end.

(** The three outcomes that go through the pending table. *)
Definition from_table (o : Outcome) : bool :=
  by_response o || by_timeout o || by_teardown o.

Definition request_outcome (o : Outcome) : bool :=
  from_table o || by_write_failure o.

Definition writes_request (id : Z) (p : Promise) (e : Effect) : bool :=
  match e with
  | EWriteRequest q r => Nat.eqb q p && (req_id r =? id)
  | _ => false
  end.

Definition issued_in (id : Z) (p : Promise) (es : list Effect) : bool :=
  existsb (writes_request id p) es.

(** [sendRequest] has accepted a request with this id, [p] being its
    waiter. *)
Definition issued (id : Z) (p : Promise) (st : Client) : bool :=
  issued_in id p (effects st).

(** The 30 s timer of the request has not fired yet. *)
Definition armed (id : Z) (p : Promise) (st : Client) : bool :=
  existsb (timer_eqb (TRequest id p)) (timers st).

(** How many of the calls made on [p] came through the pending table. *)
Definition table_count (p : Promise) (st : Client) : nat :=
  length (List.filter from_table (calls_on p (effects st))).

(** A request is either waiting in the table, with no call on its waiter yet
    and its timer armed, or it is out of the table for good. *)
Definition in_table (id : Z) (p : Promise) (st : Client) : Prop :=
  pendingRequests st !! id = Some p
  /\ calls_on p (effects st) = []
  /\ In (TRequest id p) (timers st).

Definition done (id : Z) (p : Promise) (st : Client) : Prop :=
  pendingRequests st !! id = None
  /\ calls_on p (effects st) <> []
  /\ (table_count p st <= 1)%nat
  /\ forallb request_outcome (calls_on p (effects st)) = true.

(** The promises that are not waiters of requests: the one [connect]
    returns and the ones [sendNotification] returns. *)
Definition known_foreign (c : Promise) (st : Client) : Prop :=
  handlers st = Some c
  \/ (exists q, awaiting st !! q = Some (KInitialize c)
                \/ awaiting st !! q = Some (KInitialized c))
  \/ In (WNotification c) (writes st).

(** A continuation of a verb or of [disconnect], not of [initialize]. *)
Definition plain_cont (k : Cont) : Prop :=
  forall c, k <> KInitialize c /\ k <> KInitialized c.

(** What holds of a connection at any time. *)
Record Inv (st : Client) : Prop := {
  inv_fresh : forall q, (nextPromise st <= q)%nat -> calls_on q (effects st) = [];
  inv_bound : forall id p, issued id p st = true ->
                (p < nextPromise st)%nat /\ id < requestId st;
  inv_inj : forall id p id' p', issued id p st = true -> issued id' p' st = true ->
              (id = id' <-> p = p');
  inv_pending : forall id p, pendingRequests st !! id = Some p -> issued id p st = true;
  inv_phase : forall id p, issued id p st = true -> in_table id p st \/ done id p st;
  inv_timer : forall id p, In (TRequest id p) (timers st) -> issued id p st = true;
  inv_write : forall id p, In (WRequest id p) (writes st) -> issued id p st = true;
  inv_foreign : forall c, known_foreign c st ->
                  (c < nextPromise st)%nat /\ forall id, issued id c st = false
}.

(** ** The order of the handshake *)

(** The entry [initialize()] logs when it has run to its end. *)
Definition is_handshake_done (e : Effect) : bool :=
  match e with
  | ELog DEBUG msg => String.eqb msg "Connection initialized"
  | _ => false
  end.

(** A request other than the initialize request is written to the child. *)
Definition writes_other_request (e : Effect) : bool :=
  match e with
  | EWriteRequest _ r => negb (String.eqb (req_method r) "initialize")
  | _ => false
  end.

(** No request other than initialize is written before [initialize()] has
    run to its end. *)
Fixpoint handshake_first (es : list Effect) : bool :=
  match es with
  | [] => true
  | e :: rest =>
      is_handshake_done e || (negb (writes_other_request e) && handshake_first rest)
  end.

Definition handshake_order (st : Client) : Prop :=
  handshake_first (effects st) = true
  /\ (initialized st = true -> existsb is_handshake_done (effects st) = true).

(** A transition that writes no request other than initialize and does not
    make the connection initialized. *)
Definition quiet (st st' : Client) : Prop :=
  exists es,
    effects st' = effects st ++ es
    /\ existsb writes_other_request es = false
    /\ (initialized st' = true -> initialized st = true).

(** ** A connection that could not be set up *)

(** [connect()] rejects before it installs the handlers: [spawn] throws or
    one of the three streams is missing. *)
Definition setup_fails (sp : SpawnResult) : bool :=
  match sp with
  | SpawnThrows => true
  | Spawned _ i o e => negb (i && o && e)
  end.

(** Something is written to the child's stdin. *)
Definition is_write (e : Effect) : bool :=
  match e with
  | EWriteRequest _ _ | EWriteNotification _ => true
  | _ => false
  end.

(** What holds for good of a connection that could not be set up. *)
Definition down (st : Client) : Prop :=
  handlers st = None
  /\ initialized st = false
  /\ awaiting st = ∅
  /\ writes st = []
  /\ pendingRequests st = ∅
  /\ existsb is_write (effects st) = false.

(** ** Messages that are not objects *)

Definition is_object (v : JSValue) : bool :=
  match v with JObj _ => true | _ => false end.

(** [null] and [undefined]: reading a property of them throws. *)
Definition nullish (v : JSValue) : bool :=
  match v with JUndefined | JNull => true | _ => false end.

(** ** The manager *)

(** Every connected server is a registered one. *)
Definition clients_registered (m : MCPManager.Manager) : Prop :=
  forall serverName,
    is_Some (MCPManager.clients m !! serverName) ->
    is_Some (MCPManager.configs m !! serverName).

(** What holds of a manager at any time: the connected servers and the
    servers being connected are registered ones. *)
Definition session_registered (s : MCPManager.Session) : Prop :=
  clients_registered (MCPManager.manager s)
  /\ forall serverName,
       serverName ∈ MCPManager.connecting s ->
       is_Some (MCPManager.configs (MCPManager.manager s) !! serverName).

(** ** What settles a request *)

(** The message answers request [id]: it carries that id, and [o] is what
    [handleResponse] calls the waiter with for it. *)
Definition answers (id : Z) (name : string) (response : JSValue) (o : Outcome) : Prop :=
  get_prop response "id" = Some (JNum id)
  /\ o = (if truthy (get_prop_opt response "error")
          then Rejected (ErrRemote name (get_prop_opt response "error"))
          else Resolved response).

(** What makes the call [o] on the waiter [p] of request [id] when the event
    [ev] is taken in state [st]: a complete line of stdout whose message
    answers the request, the request's own timer, the callback of the
    request's own write reporting an error, or a run of [cleanup]. *)
Definition cause (parse : text -> option JSValue) (st : Client) (ev : Event)
  (id : Z) (p : Promise) (o : Outcome) : Prop :=
  match ev with
  | Stdout data =>
      exists line response,
        In line (removelast (split (buffer st ++ toString data)))
        /\ parse (trim line) = Some response
        /\ answers id (serverName st) response o
  | TimerFired t =>
      t = TRequest id p /\ o = Rejected (ErrTimeout id (serverName st))
  | WriteDone w ok =>
      w = WRequest id p /\ ok = false /\ o = Rejected (ErrWrite (serverName st))
  | Exit | Disconnect | Resume _ =>
      runs_cleanup st ev = true /\ o = Rejected (ErrClosed (serverName st))
  | _ => False
  end.

(** ** A connection that is torn down *)

(** A continuation of a verb or of [disconnect], not of [initialize]. *)
Definition is_plain (k : Cont) : bool :=
  match k with
  | KInitialize _ | KInitialized _ => false
  | _ => true
  end.

(** No part of the handshake is still to run: [initialize()] has returned
    or thrown, or was never called. *)
Definition handshake_over (st : Client) : bool :=
  forallb is_plain (map snd (map_to_list (awaiting st))).

(** What holds for good once [cleanup] has run on a connection whose
    handshake is over. *)
Definition closed (name : string) (st : Client) : Prop :=
  serverName st = name
  /\ process st = false
  /\ initialized st = false
  /\ pendingRequests st = ∅
  /\ (forall q k, awaiting st !! q = Some k -> is_plain k = true).

(** ** The handshake *)

Definition is_rejection (o : Outcome) : bool :=
  match o with
  | Rejected _ => true
  | Resolved _ => false
  end.

(** No promise is resolved. *)
Definition only_rejections (es : list Effect) : bool :=
  forallb (fun e => match e with
                    | ESettle _ (Resolved _) => false
                    | _ => true
                    end) es.

(** [initialize()] is awaiting the promise [q], and [c] is the promise it
    settles at its end. *)
Definition handshake_at (st : Client) (q c : Promise) : Prop :=
  awaiting st !! q = Some (KInitialize c) \/ awaiting st !! q = Some (KInitialized c).

(** What holds of a connection while its handshake runs: the promise to be
    settled is the one [connect()] returned, the connection is not
    initialized, [connect()] has not resolved, [initialize()] awaits one
    promise at a time, at first the waiter of the initialize request (id 1),
    the promise [connect()] returned is not that of a notification, and the
    write of the initialized notification is under way as long as its
    promise is not settled. *)
Record Handshake (st : Client) : Prop := {
  hs_cont : forall q c, handshake_at st q c ->
              handlers st = Some c
              /\ initialized st = false
              /\ forallb is_rejection (calls_on c (effects st)) = true;
  hs_unique : forall q q' c c',
                handshake_at st q c -> handshake_at st q' c' -> q = q';
  hs_init : forall q c, awaiting st !! q = Some (KInitialize c) -> issued 1 q st = true;
  hs_writes : forall c', In (WNotification c') (writes st) -> handlers st <> Some c';
  hs_notify : forall q c, awaiting st !! q = Some (KInitialized c) ->
                calls_on q (effects st) = [] -> In (WNotification q) (writes st)
}.

(** The connection is not initialized and no part of the handshake is still
    to run. *)
Definition never_initialized (st : Client) : Prop :=
  initialized st = false
  /\ forall q k, awaiting st !! q = Some k -> is_plain k = true.

End Props.
(* ===================================================================== *)
(** * Framing *)
(* ===================================================================== *)

Section Framing.
Import JS MCPClient Props.

Lemma last_app_ne {A} (l1 l2 : list A) (d : A) :
  l2 <> [] -> List.last (l1 ++ l2) d = List.last l2 d.
Proof.
  intros Hne. rewrite (app_removelast_last d Hne) at 1.
  rewrite app_assoc. apply last_last.
Qed.

Lemma split_not_nil (s : text) : split s <> [].
Proof.
  induction s as [|c s IH]; simpl; [discriminate|].
  destruct (N.eqb c LF); [discriminate|].
  destruct (split s); [contradiction | discriminate].
Qed.

Lemma split_cons_other (c : N) (s : text) :
  N.eqb c LF = false ->
  split (c :: s) = (c :: hd [] (split s)) :: tl (split s).
Proof.
  intros Hc. simpl. rewrite Hc.
  pose proof (split_not_nil s) as Hs.
  destruct (split s); [contradiction | reflexivity].
Qed.

(** Splitting a concatenation: the complete lines of the first part, then
    the split of its last fragment followed by the second part. *)
Lemma split_app (x y : text) :
  split (x ++ y) = removelast (split x) ++ split (List.last (split x) [] ++ y).
Proof.
  induction x as [|c x IH]; [reflexivity|].
  destruct (N.eqb c LF) eqn:Hc.
  - simpl. rewrite Hc. rewrite IH.
    pose proof (split_not_nil x) as Hx.
    destruct (split x) as [|l ls]; [contradiction|]. reflexivity.
  - rewrite <- app_comm_cons. rewrite !split_cons_other by assumption.
    rewrite IH. clear IH.
    pose proof (split_not_nil x) as Hx.
    destruct (split x) as [|l ls]; [contradiction|].
    destruct ls as [|l' ls'].
    + cbn [removelast List.last hd tl app].
      rewrite (split_cons_other c (l ++ y) Hc). reflexivity.
    + cbn [hd tl]. change (removelast ((c :: l) :: l' :: ls'))
        with ((c :: l) :: removelast (l' :: ls')).
      change (List.last ((c :: l) :: l' :: ls') [])
        with (List.last (l' :: ls') []).
      change (removelast (l :: l' :: ls')) with (l :: removelast (l' :: ls')).
      change (List.last (l :: l' :: ls') []) with (List.last (l' :: ls') []).
      reflexivity.
Qed.

Lemma split_line (l rest : text) :
  no_LF l = true -> split (l ++ LF :: rest) = l :: split rest.
Proof.
  induction l as [|c l IH]; intros Hl.
  - reflexivity.
  - simpl in Hl. apply andb_prop in Hl as [Hc Hl].
    apply negb_true_iff in Hc.
    rewrite <- app_comm_cons, split_cons_other by assumption.
    rewrite IH by assumption. reflexivity.
Qed.

Lemma split_no_LF (l : text) : no_LF l = true -> split l = [l].
Proof.
  induction l as [|c l IH]; intros Hl; [reflexivity|].
  simpl in Hl. apply andb_prop in Hl as [Hc Hl].
  apply negb_true_iff in Hc.
  rewrite split_cons_other, IH by assumption. reflexivity.
Qed.

Lemma split_lines (lines : list text) (rest : text) :
  forallb no_LF lines = true -> no_LF rest = true ->
  split (concat (map (fun l => l ++ [LF]) lines) ++ rest) = lines ++ [rest].
Proof.
  intros Hlines Hrest. induction lines as [|l lines IH]; simpl.
  - apply split_no_LF, Hrest.
  - simpl in Hlines. apply andb_prop in Hlines as [Hl Hlines].
    rewrite <- !app_assoc. simpl. rewrite split_line by assumption.
    rewrite IH by assumption. reflexivity.
Qed.

Lemma utf8_decode_app (s : option Utf8Partial) (a b : list N) :
  utf8_state s a = None ->
  utf8_decode s (a ++ b) = utf8_decode s a ++ utf8_decode None b.
Proof.
  revert s. induction a as [|x a IH]; intros s Hs.
  - cbn in Hs. subst s. reflexivity.
  - cbn in *. destruct (utf8_step s x) as [s' out]. cbn [fst] in Hs.
    rewrite (IH s' Hs). apply app_assoc.
Qed.

(** Chunks cut between two characters decode to the pieces of the decoded
    stream. *)
Lemma toString_app (c1 c2 : list Byte.byte) :
  ends_between_characters c1 = true ->
  toString (c1 ++ c2) = toString c1 ++ toString c2.
Proof.
  unfold ends_between_characters, toString. intros H.
  rewrite map_app. apply utf8_decode_app.
  destruct (utf8_state None (map Byte.to_N c1)); [discriminate | reflexivity].
Qed.

Variable parse : text -> option JSValue.

(** Neither [handleResponse] nor the loop body reads or writes [buffer]. *)
Lemma handleResponse_set_buffer (b : text) (response : JSValue) (st : Client) :
  handleResponse response (set_buffer b st)
  = (set_buffer b (fst (handleResponse response st)), snd (handleResponse response st)).
Proof.
  unfold handleResponse, find_pending.
  destruct (get_prop response "id") as [idv|]; [|reflexivity].
  destruct (truthy idv); cbn.
  - destruct idv; cbn; try (destruct (truthy _); reflexivity).
    destruct (pendingRequests st !! n); cbn; destruct (truthy _); reflexivity.
  - destruct (truthy _); reflexivity.
Qed.

Lemma handleLine_set_buffer (b : text) (st : Client) (line : text) :
  handleLine parse (set_buffer b st) line = set_buffer b (handleLine parse st line).
Proof.
  unfold handleLine. destruct (nonempty (trim line)); [|reflexivity].
  destruct (parse (trim line)) as [response|]; [|reflexivity].
  rewrite handleResponse_set_buffer.
  destruct (handleResponse response st) as [st' threw]; cbn.
  destruct threw; reflexivity.
Qed.

Lemma handleLines_set_buffer (b : text) (lines : list text) (st : Client) :
  fold_left (handleLine parse) lines (set_buffer b st)
  = set_buffer b (fold_left (handleLine parse) lines st).
Proof.
  revert st. induction lines as [|l lines IH]; intros st; [reflexivity|].
  simpl. rewrite handleLine_set_buffer. apply IH.
Qed.

Lemma handleText_buffer (chunk : text) (st : Client) :
  buffer (handleText parse chunk st) = List.last (split (buffer st ++ chunk)) [].
Proof. unfold handleText. rewrite handleLines_set_buffer. reflexivity. Qed.

(** Text arriving in two pieces is handled like the same text arriving at
    once. *)
Lemma handleText_app (t1 t2 : text) (st : Client) :
  handleText parse t2 (handleText parse t1 st) = handleText parse (t1 ++ t2) st.
Proof.
  unfold handleText at 1. rewrite handleText_buffer.
  unfold handleText. rewrite app_assoc, (split_app (buffer st ++ t1) t2).
  set (l1 := split (buffer st ++ t1)).
  set (l2 := split (List.last l1 [] ++ t2)).
  assert (Hl2 : l2 <> []) by apply split_not_nil.
  rewrite last_app_ne by assumption. rewrite removelast_app by assumption.
  rewrite fold_left_app. rewrite !handleLines_set_buffer. reflexivity.
Qed.

(** X28.  Framing of the decoded stream.  Where the stream is cut into chunks does
    not matter as long as no cut falls inside a multi-byte character, each
    chunk being decoded on its own: two chunks in a row leave the connection
    in the state the joined chunk leaves it in.  Every complete line is handed
    to the loop body in order and the fragment after the last newline is kept
    in [buffer]; a line that is blank after trimming changes nothing; a line
    that does not parse adds one log entry and changes nothing else; a line
    that arrives in two pieces is handled once, when it is complete. *)
Theorem handleStdout_framing (st : Client) (c1 c2 : list Byte.byte)
  (lines : list text) (rest : text) :
  ends_between_characters c1 = true ->
  forallb no_LF lines = true ->
  no_LF rest = true ->
  handleStdout parse c2 (handleStdout parse c1 st) = handleStdout parse (c1 ++ c2) st
  /\ handleText parse (concat (map (fun l => l ++ [LF]) lines) ++ rest) (set_buffer [] st)
     = set_buffer rest (fold_left (handleLine parse) lines st)
  /\ (forall l, trim l = [] -> handleLine parse st l = st)
  /\ (forall l, trim l <> [] -> parse (trim l) = None ->
        handleLine parse st l = log ERROR "Failed to parse response" st)
  /\ (forall a b, no_LF (a ++ b) = true ->
        handleText parse (b ++ [LF]) (handleText parse a (set_buffer [] st))
        = set_buffer [] (handleLine parse st (a ++ b))).
Proof.
  intros Hcut Hlines Hrest. repeat split.
  - unfold handleStdout. rewrite handleText_app, toString_app by exact Hcut.
    reflexivity.
  - unfold handleText.
    change (buffer (set_buffer [] st)) with (@nil N). rewrite app_nil_l.
    rewrite split_lines by assumption.
    rewrite last_last, removelast_last.
    rewrite !handleLines_set_buffer. reflexivity.
  - intros l Hl. unfold handleLine. rewrite Hl. reflexivity.
  - intros l Hl Hparse. unfold handleLine. rewrite Hparse.
    destruct (trim l); [contradiction | reflexivity].
  - intros a b Hab. rewrite handleText_app. unfold handleText.
    change (buffer (set_buffer [] st)) with (@nil N).
    rewrite app_nil_l, app_assoc.
    rewrite split_line by assumption. cbn [split List.last removelast fold_left].
    rewrite !handleLine_set_buffer. reflexivity.
Qed.

End Framing.

(** The answer to request 2 cut between two ASCII characters. *)
Lemma handleStdout_framing_witness :
  Props.ends_between_characters Samples.tools_head = true
  /\ MCPClient.handleStdout Samples.parse Samples.tools_tail
       (MCPClient.handleStdout Samples.parse Samples.tools_head Samples.calling)
     = MCPClient.handleStdout Samples.parse (Samples.tools_head ++ Samples.tools_tail)
         Samples.calling.
Proof.
  assert (Hcut : Props.ends_between_characters Samples.tools_head = true)
    by (vm_compute; reflexivity).
  split; [exact Hcut|].
  exact (proj1 (handleStdout_framing Samples.parse Samples.calling
                  Samples.tools_head Samples.tools_tail [] [] Hcut eq_refl eq_refl)).
Defined.

(** C6 (the code at the failing input).  The answer to request 2 holds the
    word cafe written with U+00E9, and the stream is cut between the two
    bytes of that character.  [handleStdout] decodes each chunk on its own,
    both halves become U+FFFD, and the waiter receives another value than
    when the same bytes arrive in one chunk: framing depends on the chunk
    boundary. *)
Lemma handleStdout_chunk_dependent :
  Props.ends_between_characters Samples.cafe_head = false
  /\ MCPClient.handleStdout Samples.parse Samples.cafe_tail
    (MCPClient.handleStdout Samples.parse Samples.cafe_head Samples.calling)
  <> MCPClient.handleStdout Samples.parse (Samples.cafe_head ++ Samples.cafe_tail)
       Samples.calling
  /\ MCPClient.outcome 3
       (MCPClient.handleStdout Samples.parse (Samples.cafe_head ++ Samples.cafe_tail)
          Samples.calling)
     = Some (MCPClient.Resolved
               (Samples.response 2 (JS.JStr (Samples.utf8 "caf" [Byte.xc3; Byte.xa9]))))
  /\ MCPClient.outcome 3
       (MCPClient.handleStdout Samples.parse Samples.cafe_tail
          (MCPClient.handleStdout Samples.parse Samples.cafe_head Samples.calling))
     = Some (MCPClient.Resolved
               (Samples.response 2
                  (JS.JStr (Samples.utf8 "caf" [Byte.xef; Byte.xbf; Byte.xbd;
                                                Byte.xef; Byte.xbf; Byte.xbd])))).
Proof.
  split; [vm_compute; reflexivity|].
  split; [|split; vm_compute; reflexivity].
  intros H. apply (f_equal (MCPClient.outcome 3)) in H.
  vm_compute in H. discriminate H.
Qed.

(* ===================================================================== *)
(** * Dispatch of incoming messages *)
(* ===================================================================== *)

Section Dispatch.
Import JS MCPClient.

Lemma calls_on_app (p : Promise) (es es' : list Effect) :
  calls_on p (es ++ es') = calls_on p es ++ calls_on p es'.
Proof.
  induction es as [|e es IH]; [reflexivity|].
  destruct e; simpl; try exact IH.
  destruct (Nat.eqb p0 p); simpl; rewrite IH; reflexivity.
Qed.

(** C5 (amended).  A message whose [id] matches no entry of the pending
    table (a late response after a timeout is one) resolves or rejects no
    waiter and leaves the table as it is.  It is logged at debug level; if
    it has no truthy [method] field nothing else happens, and if it has one
    it is emitted on the notification signal. *)
Theorem handleResponse_unmatched (st : Client) (response idv : JSValue) :
  get_prop response "id" = Some idv ->
  find_pending idv st = None ->
  let st' := fst (handleResponse response st) in
  snd (handleResponse response st) = false
  /\ pendingRequests st' = pendingRequests st
  /\ (forall p, calls_on p (effects st') = calls_on p (effects st))
  /\ st' = if truthy (get_prop_opt response "method")
           then emit (EEmitNotification response)
                  (log DEBUG "Received notification"
                     (log DEBUG "Received response" st))
           else log DEBUG "Received response" st.
Proof.
  intros Hid Hnone. unfold handleResponse. rewrite Hid.
  replace (if truthy idv then find_pending idv (log DEBUG "Received response" st)
           else None) with (@None (Z * Promise))
    by (destruct (truthy idv); [symmetry; exact Hnone | reflexivity]).
  destruct (truthy (get_prop_opt response "method")); cbn;
    repeat split; intros; rewrite ?calls_on_app; cbn; rewrite ?app_nil_r;
    reflexivity.
Qed.

End Dispatch.

(** The answer to request 2 arriving after the request timed out. *)
Lemma handleResponse_unmatched_witness :
  MCPClient.find_pending (JS.JNum 2) Samples.timed_out = None
  /\ MCPClient.pendingRequests
       (fst (MCPClient.handleResponse (Samples.response 2 (JS.JStr "late"))
               Samples.timed_out))
     = MCPClient.pendingRequests Samples.timed_out.
Proof.
  assert (Hnone : MCPClient.find_pending (JS.JNum 2) Samples.timed_out = None)
    by (vm_compute; reflexivity).
  split; [exact Hnone|].
  exact (proj1 (proj2 (handleResponse_unmatched Samples.timed_out
                         (Samples.response 2 (JS.JStr "late")) (JS.JNum 2)
                         eq_refl Hnone))).
Defined.

(** C5 (as stated) fails.  No request with id 7 is pending and the child sends
    a message with that id and a method: it is not discarded but emitted on
    the notification signal. *)
Lemma handleResponse_unmatched_emits :
  MCPClient.find_pending (JS.JNum 7) Samples.ready = None
  /\ MCPClient.effects (fst (MCPClient.handleResponse Samples.ping Samples.ready))
     = MCPClient.effects Samples.ready
       ++ [MCPClient.ELog MCPClient.DEBUG "Received response";
           MCPClient.ELog MCPClient.DEBUG "Received notification";
           MCPClient.EEmitNotification Samples.ping].
Proof. split; vm_compute; reflexivity. Qed.

(* ===================================================================== *)
(** * Results of the list verbs *)
(* ===================================================================== *)

Section Lists.
Import JS MCPClient.

Lemma or_else_falsy (v d : JSValue) : truthy v = false -> or_else v d = d.
Proof. unfold or_else. intros ->. reflexivity. Qed.

Lemma or_else_array (v d : JSValue) : is_array v = true -> or_else v d = v.
Proof. destruct v; try discriminate. reflexivity. Qed.

(** C10 (amended).  For a request that was answered (the response is an
    object), [listTools] and [listResources] never fail.  They return the
    empty list when [result] is absent or null or has no (or a falsy)
    [tools] / [resources] field, and otherwise the value of that field as it
    is: a list whenever the server sent a list. *)
Theorem list_return_value (field : string) (fields : list (string * JSValue)) :
  let result := lookup_field "result" fields in
  let listed := get_prop_opt result field in
  list_return field (Resolved (JObj fields))
  = Resolved (if truthy listed then listed else JArr [])
  /\ (result = JUndefined \/ result = JNull \/ truthy listed = false ->
      list_return field (Resolved (JObj fields)) = Resolved (JArr []))
  /\ (is_array listed = true ->
      list_return field (Resolved (JObj fields)) = Resolved listed)
  /\ listTools_return = list_return "tools"
  /\ listResources_return = list_return "resources".
Proof.
  cbn zeta. repeat split.
  - intros [H | [H | H]].
    + unfold list_return. cbn. rewrite H. reflexivity.
    + unfold list_return. cbn. rewrite H. reflexivity.
    + unfold list_return. cbn. rewrite or_else_falsy by exact H. reflexivity.
  - intros H. unfold list_return. cbn. rewrite or_else_array by exact H.
    reflexivity.
Qed.

End Lists.

(** An answer whose result is null. *)
Lemma list_return_value_witness :
  MCPClient.list_return "tools" (MCPClient.Resolved (Samples.response 2 JS.JNull))
  = MCPClient.Resolved (JS.JArr []).
Proof.
  apply (list_return_value "tools"
           [("jsonrpc", JS.JStr "2.0"); ("id", JS.JNum 2); ("result", JS.JNull)]).
  right; left. reflexivity.
Defined.

(** C10 (as stated) fails.  The server answers tools/list with a [tools] field
    that is a string: [listTools] returns that string, which is not a list. *)
Lemma listTools_returns_non_list :
  MCPClient.listTools_return
    (MCPClient.Resolved (Samples.response 2 (JS.JObj [("tools", JS.JStr "none")])))
  = MCPClient.Resolved (JS.JStr "none")
  /\ JS.is_array (JS.JStr "none") = false.
Proof. split; reflexivity. Qed.

(* ===================================================================== *)
(** * Manager *)
(* ===================================================================== *)

Section Manager.
Import JS MCPManager Props.

Variable call : MCPClient.Client -> MCPClient.Outcome.

(** An assignment and the properties of other names than [__proto__]. *)
Lemma own_set_property {A} `{ProtoValue A} (key n : string) (v : A)
  (obj : PlainObject A) :
  n <> "__proto__" ->
  own (set_property key v obj) !! n
  = if decide (n = key) then Some v else own obj !! n.
Proof.
  intros Hn. unfold set_property.
  destruct (String.eqb_spec key "__proto__") as [-> | Hkey]; cbn [negb].
  - rewrite decide_False by exact Hn.
    destruct (_ || _); [cbn; apply lookup_insert_ne; congruence|].
    destruct (as_prototype v); reflexivity.
  - cbn [own]. destruct (decide (n = key)) as [-> | Hne].
    + apply lookup_insert_eq.
    + apply lookup_insert_ne. congruence.
Qed.

(** An assignment to another name leaves what [__proto__] is as it was. *)
Lemma proto_set_property {A} `{ProtoValue A} (key : string) (v : A)
  (obj : PlainObject A) :
  key <> "__proto__" ->
  own (set_property key v obj) !! "__proto__" = own obj !! "__proto__"
  /\ proto (set_property key v obj) = proto obj.
Proof.
  intros Hkey. unfold set_property.
  destruct (String.eqb_spec key "__proto__") as [|_]; [contradiction|].
  cbn. split; [apply lookup_insert_ne; exact Hkey | reflexivity].
Qed.

Lemma last_visit_snoc (visited : list (string * MCPClient.Client))
  (entry : string * MCPClient.Client) (n : string) :
  last_visit (visited ++ [entry]) n
  = if decide (n = fst entry) then Some (snd entry) else last_visit visited n.
Proof.
  unfold last_visit. rewrite rev_app_distr. cbn [rev app].
  destruct entry as [k c]. rewrite list_to_map_cons. cbn [fst snd].
  destruct (decide (n = k)) as [-> | Hne].
  - apply lookup_insert_eq.
  - apply lookup_insert_ne. congruence.
Qed.

(** A map that is not changed while the loop runs: the loop sees every
    client once. *)
Lemma last_visit_unchanged (visited : list (string * MCPClient.Client))
  (cs : gmap string MCPClient.Client) (n : string) :
  visited ≡ₚ map_to_list cs -> last_visit visited n = cs !! n.
Proof.
  intros Hperm. unfold last_visit.
  rewrite <- (list_to_map_proper (M := gmap string) (map_to_list cs) (rev visited)).
  - rewrite list_to_map_to_list. reflexivity.
  - apply NoDup_fst_map_to_list.
  - rewrite <- Hperm. apply Permutation_rev.
Qed.

Lemma own_store_listed (entry : string * MCPClient.Client) (all : PlainObject JSValue)
  (n : string) :
  n <> "__proto__" ->
  own (store_listed call entry all) !! n
  = if decide (n = fst entry) then Some (listed (call (snd entry))) else own all !! n.
Proof.
  intros Hn. unfold store_listed, listed.
  destruct (call (snd entry)) as [v | e].
  - cbv zeta. destruct (length_text_throws v).
    + rewrite !own_set_property by exact Hn.
      destruct (decide (n = fst entry)); reflexivity.
    + apply own_set_property, Hn.
  - apply own_set_property, Hn.
Qed.

Lemma proto_store_listed (entry : string * MCPClient.Client) (all : PlainObject JSValue) :
  fst entry <> "__proto__" ->
  own (store_listed call entry all) !! "__proto__" = own all !! "__proto__"
  /\ proto (store_listed call entry all) = proto all.
Proof.
  intros Hk. unfold store_listed.
  destruct (call (snd entry)) as [v | e]; [|apply proto_set_property, Hk].
  cbv zeta.
  destruct (proto_set_property (fst entry) v all Hk) as [Ho Hp].
  destruct (length_text_throws v); [|auto].
  destruct (proto_set_property (fst entry) (JArr []) (set_property (fst entry) v all) Hk)
    as [Ho' Hp'].
  split; congruence.
Qed.

(** An assignment to [__proto__] that reaches the accessor, and one that
    does not. *)
Lemma set_proto_setter {A} `{ProtoValue A} (v : A) (obj : PlainObject A) :
  own obj !! "__proto__" = None ->
  match proto obj with Some p => hides_setter p | None => false end = false ->
  set_property "__proto__" v obj
  = if as_prototype v then {| own := own obj; proto := Some v |} else obj.
Proof.
  intros Ho Hp. unfold set_property.
  change (negb (String.eqb "__proto__" "__proto__")) with false. cbv iota.
  rewrite Ho, Hp. reflexivity.
Qed.

Lemma set_proto_own {A} `{ProtoValue A} (v p : A) (obj : PlainObject A) :
  proto obj = Some p ->
  hides_setter p = true ->
  set_property "__proto__" v obj
  = {| own := <["__proto__" := v]> (own obj); proto := proto obj |}.
Proof.
  intros Hp Hh. unfold set_property.
  change (negb (String.eqb "__proto__" "__proto__")) with false. cbv iota.
  rewrite Hp, Hh, orb_true_r. reflexivity.
Qed.

(** The one visit of the server named [__proto__]. *)
Lemma store_listed_proto (client : MCPClient.Client) (all : PlainObject JSValue) :
  own all !! "__proto__" = None ->
  proto all = None ->
  own (store_listed call ("__proto__", client) all) !! "__proto__"
  = proto_entry call (Some client).
Proof.
  intros Ho Hp.
  assert (Hp' : match proto all with Some p => hides_setter p | None => false end
                = false) by (rewrite Hp; reflexivity).
  unfold store_listed, proto_entry. cbn [fst snd].
  destruct (call client) as [v | e].
  - cbv zeta. rewrite (set_proto_setter v all Ho Hp').
    destruct (length_text_throws v); cbn [andb].
    + destruct (as_prototype v) eqn:Hv.
      * destruct (hides_setter v) eqn:Hh.
        -- rewrite (set_proto_own (JArr []) v); [|reflexivity | exact Hh].
           cbn [own]. apply lookup_insert_eq.
        -- rewrite set_proto_setter; [exact Ho | exact Ho |].
           cbn [proto]. exact Hh.
      * assert (Hh : hides_setter v = false) by (destruct v; try reflexivity; discriminate Hv).
        rewrite Hh. rewrite (set_proto_setter (JArr []) all Ho Hp'). exact Ho.
    + destruct (as_prototype v); exact Ho.
  - rewrite (set_proto_setter (JArr []) all Ho Hp'). exact Ho.
Qed.

Lemma list_loop_ok (visited : list (string * MCPClient.Client))
  (all : PlainObject JSValue) :
  fold_left (list_entry call) visited (Ok all)
  = Ok (fold_left (fun all entry => store_listed call entry all) visited all).
Proof.
  revert all. induction visited as [|entry visited IH]; intros all; [reflexivity|].
  cbn [fold_left list_entry bind]. apply IH.
Qed.

(** The entries of the names other than [__proto__]. *)
Lemma list_loop_own (visited : list (string * MCPClient.Client)) (n : string) :
  n <> "__proto__" ->
  own (fold_left (fun all entry => store_listed call entry all) visited empty_object)
  !! n
  = (fun client => listed (call client)) <$> last_visit visited n.
Proof.
  intros Hn. induction visited as [|entry visited IH] using rev_ind.
  - unfold last_visit. cbn. rewrite !lookup_empty. reflexivity.
  - rewrite fold_left_app. cbn [fold_left].
    rewrite own_store_listed by exact Hn. rewrite last_visit_snoc.
    destruct (decide (n = fst entry)); [reflexivity | exact IH].
Qed.

(** What [__proto__] is when every name is visited once. *)
Lemma list_loop_proto (visited : list (string * MCPClient.Client)) :
  NoDup (visited.*1) ->
  let all := fold_left (fun all entry => store_listed call entry all) visited
               empty_object in
  match last_visit visited "__proto__" with
  | Some client => own all !! "__proto__" = proto_entry call (Some client)
  | None => own all !! "__proto__" = None /\ proto all = None
  end.
Proof.
  induction visited as [|[k c] visited IH] using rev_ind; intros Hnd.
  - cbn. unfold last_visit. cbn. rewrite !lookup_empty. auto.
  - rewrite fmap_app in Hnd. apply NoDup_app in Hnd as (Hnd & Hfresh & _).
    specialize (IH Hnd). cbv zeta in IH |- *.
    rewrite fold_left_app. cbn [fold_left]. rewrite last_visit_snoc. cbn [fst snd].
    destruct (decide ("__proto__" = k)) as [<- | Hne].
    + assert (Hnone : last_visit visited "__proto__" = None).
      { unfold last_visit. apply not_elem_of_list_to_map_1.
        intros Hin. apply list_elem_of_fmap in Hin as (e & He & Hin).
        apply list_elem_of_In, in_rev, list_elem_of_In in Hin.
        apply (Hfresh "__proto__"); [|cbn; left].
        apply list_elem_of_fmap. exists e. auto. }
      rewrite Hnone in IH. destruct IH as [Ho Hp].
      apply store_listed_proto; assumption.
    + assert (Hk : fst (k, c) <> "__proto__") by (cbn; congruence).
      destruct (proto_store_listed (k, c)
                  (fold_left (fun all entry => store_listed call entry all) visited
                     empty_object) Hk) as [Ho Hp].
      rewrite Ho, Hp. exact IH.
Qed.

(** The loop as a whole. *)
Lemma list_all_spec (visited : list (string * MCPClient.Client)) (m : Manager) :
  exists all,
    fold_left (list_entry call) visited (Ok empty_object) = Ok all
    /\ (forall n, n <> "__proto__" ->
          own all !! n = (fun client => listed (call client)) <$> last_visit visited n)
    /\ (visited ≡ₚ map_to_list (clients m) ->
        (forall n, n <> "__proto__" ->
           own all !! n = (fun client => listed (call client)) <$> clients m !! n)
        /\ own all !! "__proto__" = proto_entry call (clients m !! "__proto__")).
Proof.
  eexists. split; [apply list_loop_ok|]. split.
  - intros n Hn. apply list_loop_own, Hn.
  - intros Hperm. split.
    + intros n Hn. rewrite list_loop_own by exact Hn.
      rewrite (last_visit_unchanged visited (clients m) n Hperm). reflexivity.
    + assert (Hnd : NoDup (visited.*1)).
      { rewrite Hperm. apply NoDup_fst_map_to_list. }
      pose proof (list_loop_proto visited Hnd) as H. cbv zeta in H.
      rewrite (last_visit_unchanged visited (clients m) _ Hperm) in H.
      destruct (clients m !! "__proto__"); [exact H | apply H].
Qed.

End Manager.



(** C8.  For a name in [this.clients], [disconnectServer] finds the client,
    and when it goes on after [client.disconnect()], in whatever state the
    manager is then and whether the call returned or threw, it ends with the
    name absent from [this.clients], throwing the same error again in the
    second case.  For a name that is not there it throws the not-connected
    error and leaves the manager as it is. *)
Theorem disconnectServer_removes (serverName : string) (m : MCPManager.Manager) :
  match MCPManager.clients m !! serverName with
  | Some client =>
      MCPManager.disconnectServer serverName m = (m, MCPManager.Ok client)
      /\ forall (disconnected : MCPManager.Result unit) (m' : MCPManager.Manager),
           let after := MCPManager.disconnectServer_resume serverName disconnected m' in
           MCPManager.clients (fst after) !! serverName = None
           /\ MCPManager.configs (fst after) = MCPManager.configs m'
           /\ (forall other, other <> serverName ->
                 MCPManager.clients (fst after) !! other = MCPManager.clients m' !! other)
           /\ snd after = match disconnected with
                          | MCPManager.Ok _ => MCPManager.Ok tt
                          | MCPManager.Throw e => MCPManager.Throw e
                          end
  | None =>
      MCPManager.disconnectServer serverName m
      = (m, MCPManager.Throw (MCPManager.ErrNotConnected serverName))
  end.
Proof.
  unfold MCPManager.disconnectServer.
  destruct (MCPManager.clients m !! serverName) as [client|]; [|reflexivity].
  split; [reflexivity|]. intros disconnected m'.
  destruct disconnected; cbn; repeat split;
    try apply lookup_delete_eq; intros; apply lookup_delete_ne; congruence.
Qed.

(** C9.  For a name in [this.clients], [connectServer] returns the
    already-connected value without creating a client or calling [connect],
    and leaves [this.clients] and [this.configs] as they are; so it does after
    a connect that succeeded. *)
Theorem connectServer_already (serverName : string)
  (customConfig : MCPManager.CustomConfig) (m : MCPManager.Manager)
  (client : MCPClient.Client) :
  MCPManager.clients m !! serverName = Some client ->
  MCPManager.connectServer serverName customConfig m = (m, MCPManager.AlreadyConnected)
  /\ forall (m0 : MCPManager.Manager) (connected : MCPClient.Client),
       let m1 := fst (MCPManager.connectServer_resume serverName (inl connected) m0) in
       MCPManager.connectServer serverName customConfig m1
       = (m1, MCPManager.AlreadyConnected).
Proof.
  intros Hin. split.
  - unfold MCPManager.connectServer. rewrite Hin. reflexivity.
  - intros m0 connected. unfold MCPManager.connectServer. cbn.
    rewrite lookup_insert_eq. reflexivity.
Qed.

(** Connecting the filesystem server a second time. *)
Lemma connectServer_already_witness :
  MCPManager.clients Samples.connected !! "filesystem" = Some Samples.ready
  /\ MCPManager.connectServer "filesystem" MCPManager.noCustomConfig Samples.connected
     = (Samples.connected, MCPManager.AlreadyConnected).
Proof.
  assert (Hin : MCPManager.clients Samples.connected !! "filesystem"
                = Some Samples.ready) by (vm_compute; reflexivity).
  split; [exact Hin|].
  exact (proj1 (connectServer_already "filesystem" MCPManager.noCustomConfig
                  Samples.connected Samples.ready Hin)).
Defined.

(* ===================================================================== *)
(** * Teardown *)
(* ===================================================================== *)

Section Teardown.
Import JS MCPClient Props.

Lemma process_cleanup (st : Client) : process (cleanup st) = false.
Proof. unfold cleanup. destruct (process st) eqn:H; cbn; [reflexivity | exact H]. Qed.

(** Once [cleanup] has run, the forced kill it scheduled finds
    [this.process] null and does nothing. *)
Lemma force_kill_after_cleanup (st : Client) :
  timer_callback TForceKill (cleanup st) = cleanup st.
Proof.
  cbn [timer_callback]. unfold force_kill. rewrite process_cleanup. reflexivity.
Qed.

End Teardown.

(** C3 (the code at the failing input).  The child of a ready connection
    neither answers nor exits.  [disconnect] reaches [cleanup], which sends
    SIGTERM and schedules the forced kill 5000 ms later; when that timer fires
    with the child still running, nothing is sent: the child has received
    SIGTERM only. *)
Lemma force_kill_never_fires :
  In MCPClient.TForceKill (MCPClient.timers Samples.torn_down)
  /\ MCPClient.delay MCPClient.TForceKill = 5000
  /\ MCPClient.child Samples.torn_down
     = Some {| MCPClient.pid := 4242; MCPClient.stdin := true;
               MCPClient.stdout := true; MCPClient.stderr := true;
               MCPClient.killed := true; MCPClient.exited := false;
               MCPClient.signals := [MCPClient.SIGTERM] |}
  /\ MCPClient.child
       (MCPClient.step Samples.parse Samples.torn_down
          (MCPClient.TimerFired MCPClient.TForceKill))
     = MCPClient.child Samples.torn_down
  /\ MCPClient.effects
       (MCPClient.step Samples.parse Samples.torn_down
          (MCPClient.TimerFired MCPClient.TForceKill))
     = MCPClient.effects Samples.torn_down.
Proof. vm_compute. repeat split; auto. Qed.

(* ===================================================================== *)
(** * The disconnected signal *)
(* ===================================================================== *)

Section Disconnected.
Import JS MCPClient Props.

Variable parse : text -> option JSValue.

Lemma count_effects (st : Client) (es : list Effect) (rest : Client) :
  effects rest = effects st ++ es ->
  disconnected_count rest
  = (disconnected_count st + length (List.filter is_disconnected es))%nat.
Proof.
  intros H. unfold disconnected_count. rewrite H, List.filter_app, length_app.
  reflexivity.
Qed.

Ltac count_effects es :=
  match goal with
  | |- disconnected_count ?rest = _ =>
      rewrite (count_effects _ es rest) by (cbn; rewrite <- ?app_assoc; reflexivity);
      cbn; lia
  end.

Lemma count_kill (sig : Signal) (st : Client) :
  disconnected_count (kill sig st) = disconnected_count st.
Proof.
  unfold kill. destruct (child st) as [c|].
  - destruct (exited c).
    + count_effects [EKill sig false].
    + count_effects [EKill sig true].
  - count_effects [EKill sig false].
Qed.

Lemma count_rejected (st : Client) (entries : list (Z * Promise)) :
  List.filter is_disconnected (map (reject_closed st) entries) = [].
Proof. induction entries as [|entry entries IH]; [reflexivity | exact IH]. Qed.

(** Every run of [cleanup] emits the signal once. *)
Lemma count_cleanup (st : Client) :
  disconnected_count (cleanup st) = S (disconnected_count st).
Proof.
  unfold cleanup. unfold disconnected_count at 1.
  cbn [emit set_effects set_initialized set_pendingRequests effects pendingRequests].
  rewrite !List.filter_app, !length_app, count_rejected. cbn.
  destruct (process st).
  - change (length (List.filter is_disconnected
              (effects (set_process false (setTimeout TForceKill (kill SIGTERM st))))))
      with (disconnected_count (kill SIGTERM st)).
    rewrite count_kill. lia.
  - fold (disconnected_count st). lia.
Qed.

Lemma count_sendRequest (r : Request) (st : Client) :
  disconnected_count (snd (sendRequest r st)) = disconnected_count st.
Proof.
  unfold sendRequest, new_promise.
  destruct (negb (has_stdin _)); cbn [snd].
  - count_effects [ESettle (nextPromise st) (Rejected (ErrNoStdin (serverName st)))].
  - count_effects [ELog DEBUG "Sending request"; EWriteRequest (nextPromise st) r].
Qed.

Ltac count_auto :=
  unfold disconnected_count; cbn;
  rewrite ?List.filter_app, ?length_app; cbn; lia.

Lemma count_sendNotification (method : string) (st : Client) :
  disconnected_count (snd (sendNotification method st)) = disconnected_count st.
Proof.
  unfold sendNotification, new_promise.
  destruct (negb (has_stdin _)); count_auto.
Qed.

Lemma count_write_callback (w : Write) (ok : bool) (st : Client) :
  disconnected_count (write_callback w ok st) = disconnected_count st.
Proof. destruct w, ok; count_auto. Qed.

Lemma count_timer_callback (t : Timer) (st : Client) :
  disconnected_count (timer_callback t st) = disconnected_count st.
Proof.
  destruct t as [id p|]; cbn [timer_callback].
  - destruct (pendingRequests st !! id); count_auto.
  - unfold force_kill. destruct (_ && _); [|reflexivity].
    rewrite count_kill. count_auto.
Qed.

Lemma count_handleResponse (response : JSValue) (st : Client) :
  disconnected_count (fst (handleResponse response st)) = disconnected_count st.
Proof.
  unfold handleResponse.
  destruct (get_prop response "id") as [idv|]; [|count_auto].
  destruct (if truthy idv then _ else _) as [[id p]|].
  - destruct (truthy _); count_auto.
  - destruct (truthy _); count_auto.
Qed.

Lemma count_handleLine (st : Client) (line : text) :
  disconnected_count (handleLine parse st line) = disconnected_count st.
Proof.
  unfold handleLine. destruct (nonempty _); [|reflexivity].
  destruct (parse _) as [response|]; [|count_auto].
  pose proof (count_handleResponse response st) as H.
  destruct (handleResponse response st) as [st' threw]. cbn [fst] in H.
  destruct threw; [|exact H]. rewrite <- H. count_auto.
Qed.

Lemma count_handleText (chunk : text) (st : Client) :
  disconnected_count (handleText parse chunk st) = disconnected_count st.
Proof.
  unfold handleText.
  assert (H : forall lines st0,
             disconnected_count (fold_left (handleLine parse) lines st0)
             = disconnected_count st0).
  { induction lines as [|l lines IH]; intros st0; [reflexivity|].
    cbn [fold_left]. rewrite IH. apply count_handleLine. }
  rewrite H. reflexivity.
Qed.

Lemma count_request (k : Cont) (method : string) (params : JSValue) (st : Client) :
  disconnected_count (request k method params st) = disconnected_count st.
Proof.
  unfold request. cbn [getNextRequestId].
  pose proof (count_sendRequest
                {| req_id := requestId st; req_method := method; req_params := params |}
                (set_requestId (requestId st + 1) st)) as H.
  destruct (sendRequest _ _) as [p st']. cbn [snd] in H. exact H.
Qed.

Lemma count_when_initialized (body : Client -> Client) (st : Client) :
  (forall st0, disconnected_count (body st0) = disconnected_count st0) ->
  disconnected_count (when_initialized body st) = disconnected_count st.
Proof.
  intros H. unfold when_initialized. destruct (negb (initialized st)); [count_auto|].
  apply H.
Qed.

Lemma count_disconnect (st : Client) :
  disconnected_count (disconnect st)
  = (disconnected_count st + if negb (initialized st) then 1 else 0)%nat.
Proof.
  unfold disconnect. destruct (initialized st); cbn [negb].
  - rewrite count_request. lia.
  - rewrite count_cleanup. lia.
Qed.

Lemma count_resume_with (k : Cont) (p : Promise) (o : Outcome) (st : Client) :
  disconnected_count (resume_with k p o st)
  = (disconnected_count st
     + match k with KDisconnect => 1 | _ => 0 end)%nat.
Proof.
  destruct k; cbn [resume_with]; try count_auto.
  - destruct o; [|count_auto].
    pose proof (count_sendNotification "notifications/initialized" st) as H.
    destruct (sendNotification _ _) as [q st']. cbn [snd] in H.
    change (disconnected_count (await q (KInitialized connecting) st'))
      with (disconnected_count st'). lia.
  - destruct o; count_auto.
  - rewrite count_cleanup. destruct o; count_auto.
Qed.

(** A step emits the signal once if it runs [cleanup], and not at all
    otherwise. *)
Lemma count_step (st : Client) (ev : Event) :
  disconnected_count (step parse st ev)
  = (disconnected_count st + if runs_cleanup st ev then 1 else 0)%nat.
Proof.
  destruct ev; cbn [step runs_cleanup].
  - unfold listTools. rewrite count_when_initialized by apply count_request. lia.
  - unfold callTool. rewrite count_when_initialized; [lia|].
    intros st0. rewrite count_request. count_auto.
  - unfold listResources. rewrite count_when_initialized by apply count_request. lia.
  - unfold readResource. rewrite count_when_initialized by apply count_request. lia.
  - apply count_disconnect.
  - unfold resume. destruct (awaiting st !! p) as [k|]; [|lia].
    destruct (outcome p st) as [o|]; [|destruct k; lia].
    rewrite count_resume_with.
    change (disconnected_count (set_awaiting _ st)) with (disconnected_count st).
    destruct k; lia.
  - destruct (handlers st); [|lia]. unfold handleStdout.
    rewrite count_handleText. lia.
  - destruct (handlers st); count_auto.
  - destruct (take_out _ _ _) as [rest|]; [|lia].
    rewrite count_write_callback. count_auto.
  - destruct (take_out _ _ _) as [rest|]; [|lia].
    rewrite count_timer_callback. count_auto.
  - unfold on_exit. destruct (handlers st); [|lia].
    destruct (child st) as [c|]; [|lia].
    destruct (exited c); cbn [negb]; [lia|].
    rewrite count_cleanup. count_auto.
  - unfold on_error. destruct (handlers st); count_auto.
Qed.

(** C2 (amended).  The disconnected signal is emitted once by every run of
    [cleanup] and by nothing else.  [cleanup] runs when the child exits and
    whenever a [disconnect()] call reaches it, so over any sequence of events
    the signal has been emitted as often as such events occurred: once when
    the child just exits, twice when [disconnect()] tears the connection down
    and the child exits after it. *)
Theorem disconnected_emissions (st : Client) (evs : list Event) :
  disconnected_count (run parse st evs)
  = (disconnected_count st + cleanups parse st evs)%nat
  /\ disconnected_count (cleanup st) = S (disconnected_count st).
Proof.
  split; [|apply count_cleanup].
  revert st. induction evs as [|ev evs IH]; intros st.
  - cbn. lia.
  - cbn [run fold_left cleanups]. fold (run parse (step parse st ev) evs).
    rewrite IH, count_step. lia.
Qed.

End Disconnected.

(** C2 (as stated) fails.  [disconnect()] on a ready connection reaches
    [cleanup], which emits the signal and sends SIGTERM; the child exits, the
    exit handler runs [cleanup] again and the signal is emitted a second
    time. *)
Lemma disconnected_emitted_twice :
  Props.disconnected_count Samples.ready = 0%nat
  /\ Props.disconnected_count Samples.torn_down = 1%nat
  /\ Props.disconnected_count
       (MCPClient.run Samples.parse Samples.torn_down [MCPClient.Exit]) = 2%nat.
Proof. vm_compute. repeat split; reflexivity. Qed.

(* ===================================================================== *)
(** * Requests and their waiters *)
(* ===================================================================== *)

Section Requests.
Import JS MCPClient Props.

Variable parse : text -> option JSValue.

Lemma issued_in_app (id : Z) (p : Promise) (es es' : list Effect) :
  issued_in id p (es ++ es') = issued_in id p es || issued_in id p es'.
Proof. apply existsb_app. Qed.

Lemma timer_eqb_eq (a b : Timer) : timer_eqb a b = true <-> a = b.
Proof.
  destruct a as [i p|], b as [j q|]; cbn; split; try congruence; try reflexivity.
  - intros H. apply andb_prop in H as [Hi Hp].
    apply Z.eqb_eq in Hi. apply Nat.eqb_eq in Hp. congruence.
  - intros [= -> ->]. rewrite Z.eqb_refl, Nat.eqb_refl. reflexivity.
Qed.

Lemma write_eqb_eq (a b : Write) : write_eqb a b = true <-> a = b.
Proof.
  destruct a as [i p|p], b as [j q|q]; cbn; split; try congruence.
  - intros H. apply andb_prop in H as [Hi Hp].
    apply Z.eqb_eq in Hi. apply Nat.eqb_eq in Hp. congruence.
  - intros [= -> ->]. rewrite Z.eqb_refl, Nat.eqb_refl. reflexivity.
  - intros H. apply Nat.eqb_eq in H. congruence.
  - intros [= ->]. apply Nat.eqb_refl.
Qed.

Lemma armed_In (id : Z) (p : Promise) (st : Client) :
  armed id p st = true <-> In (TRequest id p) (timers st).
Proof.
  unfold armed. rewrite existsb_exists. split.
  - intros (t & Hin & Heq). apply timer_eqb_eq in Heq. subst t. exact Hin.
  - intros Hin. exists (TRequest id p). split; [exact Hin | apply timer_eqb_eq; reflexivity].
Qed.

(** What [take_out] leaves is what was there, and everything else is still
    there. *)
Lemma take_out_In {A} (eqb : A -> A -> bool) (x : A) (l rest : list A) :
  (forall a b, eqb a b = true <-> a = b) ->
  take_out eqb x l = Some rest ->
  In x l
  /\ (forall y, In y rest -> In y l)
  /\ (forall y, In y l -> y <> x -> In y rest).
Proof.
  intros Heqb. revert rest. induction l as [|y l IH]; intros rest H; [discriminate|].
  cbn in H. destruct (eqb x y) eqn:Hxy.
  - apply Heqb in Hxy. subst y. injection H as <-.
    repeat split; [left; reflexivity | intros; right; assumption |].
    intros z [<- | Hz] Hne; [contradiction | exact Hz].
  - destruct (take_out eqb x l) as [rest'|]; [|discriminate]. injection H as <-.
    destruct (IH rest' eq_refl) as (Hin & Hsub & Hkeep).
    repeat split; [right; exact Hin | |].
    + intros z [<- | Hz]; [left; reflexivity | right; apply Hsub, Hz].
    + intros z [<- | Hz] Hne; [left; reflexivity | right; apply Hkeep; assumption].
Qed.

Lemma issued_effects (id : Z) (p : Promise) (st st' : Client) (es : list Effect) :
  effects st' = effects st ++ es ->
  issued id p st' = issued id p st || issued_in id p es.
Proof. intros H. unfold issued. rewrite H. apply issued_in_app. Qed.

Lemma calls_effects (q : Promise) (st st' : Client) (es : list Effect) :
  effects st' = effects st ++ es ->
  calls_on q (effects st') = calls_on q (effects st) ++ calls_on q es.
Proof. intros H. rewrite H. apply calls_on_app. Qed.

(** A step that neither touches the pending table nor sends a request, and
    that settles at most promises that are not waiters of requests. *)
Lemma inv_frame (st st' : Client) (es : list Effect) :
  Inv st ->
  (nextPromise st <= nextPromise st')%nat ->
  requestId st <= requestId st' ->
  pendingRequests st' = pendingRequests st ->
  (forall t, In t (timers st') -> In t (timers st) \/ t = TForceKill) ->
  (forall id p, In (TRequest id p) (timers st) -> pendingRequests st !! id = Some p ->
                In (TRequest id p) (timers st')) ->
  (forall id p, In (WRequest id p) (writes st') -> In (WRequest id p) (writes st)) ->
  (forall c, known_foreign c st' ->
             known_foreign c st
             \/ ((c < nextPromise st')%nat /\ forall id, issued id c st = false)) ->
  effects st' = effects st ++ es ->
  (forall id p, issued_in id p es = false) ->
  (forall q, calls_on q es <> [] ->
             (q < nextPromise st')%nat /\ forall id, issued id q st = false) ->
  Inv st'.
Proof.
  intros I Hnp Hrid Hpend Htm Hkeep Hwr Hfor Hes Hiss Hcalls.
  assert (Hsame : forall id p, issued id p st' = issued id p st).
  { intros id p. rewrite (issued_effects id p st st' es Hes), Hiss.
    apply orb_false_r. }
  assert (Hquiet : forall id p, issued id p st = true -> calls_on p es = []).
  { intros id p Hp. destruct (calls_on p es) eqn:Hc; [reflexivity|].
    destruct (Hcalls p) as [_ Hno]; [rewrite Hc; discriminate|].
    rewrite Hno in Hp. discriminate. }
  constructor.
  - intros q Hq. rewrite (calls_effects q st st' es Hes).
    rewrite (inv_fresh st I q) by lia. cbn.
    destruct (calls_on q es) eqn:Hc; [reflexivity|].
    destruct (Hcalls q) as [Hlt _]; [rewrite Hc; discriminate | lia].
  - intros id p Hp. rewrite Hsame in Hp.
    destruct (inv_bound st I id p Hp). lia.
  - intros id p id' p'. rewrite !Hsame. apply (inv_inj st I).
  - intros id p Hp. rewrite Hsame. rewrite Hpend in Hp. apply (inv_pending st I id p Hp).
  - intros id p Hp. rewrite Hsame in Hp.
    destruct (inv_phase st I id p Hp) as [(Ht & Hc & Harm) | (Hn & Hc & Hcount & Hall)].
    + left. repeat split.
      * rewrite Hpend. exact Ht.
      * rewrite (calls_effects p st st' es Hes), Hc, (Hquiet id p Hp). reflexivity.
      * apply Hkeep; assumption.
    + right. unfold done, table_count.
      rewrite (calls_effects p st st' es Hes), (Hquiet id p Hp), app_nil_r, Hpend.
      repeat split; assumption.
  - intros id p Hin. rewrite Hsame. destruct (Htm _ Hin) as [Hold | Hbad].
    + apply (inv_timer st I id p Hold).
    + discriminate.
  - intros id p Hin. rewrite Hsame. apply (inv_write st I id p), Hwr, Hin.
  - intros c Hc. destruct (Hfor c Hc) as [Hold | Hnew].
    + destruct (inv_foreign st I c Hold) as [Hlt Hno]. split; [lia|].
      intros id. rewrite Hsame. apply Hno.
    + destruct Hnew as [Hlt Hno]. split; [exact Hlt|].
      intros id. rewrite Hsame. apply Hno.
Qed.

Lemma not_issued_new (st : Client) (c : Promise) :
  Inv st -> (nextPromise st <= c)%nat -> forall id, issued id c st = false.
Proof.
  intros I Hc id. destruct (issued id c st) eqn:Hi; [|reflexivity].
  destruct (inv_bound st I id c Hi). lia.
Qed.

(** [sendRequest] accepting a request with a new id and a new waiter. *)
Lemma inv_issue (st st' : Client) (id : Z) (p : Promise) (es : list Effect) :
  Inv st ->
  p = nextPromise st ->
  nextPromise st' = S p ->
  id < requestId st ->
  requestId st' = requestId st ->
  (forall q, issued id q st = false) ->
  pendingRequests st' = <[id := p]> (pendingRequests st) ->
  timers st' = timers st ++ [TRequest id p] ->
  writes st' = writes st ++ [WRequest id p] ->
  (forall c, known_foreign c st' -> known_foreign c st) ->
  effects st' = effects st ++ es ->
  (forall q, calls_on q es = []) ->
  (forall id' p', issued_in id' p' es = Nat.eqb p p' && (id =? id')) ->
  Inv st'.
Proof.
  intros I Hp Hnp Hid Hrid Hnew Hpend Htm Hwr Hfor Hes Hcalls Hiss.
  assert (Hsame : forall id' p', issued id' p' st'
                                 = issued id' p' st || (Nat.eqb p p' && (id =? id'))).
  { intros id' p'. rewrite (issued_effects id' p' st st' es Hes), Hiss. reflexivity. }
  assert (Hcs : forall q, calls_on q (effects st') = calls_on q (effects st)).
  { intros q. rewrite (calls_effects q st st' es Hes), Hcalls. apply app_nil_r. }
  assert (Hcase : forall id' p', issued id' p' st' = true ->
                    (issued id' p' st = true /\ id' <> id /\ p' <> p)
                    \/ (id' = id /\ p' = p)).
  { intros id' p' H. rewrite Hsame in H. apply orb_prop in H as [H | H].
    - left. split; [exact H|]. split.
      + intros ->. rewrite Hnew in H. discriminate.
      + intros ->. destruct (inv_bound st I id' (nextPromise st)) as [Hlt _]; [|lia].
        rewrite <- Hp. exact H.
    - right. apply andb_prop in H as [H1 H2].
      apply Nat.eqb_eq in H1. apply Z.eqb_eq in H2. split; congruence. }
  constructor.
  - intros q Hq. rewrite Hcs. apply (inv_fresh st I). lia.
  - intros id' p' H. destruct (Hcase id' p' H) as [(Hold & _ & _) | [-> ->]].
    + destruct (inv_bound st I id' p' Hold). lia.
    + lia.
  - intros i1 p1 i2 p2 H1 H2.
    destruct (Hcase i1 p1 H1) as [(O1 & Ni1 & Np1) | [-> ->]];
      destruct (Hcase i2 p2 H2) as [(O2 & Ni2 & Np2) | [-> ->]].
    + apply (inv_inj st I); assumption.
    + split; intros; congruence.
    + split; intros; congruence.
    + split; reflexivity.
  - intros id' p' H. rewrite Hpend in H. rewrite Hsame.
    destruct (decide (id = id')) as [<- | Hne].
    + rewrite lookup_insert_eq in H. injection H as <-.
      rewrite Nat.eqb_refl, Z.eqb_refl. apply orb_true_r.
    + rewrite lookup_insert_ne in H by exact Hne.
      rewrite (inv_pending st I id' p' H). reflexivity.
  - intros id' p' H. destruct (Hcase id' p' H) as [(Hold & Ni & Np) | [-> ->]].
    + destruct (inv_phase st I id' p' Hold) as [(Ht & Hc & Harm) | (Hn & Hc & Hcount & Hall)].
      * left. repeat split.
        -- rewrite Hpend, lookup_insert_ne by congruence. exact Ht.
        -- rewrite Hcs. exact Hc.
        -- rewrite Htm. apply in_or_app. left. exact Harm.
      * right. unfold done, table_count. rewrite Hcs, Hpend.
        rewrite lookup_insert_ne by congruence. repeat split; assumption.
    + left. repeat split.
      * rewrite Hpend. apply lookup_insert_eq.
      * rewrite Hcs, Hp. apply (inv_fresh st I). lia.
      * rewrite Htm. apply in_or_app. right. left. reflexivity.
  - intros id' p' Hin. rewrite Htm in Hin. rewrite Hsame.
    apply in_app_or in Hin as [Hin | [Heq | []]].
    + rewrite (inv_timer st I id' p' Hin). reflexivity.
    + injection Heq as <- <-. rewrite Nat.eqb_refl, Z.eqb_refl. apply orb_true_r.
  - intros id' p' Hin. rewrite Hwr in Hin. rewrite Hsame.
    apply in_app_or in Hin as [Hin | [Heq | []]].
    + rewrite (inv_write st I id' p' Hin). reflexivity.
    + injection Heq as <- <-. rewrite Nat.eqb_refl, Z.eqb_refl. apply orb_true_r.
  - intros c Hc. destruct (inv_foreign st I c (Hfor c Hc)) as [Hlt Hno].
    split; [lia|]. intros id'. rewrite Hsame, Hno. cbn.
    destruct (Nat.eqb_spec p c) as [Heq|]; [lia | reflexivity].
Qed.

Lemma count_snoc (calls : list Outcome) (o : Outcome) :
  length (List.filter from_table (calls ++ [o]))
  = (length (List.filter from_table calls) + if from_table o then 1 else 0)%nat.
Proof.
  rewrite List.filter_app, length_app. cbn. destruct (from_table o); reflexivity.
Qed.

(** An outcome reaching the waiter of a request: its id leaves the table. *)
Lemma inv_settle_issued (st st' : Client) (id : Z) (p : Promise) (o : Outcome)
  (es : list Effect) :
  Inv st ->
  issued id p st = true ->
  request_outcome o = true ->
  (from_table o = true -> pendingRequests st !! id = Some p) ->
  nextPromise st' = nextPromise st ->
  requestId st' = requestId st ->
  pendingRequests st' = delete id (pendingRequests st) ->
  (forall t, In t (timers st') -> In t (timers st)) ->
  (forall id' p', In (TRequest id' p') (timers st) -> p' <> p ->
                  In (TRequest id' p') (timers st')) ->
  (forall w, In w (writes st') -> In w (writes st)) ->
  (forall c, known_foreign c st' -> known_foreign c st) ->
  effects st' = effects st ++ es ->
  (forall id' p', issued_in id' p' es = false) ->
  (forall q, calls_on q es = if Nat.eqb p q then [o] else []) ->
  Inv st'.
Proof.
  intros I Hip Hreq Htab Hnp Hrid Hpend Htm Hkeep Hwr Hfor Hes Hiss Hcalls.
  assert (Hsame : forall id' p', issued id' p' st' = issued id' p' st).
  { intros id' p'. rewrite (issued_effects id' p' st st' es Hes), Hiss.
    apply orb_false_r. }
  assert (Hother : forall q, q <> p -> calls_on q (effects st') = calls_on q (effects st)).
  { intros q Hq. rewrite (calls_effects q st st' es Hes), Hcalls.
    destruct (Nat.eqb_spec p q); [congruence | apply app_nil_r]. }
  assert (Hself : calls_on p (effects st') = calls_on p (effects st) ++ [o]).
  { rewrite (calls_effects p st st' es Hes), Hcalls, Nat.eqb_refl. reflexivity. }
  destruct (inv_bound st I id p Hip) as [Hplt Hidlt].
  constructor.
  - intros q Hq. rewrite Hother by lia. apply (inv_fresh st I). lia.
  - intros id' p' H. rewrite Hsame in H. rewrite Hnp, Hrid. apply (inv_bound st I id' p' H).
  - intros i1 p1 i2 p2. rewrite !Hsame. apply (inv_inj st I).
  - intros id' p' H. rewrite Hpend in H. rewrite Hsame.
    destruct (decide (id = id')) as [<- | Hne].
    + rewrite lookup_delete_eq in H. discriminate.
    + rewrite lookup_delete_ne in H by exact Hne. apply (inv_pending st I id' p' H).
  - intros id' p' H. rewrite Hsame in H.
    destruct (decide (p' = p)) as [-> | Hne].
    + assert (id' = id) as -> by (apply (inv_inj st I id' p id p H Hip); reflexivity).
      right. unfold done, table_count. rewrite Hself, Hpend, lookup_delete_eq.
      rewrite count_snoc, forallb_app. cbn. rewrite Hreq.
      split; [reflexivity|]. split; [intros Hnil; destruct (calls_on p (effects st)); discriminate|].
      destruct (inv_phase st I id p Hip) as [(Ht & Hc & Harm) | (Hn & Hc & Hcount & Hall)].
      * rewrite Hc. cbn. split; [destruct (from_table o); lia | reflexivity].
      * unfold table_count in Hcount. rewrite Hall.
        destruct (from_table o) eqn:Hft; [|split; [lia | reflexivity]].
        rewrite (Htab eq_refl) in Hn. discriminate.
    + assert (Hid : id' <> id).
      { intros ->. apply Hne. apply (inv_inj st I id p' id p H Hip). reflexivity. }
      destruct (inv_phase st I id' p' H) as [(Ht & Hc & Harm) | (Hn & Hc & Hcount & Hall)].
      * left. repeat split.
        -- rewrite Hpend, lookup_delete_ne by congruence. exact Ht.
        -- rewrite Hother by exact Hne. exact Hc.
        -- apply Hkeep; assumption.
      * right. unfold done, table_count. rewrite Hother by exact Hne.
        rewrite Hpend, lookup_delete_ne by congruence. repeat split; assumption.
  - intros id' p' Hin. rewrite Hsame. apply (inv_timer st I), Htm, Hin.
  - intros id' p' Hin. rewrite Hsame. apply (inv_write st I), Hwr, Hin.
  - intros c Hc. destruct (inv_foreign st I c (Hfor c Hc)) as [Hlt Hno].
    split; [lia|]. intros id'. rewrite Hsame. apply Hno.
Qed.

Lemma inv_plain (st st' : Client) (es : list Effect) :
  Inv st ->
  nextPromise st' = nextPromise st ->
  requestId st' = requestId st ->
  pendingRequests st' = pendingRequests st ->
  timers st' = timers st ->
  writes st' = writes st ->
  handlers st' = handlers st ->
  awaiting st' = awaiting st ->
  effects st' = effects st ++ es ->
  (forall id p, issued_in id p es = false) ->
  (forall q, calls_on q es = []) ->
  Inv st'.
Proof.
  intros I Hnp Hrid Hpend Htm Hwr Hh Haw Hes Hiss Hcalls.
  apply (inv_frame st st' es); try assumption.
  - lia.
  - lia.
  - intros t Ht. left. rewrite <- Htm. exact Ht.
  - intros id p Hin _. rewrite Htm. exact Hin.
  - intros id p. rewrite Hwr. auto.
  - intros c Hc. left. unfold known_foreign in *. rewrite <- Hh, <- Haw, <- Hwr. exact Hc.
  - intros q Hq. rewrite Hcalls in Hq. contradiction.
Qed.

Ltac plain es :=
  eapply (inv_plain _ _ es);
  [ eassumption | reflexivity | reflexivity | reflexivity | reflexivity | reflexivity
  | reflexivity | reflexivity
  | cbn; rewrite <- ?app_assoc, ?app_nil_r; reflexivity
  | intros; reflexivity
  | intros; reflexivity ].

Lemma inv_kill (sig : Signal) (st : Client) : Inv st -> Inv (kill sig st).
Proof.
  intros I. unfold kill. destruct (child st) as [c|].
  - destruct (exited c).
    + plain [EKill sig false].
    + plain [EKill sig true].
  - plain [EKill sig false].
Qed.

Lemma inv_log (lvl : LogLevel) (msg : string) (st : Client) : Inv st -> Inv (log lvl msg st).
Proof. intros I. plain [ELog lvl msg]. Qed.

Lemma fold_delete_lookup (entries : list (Z * Promise)) (m : gmap Z Promise) (k : Z) :
  fold_left (fun m e => delete (fst e) m) entries m !! k
  = if decide (k ∈ entries.*1) then None else m !! k.
Proof.
  revert m. induction entries as [|[id p] entries IH]; intros m.
  - cbn. destruct (decide _) as [H|]; [|reflexivity]. inversion H.
  - cbn [fold_left fst]. rewrite IH. rewrite fmap_cons. cbn [fst].
    destruct (decide (k ∈ entries.*1)) as [Hin | Hout].
    + rewrite decide_True by (right; exact Hin). reflexivity.
    + destruct (decide (k = id)) as [-> | Hne].
      * rewrite decide_True by left. apply lookup_delete_eq.
      * rewrite decide_False.
        -- apply lookup_delete_ne. congruence.
        -- intros H. apply elem_of_cons in H as [? | ?]; contradiction.
Qed.

Lemma fold_delete_all (m : gmap Z Promise) :
  fold_left (fun m e => delete (fst e) m) (map_to_list m) m = ∅.
Proof.
  apply map_eq. intros k. rewrite fold_delete_lookup, lookup_empty.
  destruct (decide _) as [|Hout]; [reflexivity|].
  destruct (m !! k) as [p|] eqn:Hk; [|reflexivity].
  exfalso. apply Hout. apply list_elem_of_fmap. exists (k, p).
  split; [reflexivity | apply elem_of_map_to_list; exact Hk].
Qed.

(** The loop of [cleanup] over the pending table. *)
Lemma inv_reject (name : string) (entries : list (Z * Promise)) :
  forall st st' : Client,
    Inv st ->
    NoDup (entries.*1) ->
    (forall id p, In (id, p) entries -> pendingRequests st !! id = Some p) ->
    nextPromise st' = nextPromise st ->
    requestId st' = requestId st ->
    pendingRequests st'
    = fold_left (fun m e => delete (fst e) m) entries (pendingRequests st) ->
    timers st' = timers st ->
    writes st' = writes st ->
    handlers st' = handlers st ->
    awaiting st' = awaiting st ->
    effects st'
    = effects st ++ map (fun e => ESettle (snd e) (Rejected (ErrClosed name))) entries ->
    Inv st'.
Proof.
  induction entries as [|[id p] entries IH];
    intros st st' I Hnodup Hin Hnp Hrid Hpend Htm Hwr Hh Haw Hes.
  - apply (inv_plain st st' []); try assumption; intros; reflexivity.
  - rewrite fmap_cons in Hnodup. apply NoDup_cons in Hnodup as [Hfresh Hnodup].
    set (mid := set_effects (effects st ++ [ESettle p (Rejected (ErrClosed name))])
                  (set_pendingRequests (delete id (pendingRequests st)) st)).
    assert (Imid : Inv mid).
    { apply (inv_settle_issued st mid id p (Rejected (ErrClosed name))
               [ESettle p (Rejected (ErrClosed name))]); try reflexivity; auto.
      - apply (inv_pending st I). apply Hin. left. reflexivity.
      - intros _. apply Hin. left. reflexivity. }
    apply (IH mid st' Imid Hnodup); try assumption.
    + intros id' p' Hin'. cbn. rewrite lookup_delete_ne.
      * apply Hin. right. exact Hin'.
      * intros ->. apply Hfresh. apply list_elem_of_fmap. exists (id', p').
        split; [reflexivity | apply list_elem_of_In; exact Hin'].
    + rewrite Hes. cbn. rewrite <- app_assoc. reflexivity.
Qed.

Lemma inv_cleanup (st : Client) : Inv st -> Inv (cleanup st).
Proof.
  intros I. unfold cleanup.
  set (st1 := if process st
              then set_process false (setTimeout TForceKill (kill SIGTERM st))
              else st).
  assert (I1 : Inv st1).
  { unfold st1. destruct (process st); [|exact I].
    pose proof (inv_kill SIGTERM st I) as Ik.
    apply (inv_frame (kill SIGTERM st) _ []); try assumption; try reflexivity;
      try (cbn; lia).
    - cbn. intros t Ht. apply in_app_or in Ht as [Ht | [<- | []]]; auto.
    - cbn. intros id p Hin _. apply in_or_app. left. exact Hin.
    - cbn. auto.
    - intros c Hc. left. exact Hc.
    - cbn. rewrite app_nil_r. reflexivity.
    - intros q Hq. contradiction. }
  set (st2 := set_pendingRequests ∅
                (set_effects (effects st1 ++ map (reject_closed st1)
                                               (map_to_list (pendingRequests st1))) st1)).
  assert (I2 : Inv st2).
  { apply (inv_reject (serverName st1) (map_to_list (pendingRequests st1)) st1 st2 I1);
      try reflexivity.
    - apply NoDup_fst_map_to_list.
    - intros id p Hin. apply elem_of_map_to_list, list_elem_of_In. exact Hin.
    - cbn. symmetry. apply fold_delete_all. }
  change (Inv (emit EEmitDisconnected (set_initialized false st2))).
  plain [EEmitDisconnected].
Qed.

Lemma inv_sendRequest (r : Request) (st : Client) :
  Inv st ->
  req_id r < requestId st ->
  (forall q, issued (req_id r) q st = false) ->
  Inv (snd (sendRequest r st))
  /\ awaiting (snd (sendRequest r st)) = awaiting st
  /\ handlers (snd (sendRequest r st)) = handlers st
  /\ (forall c, In (WNotification c) (writes (snd (sendRequest r st))) ->
                In (WNotification c) (writes st))
  /\ requestId (snd (sendRequest r st)) = requestId st.
Proof.
  intros I Hid Hnew. unfold sendRequest, new_promise.
  destruct (negb (has_stdin _)); cbn [snd].
  - split; [|repeat split; auto].
    apply (inv_frame st _ [ESettle (nextPromise st) (Rejected (ErrNoStdin (serverName st)))]);
      try assumption; try reflexivity; try (cbn; lia); auto.
    intros q Hq. cbn in Hq. destruct (Nat.eqb_spec (nextPromise st) q) as [Heq|]; [subst q|contradiction].
    split; [cbn; lia|]. intros id. destruct (issued id (nextPromise st) st) eqn:Hi; [|reflexivity].
    destruct (inv_bound st I id _ Hi). lia.
  - split.
    + apply (inv_issue st _ (req_id r) (nextPromise st)
               [ELog DEBUG "Sending request"; EWriteRequest (nextPromise st) r]);
        try assumption; try reflexivity.
      * intros c Hc. unfold known_foreign in *. cbn in Hc.
        destruct Hc as [Hc | [Hc | Hc]]; auto.
        right. right. apply in_app_or in Hc as [Hc | [Hc | []]]; [exact Hc | discriminate].
      * cbn. rewrite <- app_assoc. reflexivity.
      * intros id' p'. cbn. apply orb_false_r.
    + repeat split; auto. cbn. intros c Hc.
      apply in_app_or in Hc as [Hc | [Hc | []]]; [exact Hc | discriminate].
Qed.

Lemma inv_sendNotification (method : string) (st : Client) :
  Inv st ->
  Inv (snd (sendNotification method st))
  /\ fst (sendNotification method st) = nextPromise st
  /\ nextPromise (snd (sendNotification method st)) = S (nextPromise st)
  /\ awaiting (snd (sendNotification method st)) = awaiting st
  /\ handlers (snd (sendNotification method st)) = handlers st
  /\ (forall id p, issued id p (snd (sendNotification method st)) = issued id p st).
Proof.
  intros I. unfold sendNotification, new_promise.
  destruct (negb (has_stdin _)); cbn [fst snd];
    (split; [|repeat split; try reflexivity; intros id p;
                erewrite issued_effects by (cbn; rewrite <- ?app_assoc; reflexivity);
                cbn; apply orb_false_r]).
  - apply (inv_frame st _ [ESettle (nextPromise st) (Rejected (ErrNoStdin (serverName st)))]);
      try assumption; try reflexivity; try (cbn; lia); auto.
    intros q Hq. cbn in Hq. destruct (Nat.eqb_spec (nextPromise st) q) as [Heq|]; [subst q|contradiction].
    split; [cbn; lia|]. intros id. destruct (issued id (nextPromise st) st) eqn:Hi; [|reflexivity].
    destruct (inv_bound st I id _ Hi). lia.
  - apply (inv_frame st _ [ELog DEBUG "Sending notification"; EWriteNotification method]);
      try assumption; try reflexivity; try (cbn; lia); auto.
    + cbn. intros id p Hin. apply in_app_or in Hin as [Hin | [Hin | []]];
        [exact Hin | discriminate].
    + intros c Hc. unfold known_foreign in *. cbn in Hc.
      destruct Hc as [Hc | [Hc | Hc]]; auto.
      apply in_app_or in Hc as [Hc | [Hc | []]]; auto.
      injection Hc as <-. right. split; [cbn; lia|].
      apply not_issued_new; [exact I | lia].
    + cbn. rewrite <- app_assoc. reflexivity.
    + intros q Hq. contradiction.
Qed.

(** A step that only takes timers, writes or continuations away. *)
Lemma inv_shrink (st st' : Client) :
  Inv st ->
  nextPromise st' = nextPromise st ->
  requestId st <= requestId st' ->
  pendingRequests st' = pendingRequests st ->
  (forall t, In t (timers st') -> In t (timers st)) ->
  (forall id p, In (TRequest id p) (timers st) -> pendingRequests st !! id = Some p ->
                In (TRequest id p) (timers st')) ->
  (forall w, In w (writes st') -> In w (writes st)) ->
  handlers st' = handlers st ->
  (forall q k, awaiting st' !! q = Some k -> awaiting st !! q = Some k) ->
  effects st' = effects st ->
  Inv st'.
Proof.
  intros I Hnp Hrid Hpend Htm Hkeep Hwr Hh Haw Hes.
  apply (inv_frame st st' []); try assumption; auto.
  - lia.
  - intros c [Hc | [[q [Hc | Hc]] | Hc]]; left.
    + left. congruence.
    + right. left. exists q. left. apply Haw, Hc.
    + right. left. exists q. right. apply Haw, Hc.
    + right. right. apply Hwr, Hc.
  - rewrite app_nil_r. exact Hes.
  - intros q Hq. contradiction.
Qed.

Lemma inv_write_step (w : Write) (ok : bool) (st : Client) (rest : list Write) :
  Inv st ->
  take_out write_eqb w (writes st) = Some rest ->
  Inv (write_callback w ok (set_writes rest st)).
Proof.
  intros I Htake.
  destruct (take_out_In write_eqb w (writes st) rest write_eqb_eq Htake)
    as (Hin & Hsub & _).
  assert (I0 : Inv (set_writes rest st)).
  { apply (inv_shrink st); try reflexivity; auto. }
  destruct w as [id p | q]; cbn [write_callback].
  - destruct ok; [exact I0|].
    apply (inv_settle_issued st _ id p (Rejected (ErrWrite (serverName st)))
             [ESettle p (Rejected (ErrWrite (serverName st)))]);
      try assumption; try reflexivity; auto.
    + apply (inv_write st I), Hin.
    + intros H. discriminate H.
    + intros c [Hc | [Hc | Hc]]; [left | right; left | right; right]; auto.
  - assert (Hq : (q < nextPromise st)%nat /\ forall id, issued id q st = false).
    { apply (inv_foreign st I). right. right. exact Hin. }
    assert (Hgo : forall o, Inv (settle q o (set_writes rest st))).
    { intros o. apply (inv_frame (set_writes rest st) _ [ESettle q o]);
        try assumption; try reflexivity; auto.
      intros q' Hq'. cbn in Hq'.
      destruct (Nat.eqb_spec q q') as [Heq|]; [subst q'|contradiction]. exact Hq. }
    destruct ok; apply Hgo.
Qed.

Lemma inv_timer_step (t : Timer) (st : Client) (rest : list Timer) :
  Inv st ->
  take_out timer_eqb t (timers st) = Some rest ->
  Inv (timer_callback t (set_timers rest st)).
Proof.
  intros I Htake.
  destruct (take_out_In timer_eqb t (timers st) rest timer_eqb_eq Htake)
    as (Hin & Hsub & Hkeep).
  destruct t as [id p|]; cbn [timer_callback].
  - pose proof (inv_timer st I id p Hin) as Hip.
    change (pendingRequests (set_timers rest st)) with (pendingRequests st).
    destruct (pendingRequests st !! id) as [p'|] eqn:Hpend.
    + assert (p' = p) as ->.
      { apply (inv_inj st I id p' id p); [apply (inv_pending st I), Hpend | exact Hip |].
        reflexivity. }
      apply (inv_settle_issued st _ id p (Rejected (ErrTimeout id (serverName st)))
               [ESettle p (Rejected (ErrTimeout id (serverName st)))]);
        try assumption; try reflexivity; auto.
      intros id' p' Hin' Hne. apply Hkeep; [exact Hin' | congruence].
    + apply (inv_shrink st); try reflexivity; auto.
      intros id' p' Hin' Hp'. apply Hkeep; [exact Hin'|].
      intros [= -> ->]. congruence.
  - assert (I0 : Inv (set_timers rest st)).
    { apply (inv_shrink st); try reflexivity; auto.
      all: intros id' p' Hin' _; apply Hkeep; [exact Hin' | discriminate]. }
    unfold force_kill. destruct (_ && _); [|exact I0].
    apply inv_kill, inv_log, I0.
Qed.

Lemma find_pending_Some (idv : JSValue) (st : Client) (id : Z) (p : Promise) :
  find_pending idv st = Some (id, p) -> pendingRequests st !! id = Some p.
Proof.
  unfold find_pending. destruct idv; try discriminate.
  destruct (pendingRequests st !! n) as [q|] eqn:H; [|discriminate].
  intros [= <- <-]. exact H.
Qed.

Lemma inv_handleResponse (response : JSValue) (st : Client) :
  Inv st -> Inv (fst (handleResponse response st)).
Proof.
  intros I. unfold handleResponse.
  destruct (get_prop response "id") as [idv|]; [|apply inv_log, I].
  destruct (if truthy idv then _ else _) as [[id p]|] eqn:Hfind.
  - assert (Hpend : pendingRequests st !! id = Some p).
    { destruct (truthy idv); [|discriminate].
      apply (find_pending_Some idv (log DEBUG "Received response" st)), Hfind. }
    pose proof (inv_pending st I id p Hpend) as Hip.
    cbv zeta. destruct (truthy (get_prop_opt response "error")); cbn [fst].
    + apply (inv_settle_issued st _ id p
               (Rejected (ErrRemote (serverName st) (get_prop_opt response "error")))
               [ELog DEBUG "Received response";
                ESettle p (Rejected (ErrRemote (serverName st)
                                       (get_prop_opt response "error")))]);
        try assumption; try reflexivity; auto;
        try (cbn; rewrite <- app_assoc; reflexivity).
    + apply (inv_settle_issued st _ id p (Resolved response)
               [ELog DEBUG "Received response"; ESettle p (Resolved response)]);
        try assumption; try reflexivity; auto;
        try (cbn; rewrite <- app_assoc; reflexivity).
  - destruct (truthy (get_prop_opt response "method")); cbn [fst].
    + plain [ELog DEBUG "Received response"; ELog DEBUG "Received notification";
             EEmitNotification response].
    + apply inv_log, I.
Qed.

Lemma inv_handleLine (st : Client) (line : text) :
  Inv st -> Inv (handleLine parse st line).
Proof.
  intros I. unfold handleLine. destruct (nonempty _); [|exact I].
  destruct (parse _) as [response|]; [|apply inv_log, I].
  pose proof (inv_handleResponse response st I) as H.
  destruct (handleResponse response st) as [st' threw]. cbn [fst] in H.
  destruct threw; [apply inv_log, H | exact H].
Qed.

Lemma inv_handleText (chunk : text) (st : Client) :
  Inv st -> Inv (handleText parse chunk st).
Proof.
  intros I. unfold handleText.
  assert (H : forall lines st0, Inv st0 -> Inv (fold_left (handleLine parse) lines st0)).
  { induction lines as [|l lines IH]; intros st0 I0; [exact I0|].
    cbn [fold_left]. apply IH, inv_handleLine, I0. }
  apply H. plain (@nil Effect).
Qed.

(** A verb or [disconnect] taking the next id, sending its request and
    awaiting the answer. *)
Lemma inv_request (k : Cont) (method : string) (params : JSValue) (st : Client) :
  Inv st ->
  plain_cont k ->
  Inv (request k method params st).
Proof.
  intros I Hk. unfold request. cbn [getNextRequestId].
  set (r := {| req_id := requestId st; req_method := method; req_params := params |}).
  set (st1 := set_requestId (requestId st + 1) st).
  assert (I1 : Inv st1).
  { apply (inv_shrink st); try reflexivity; auto. cbn. lia. }
  destruct (inv_sendRequest r st1 I1) as (I2 & Haw & Hh & Hwn & _).
  { cbn. lia. }
  { intros q. destruct (issued (requestId st) q st) eqn:Hi; [|exact Hi].
    destruct (inv_bound st I _ q Hi). lia. }
  destruct (sendRequest r st1) as [p st2]. cbn [snd] in *.
  apply (inv_frame st2 _ []); try assumption; try reflexivity; auto.
  - intros c [Hc | [[q [Hc | Hc]] | Hc]]; left.
    + left. exact Hc.
    + cbn in Hc. destruct (decide (p = q)) as [-> | Hne].
      * rewrite lookup_insert_eq in Hc. injection Hc as ->. destruct (Hk c). congruence.
      * rewrite lookup_insert_ne in Hc by exact Hne. right. left. exists q. left. exact Hc.
    + cbn in Hc. destruct (decide (p = q)) as [-> | Hne].
      * rewrite lookup_insert_eq in Hc. injection Hc as ->. destruct (Hk c). congruence.
      * rewrite lookup_insert_ne in Hc by exact Hne. right. left. exists q. right. exact Hc.
    + right. right. exact Hc.
  - cbn. rewrite app_nil_r. reflexivity.
  - intros q Hq. contradiction.
Qed.

Lemma inv_when_initialized (body : Client -> Client) (st : Client) :
  Inv st -> (forall st0, Inv st0 -> Inv (body st0)) -> Inv (when_initialized body st).
Proof.
  intros I H. unfold when_initialized. destruct (negb (initialized st)).
  - plain [EThrow (ErrNotInitialized (serverName st))].
  - apply H, I.
Qed.

Lemma inv_disconnect (st : Client) : Inv st -> Inv (disconnect st).
Proof.
  intros I. unfold disconnect. destruct (initialized st).
  - apply inv_request; [exact I|]. intros c. split; discriminate.
  - apply inv_cleanup, I.
Qed.

(** Settling the promise [connect] returned. *)
Lemma inv_settle_foreign (c : Promise) (o : Outcome) (st st' : Client) (es : list Effect) :
  Inv st ->
  (c < nextPromise st)%nat ->
  (forall id, issued id c st = false) ->
  nextPromise st' = nextPromise st ->
  requestId st' = requestId st ->
  pendingRequests st' = pendingRequests st ->
  timers st' = timers st ->
  writes st' = writes st ->
  handlers st' = handlers st ->
  (forall q k, awaiting st' !! q = Some k -> awaiting st !! q = Some k) ->
  effects st' = effects st ++ es ->
  (forall id p, issued_in id p es = false) ->
  (forall q, calls_on q es <> [] -> q = c) ->
  Inv st'.
Proof.
  intros I Hlt Hno Hnp Hrid Hpend Htm Hwr Hh Haw Hes Hiss Hcalls.
  apply (inv_frame st st' es); try assumption; try lia.
  - intros t Ht. left. rewrite <- Htm. exact Ht.
  - intros id p Hin _. rewrite Htm. exact Hin.
  - intros id p. rewrite Hwr. auto.
  - intros c' [Hc | [[q [Hc | Hc]] | Hc]]; left.
    + left. congruence.
    + right. left. exists q. left. apply Haw, Hc.
    + right. left. exists q. right. apply Haw, Hc.
    + right. right. rewrite <- Hwr. exact Hc.
  - intros q Hq. rewrite (Hcalls q Hq). split; [lia | exact Hno].
Qed.

Lemma lookup_delete_Some_old (p q : nat) (k : Cont) (m : gmap nat Cont) :
  delete p m !! q = Some k -> m !! q = Some k.
Proof.
  destruct (decide (p = q)) as [-> | Hne].
  - rewrite lookup_delete_eq. discriminate.
  - rewrite lookup_delete_ne by exact Hne. auto.
Qed.

Lemma inv_resume (p : Promise) (st : Client) : Inv st -> Inv (resume p st).
Proof.
  intros I. unfold resume.
  destruct (awaiting st !! p) as [k|] eqn:Hk; [|exact I].
  destruct (outcome p st) as [o|]; [|exact I].
  set (st0 := set_awaiting (delete p (awaiting st)) st).
  assert (I0 : Inv st0).
  { apply (inv_shrink st); try reflexivity; auto.
    intros q k'. apply lookup_delete_Some_old. }
  assert (Hfor : forall c, k = KInitialize c \/ k = KInitialized c ->
                   (c < nextPromise st0)%nat /\ forall id, issued id c st0 = false).
  { intros c Hc. apply (inv_foreign st I). right. left. exists p.
    destruct Hc as [<- | <-]; [left | right]; exact Hk. }
  destruct k as [c | c | | | | |]; cbn [resume_with].
  - destruct (Hfor c (or_introl eq_refl)) as [Hlt Hno]. destruct o as [v | e].
    + destruct (inv_sendNotification "notifications/initialized" st0 I0)
        as (I1 & Hq & Hnp & Haw & Hh & Hiss).
      destruct (sendNotification "notifications/initialized" st0) as [q st1].
      cbn [fst snd] in *. subst q.
      apply (inv_frame st1 _ []); try assumption; try reflexivity; auto.
      * intros c' [Hc | [[q [Hc | Hc]] | Hc]].
        -- left. left. exact Hc.
        -- left. right. left. exists q. left. cbn in Hc.
           destruct (decide (nextPromise st0 = q)) as [<- | Hne].
           ++ rewrite lookup_insert_eq in Hc. discriminate.
           ++ rewrite lookup_insert_ne in Hc by exact Hne. exact Hc.
        -- cbn in Hc. destruct (decide (nextPromise st0 = q)) as [<- | Hne].
           ++ rewrite lookup_insert_eq in Hc. injection Hc as <-. right.
              split; [cbn; rewrite Hnp; lia|].
              intros id. rewrite Hiss. apply Hno.
           ++ rewrite lookup_insert_ne in Hc by exact Hne.
              left. right. left. exists q. right. exact Hc.
        -- left. right. right. exact Hc.
      * cbn. rewrite app_nil_r. reflexivity.
      * intros q Hq. contradiction.
    + apply (inv_settle_foreign c (Rejected e) st0 _ [ESettle c (Rejected e)]);
        try assumption; try reflexivity; auto.
      intros q Hq. cbn in Hq. destruct (Nat.eqb_spec c q); [congruence | contradiction].
  - destruct (Hfor c (or_intror eq_refl)) as [Hlt Hno]. destruct o as [v | e].
    + apply (inv_settle_foreign c (Resolved JUndefined) st0 _
               [ELog DEBUG "Connection initialized"; ELog INFO "initialized successfully";
                ESettle c (Resolved JUndefined)]);
        try assumption; try reflexivity; auto.
      * cbn. rewrite <- !app_assoc. reflexivity.
      * intros q Hq. cbn in Hq. destruct (Nat.eqb_spec c q); [congruence | contradiction].
    + apply (inv_settle_foreign c (Rejected e) st0 _ [ESettle c (Rejected e)]);
        try assumption; try reflexivity; auto.
      intros q Hq. cbn in Hq. destruct (Nat.eqb_spec c q); [congruence | contradiction].
  - plain [EReturn p (listTools_return o)].
  - plain [EReturn p (result_return o)].
  - plain [EReturn p (listResources_return o)].
  - plain [EReturn p (result_return o)].
  - apply inv_cleanup. destruct o; apply inv_log, I0.
Qed.

Lemma inv_on_exit (st : Client) : Inv st -> Inv (on_exit st).
Proof.
  intros I. unfold on_exit. destruct (handlers st); [|exact I].
  destruct (child st) as [c|]; [|exact I]. destruct (exited c); [exact I|].
  apply inv_cleanup, inv_log. plain (@nil Effect).
Qed.

Lemma inv_on_error (st : Client) : Inv st -> Inv (on_error st).
Proof.
  intros I. unfold on_error. destruct (handlers st) as [c|] eqn:Hh; [|exact I].
  destruct (inv_foreign st I c (or_introl Hh)) as [Hlt Hno].
  apply (inv_settle_foreign c (Rejected ErrProcess) st _
           [ELog ERROR "process error"; ESettle c (Rejected ErrProcess)]);
    try assumption; try reflexivity; auto.
  - cbn. rewrite <- app_assoc. reflexivity.
  - intros q Hq. cbn in Hq. destruct (Nat.eqb_spec c q); [congruence | contradiction].
Qed.

Lemma plain_verbs :
  plain_cont KListTools /\ plain_cont KCallTool /\ plain_cont KListResources
  /\ plain_cont KReadResource /\ plain_cont KDisconnect.
Proof. repeat split; discriminate. Qed.

Lemma inv_step (st : Client) (ev : Event) : Inv st -> Inv (step parse st ev).
Proof.
  intros I. destruct plain_verbs as (H1 & H2 & H3 & H4 & H5).
  destruct ev; cbn [step].
  - unfold listTools. apply inv_when_initialized; [exact I|].
    intros st0 I0. apply inv_request; assumption.
  - unfold callTool. apply inv_when_initialized; [exact I|].
    intros st0 I0. apply inv_request; [apply inv_log, I0 | assumption].
  - unfold listResources. apply inv_when_initialized; [exact I|].
    intros st0 I0. apply inv_request; assumption.
  - unfold readResource. apply inv_when_initialized; [exact I|].
    intros st0 I0. apply inv_request; assumption.
  - apply inv_disconnect, I.
  - apply inv_resume, I.
  - destruct (handlers st); [|exact I]. apply inv_handleText, I.
  - destruct (handlers st); [|exact I]. apply inv_log, I.
  - destruct (take_out write_eqb w (writes st)) as [rest|] eqn:Ht; [|exact I].
    apply inv_write_step; assumption.
  - destruct (take_out timer_eqb t (timers st)) as [rest|] eqn:Ht; [|exact I].
    apply inv_timer_step; assumption.
  - apply inv_on_exit, I.
  - apply inv_on_error, I.
Qed.

Lemma inv_run (evs : list Event) (st : Client) : Inv st -> Inv (run parse st evs).
Proof.
  revert st. induction evs as [|ev evs IH]; intros st I; [exact I|].
  cbn [run fold_left]. apply IH, inv_step, I.
Qed.

Lemma inv_constructor (cfg : Config) (name : string) : Inv (constructor cfg name).
Proof.
  constructor.
  - intros q _. reflexivity.
  - intros id p H. discriminate H.
  - intros id p id' p' H. discriminate H.
  - intros id p H. discriminate H.
  - intros id p H. discriminate H.
  - intros id p [].
  - intros id p [].
  - intros c [H | [[q [H | H]] | []]]; discriminate H.
Qed.

Lemma inv_connect (sp : SpawnResult) (st : Client) : Inv st -> Inv (connect sp st).
Proof.
  intros I. unfold connect, initialize, new_promise.
  pose proof (not_issued_new st (nextPromise st) I (Nat.le_refl _)) as Hno.
  destruct sp as [|pid i o e].
  - apply (inv_frame st _ [ELog INFO "Starting server"; ELog INFO "config env";
                            ELog ERROR "Failed to spawn process";
                            ESettle (nextPromise st) (Rejected ErrSpawn)]);
      try assumption; try reflexivity; try (cbn; lia); auto.
    + cbn. rewrite <- !app_assoc. reflexivity.
    + intros q Hq. cbn in Hq.
      destruct (Nat.eqb_spec (nextPromise st) q) as [Heq|]; [subst q|contradiction].
      split; [cbn; lia | exact Hno].
  - destruct (negb (i && o && e)).
    + apply (inv_frame st _ [ELog INFO "Starting server"; ELog INFO "config env";
                              ESettle (nextPromise st) (Rejected ErrStreams)]);
        try assumption; try reflexivity; try (cbn; lia); auto.
      * cbn. rewrite <- !app_assoc. reflexivity.
      * intros q Hq. cbn in Hq.
        destruct (Nat.eqb_spec (nextPromise st) q) as [Heq|]; [subst q|contradiction].
        split; [cbn; lia | exact Hno].
    + cbn [getNextRequestId].
      match goal with
      | |- Inv (let '(p, st3) := sendRequest ?r ?s in _) =>
          set (r0 := r); set (st2 := s)
      end.
      assert (I2 : Inv st2).
      { apply (inv_frame st _ [ELog INFO "Starting server"; ELog INFO "config env";
                                ELog DEBUG "Initializing connection..."]);
          try assumption; try reflexivity; try (cbn; lia); auto.
        - intros c [Hc | [Hc | Hc]]; [|left; right; left; exact Hc
                                       |left; right; right; exact Hc].
          cbn in Hc. injection Hc as <-. right. split; [cbn; lia | exact Hno].
        - cbn. rewrite <- !app_assoc. reflexivity.
        - intros q Hq. contradiction. }
      destruct (inv_sendRequest r0 st2 I2) as (I3 & Haw & Hh & Hwn & _).
      { cbn. lia. }
      { intros q. change (issued (req_id r0) q st2) with (issued (requestId st) q st2).
        erewrite issued_effects by (cbn; rewrite <- ?app_assoc; reflexivity).
        cbn. rewrite orb_false_r.
        destruct (issued (requestId st) q st) eqn:Hi; [|reflexivity].
        destruct (inv_bound st I _ q Hi). lia. }
      destruct (sendRequest r0 st2) as [p st3]. cbn [snd] in *.
      apply (inv_frame st3 _ []); try assumption; try reflexivity; auto.
      * intros c [Hc | [[q [Hc | Hc]] | Hc]]; left.
        -- left. exact Hc.
        -- cbn in Hc. destruct (decide (p = q)) as [-> | Hne].
           ++ rewrite lookup_insert_eq in Hc. injection Hc as <-. left.
              rewrite Hh. reflexivity.
           ++ rewrite lookup_insert_ne in Hc by exact Hne.
              right. left. exists q. left. exact Hc.
        -- cbn in Hc. destruct (decide (p = q)) as [-> | Hne].
           ++ rewrite lookup_insert_eq in Hc. discriminate.
           ++ rewrite lookup_insert_ne in Hc by exact Hne.
              right. left. exists q. right. exact Hc.
        -- right. right. exact Hc.
      * cbn. rewrite app_nil_r. reflexivity.
      * intros q Hq. contradiction.
Qed.

Lemma calls_rejected_other (s : Client) (p : Promise) (l : list (Z * Promise)) :
  (forall e, In e l -> snd e <> p) ->
  calls_on p (map (reject_closed s) l) = [].
Proof.
  induction l as [|e l IH]; intros H; [reflexivity|].
  cbn [map reject_closed calls_on].
  destruct (Nat.eqb_spec (snd e) p) as [Heq|_].
  - exfalso. apply (H e); [left; reflexivity | exact Heq].
  - apply IH. intros e' He'. apply H. right. exact He'.
Qed.

Lemma calls_rejected_once (s : Client) (p : Promise) (id : Z) (l : list (Z * Promise)) :
  List.NoDup l ->
  In (id, p) l ->
  (forall e, In e l -> snd e = p -> e = (id, p)) ->
  calls_on p (map (reject_closed s) l) = [Rejected (ErrClosed (serverName s))].
Proof.
  induction l as [|e l IH]; intros Hnd Hin Hone; [contradiction|].
  apply List.NoDup_cons_iff in Hnd as [Hfresh Hnd].
  cbn [map reject_closed calls_on].
  destruct (Nat.eqb_spec (snd e) p) as [Heq|Hne].
  - assert (He : e = (id, p)) by (apply Hone; [left; reflexivity | exact Heq]).
    subst e. f_equal. apply calls_rejected_other.
    intros e' He' Hp. apply Hfresh.
    rewrite <- (Hone e'); [exact He' | right; exact He' | exact Hp].
  - destruct Hin as [-> | Hin]; [contradiction Hne; reflexivity|].
    apply IH; [exact Hnd | exact Hin |].
    intros e' He'. apply Hone. right. exact He'.
Qed.

(** The effects of [cleanup]: the signal if there is a process, one
    rejection for each entry of the table, and the disconnected event. *)
Lemma cleanup_effects (st : Client) :
  exists ks,
    (ks = [] \/ exists delivered, ks = [EKill SIGTERM delivered])
    /\ effects (cleanup st)
       = effects st ++ ks
         ++ map (reject_closed st) (map_to_list (pendingRequests st))
         ++ [EEmitDisconnected].
Proof.
  unfold cleanup. destruct (process st).
  - unfold kill. destruct (child st) as [c|]; [destruct (exited c)|].
    + exists [EKill SIGTERM false]. split; [right; eexists; reflexivity|].
      cbn. rewrite <- !app_assoc. reflexivity.
    + exists [EKill SIGTERM true]. split; [right; eexists; reflexivity|].
      cbn. rewrite <- !app_assoc. reflexivity.
    + exists [EKill SIGTERM false]. split; [right; eexists; reflexivity|].
      cbn. rewrite <- !app_assoc. reflexivity.
  - exists []. split; [left; reflexivity|]. cbn. rewrite <- !app_assoc. reflexivity.
Qed.


(** ** What settles a request *)

Lemma calls_same (p : Promise) (st st' : Client) (es : list Effect) :
  effects st' = effects st ++ es ->
  calls_on p es = [] ->
  calls_on p (effects st') = calls_on p (effects st).
Proof. intros He Hes. rewrite He, calls_on_app, Hes. apply app_nil_r. Qed.

Lemma calls_one (p : Promise) (st st' : Client) (es : list Effect) (o : Outcome) :
  effects st' = effects st ++ es ->
  calls_on p es = [o] ->
  calls_on p (effects st') = calls_on p (effects st) ++ [o].
Proof. intros He Hes. rewrite He, calls_on_app, Hes. reflexivity. Qed.

(** A waiter of a request is none of the other promises. *)
Lemma issued_not_foreign (st : Client) (id : Z) (p c : Promise) :
  Inv st -> issued id p st = true -> known_foreign c st -> c <> p.
Proof.
  intros I Hi Hc ->. destruct (inv_foreign st I p Hc) as [_ Hno].
  rewrite Hno in Hi. discriminate Hi.
Qed.

Lemma issued_not_new (st : Client) (id : Z) (p : Promise) :
  Inv st -> issued id p st = true -> nextPromise st <> p.
Proof. intros I Hi. destruct (inv_bound st I id p Hi) as [Hlt _]. lia. Qed.

(** The waiter of a request is in the table under the request's id only. *)
Lemma pending_only (st : Client) (id id' : Z) (p : Promise) :
  Inv st -> issued id p st = true ->
  pendingRequests st !! id' = Some p -> id' = id.
Proof.
  intros I Hi Hp. apply (inv_inj st I id' p id p); auto.
  apply (inv_pending st I), Hp.
Qed.

Lemma request_calls (k : Cont) (method : string) (params : JSValue) (st : Client)
  (p : Promise) :
  nextPromise st <> p ->
  calls_on p (effects (request k method params st)) = calls_on p (effects st).
Proof.
  intros Hne. apply Nat.eqb_neq in Hne.
  unfold request, getNextRequestId, sendRequest, new_promise.
  destruct (negb (has_stdin _)).
  - apply (calls_same p st _
             [ESettle (nextPromise st) (Rejected (ErrNoStdin (serverName st)))]);
      [reflexivity|]. cbn. rewrite Hne. reflexivity.
  - apply (calls_same p st _
             [ELog DEBUG "Sending request";
              EWriteRequest (nextPromise st)
                {| req_id := requestId st; req_method := method;
                   req_params := params |}]);
      [cbn; rewrite <- app_assoc; reflexivity | reflexivity].
Qed.

Lemma sendNotification_calls (method : string) (st : Client) (p : Promise) :
  nextPromise st <> p ->
  calls_on p (effects (snd (sendNotification method st))) = calls_on p (effects st).
Proof.
  intros Hne. apply Nat.eqb_neq in Hne.
  unfold sendNotification, new_promise. destruct (negb (has_stdin _)); cbn [snd].
  - apply (calls_same p st _
             [ESettle (nextPromise st) (Rejected (ErrNoStdin (serverName st)))]);
      [reflexivity|]. cbn. rewrite Hne. reflexivity.
  - apply (calls_same p st _
             [ELog DEBUG "Sending notification"; EWriteNotification method]);
      [cbn; rewrite <- app_assoc; reflexivity | reflexivity].
Qed.

(** [cleanup] and the waiter of a request: one rejection when the request is
    in the table, none when it is not. *)
Lemma cleanup_calls (st : Client) (id : Z) (p : Promise) :
  (forall id', pendingRequests st !! id' = Some p -> id' = id) ->
  (pendingRequests st !! id = Some p
   /\ calls_on p (effects (cleanup st))
      = calls_on p (effects st) ++ [Rejected (ErrClosed (serverName st))])
  \/ (pendingRequests st !! id <> Some p
      /\ calls_on p (effects (cleanup st)) = calls_on p (effects st)).
Proof.
  intros Honly. destruct (cleanup_effects st) as (ks & Hks & He).
  assert (Hk : calls_on p ks = [])
    by (destruct Hks as [-> | [delivered ->]]; reflexivity).
  rewrite He, !calls_on_app, Hk. cbn [app calls_on]. rewrite app_nil_r.
  destruct (decide (pendingRequests st !! id = Some p)) as [Hp | Hnp].
  - left. split; [exact Hp|]. f_equal.
    apply (calls_rejected_once st p id).
    + apply NoDup_ListNoDup, NoDup_map_to_list.
    + apply list_elem_of_In, elem_of_map_to_list. exact Hp.
    + intros [id' p'] Hin Heq. cbn in Heq. subst p'.
      apply list_elem_of_In, elem_of_map_to_list in Hin.
      f_equal. apply Honly, Hin.
  - right. split; [exact Hnp|].
    rewrite calls_rejected_other; [apply app_nil_r|].
    intros [id' p'] Hin Heq. cbn in Heq. subst p'.
    apply list_elem_of_In, elem_of_map_to_list in Hin.
    apply Hnp. rewrite <- (Honly id' Hin). exact Hin.
Qed.

Lemma pending_unsettled (st : Client) (id : Z) (p : Promise) :
  Inv st -> issued id p st = true ->
  (pendingRequests st !! id = Some p <-> calls_on p (effects st) = []).
Proof.
  intros I Hi.
  destruct (inv_phase st I id p Hi) as [(Hp & Hc & _) | (Hn & Hc & _)].
  - split; auto.
  - split; [congruence | contradiction].
Qed.

Lemma find_pending_num (idv : JSValue) (st : Client) (id : Z) (p : Promise) :
  find_pending idv st = Some (id, p) -> idv = JNum id.
Proof.
  unfold find_pending. destruct idv; try discriminate.
  destruct (pendingRequests st !! n); [|discriminate].
  intros [= <- _]. reflexivity.
Qed.

(** [handleResponse] and the waiter of a request. *)
Lemma handleResponse_calls (response : JSValue) (st : Client) (id : Z) (p : Promise) :
  Inv st -> issued id p st = true ->
  exists es,
    effects (fst (handleResponse response st)) = effects st ++ es
    /\ serverName (fst (handleResponse response st)) = serverName st
    /\ (calls_on p es = []
        \/ (pendingRequests st !! id = Some p
            /\ exists o, answers id (serverName st) response o
                         /\ calls_on p es = [o])).
Proof.
  intros I Hi. unfold handleResponse.
  destruct (get_prop response "id") as [idv|] eqn:Hid; cbn [fst].
  - cbv zeta.
    destruct (if truthy idv then find_pending idv _ else None) as [[id' p']|] eqn:Hfind.
    + assert (Hboth : pendingRequests st !! id' = Some p' /\ idv = JNum id').
      { destruct (truthy idv); [|discriminate]. split.
        - apply (find_pending_Some idv (log DEBUG "Received response" st)), Hfind.
        - apply (find_pending_num idv (log DEBUG "Received response" st) id' p'), Hfind. }
      destruct Hboth as [Hpend ->].
      set (o := if truthy (get_prop_opt response "error")
                then Rejected (ErrRemote (serverName st) (get_prop_opt response "error"))
                else Resolved response).
      exists [ELog DEBUG "Received response"; ESettle p' o].
      split; [|split].
      * subst o. destruct (truthy (get_prop_opt response "error")); cbn;
          rewrite <- app_assoc; reflexivity.
      * destruct (truthy (get_prop_opt response "error")); reflexivity.
      * cbn [calls_on]. destruct (Nat.eqb_spec p' p) as [-> | Hne]; [|left; reflexivity].
        right. assert (id' = id) by (apply (pending_only st id id' p); assumption).
        subst id'. split; [exact Hpend|]. exists o.
        split; [split; [exact Hid | reflexivity] | reflexivity].
    + destruct (truthy (get_prop_opt response "method")); cbn [fst].
      * exists [ELog DEBUG "Received response"; ELog DEBUG "Received notification";
                EEmitNotification response].
        split; [cbn; rewrite <- !app_assoc; reflexivity|]. split; [reflexivity|].
        left. reflexivity.
      * exists [ELog DEBUG "Received response"]. repeat split. left. reflexivity.
  - exists [ELog DEBUG "Received response"]. repeat split. left. reflexivity.
Qed.

Lemma handleLine_calls (st : Client) (line : text) (id : Z) (p : Promise) :
  Inv st -> issued id p st = true ->
  exists es,
    effects (handleLine parse st line) = effects st ++ es
    /\ serverName (handleLine parse st line) = serverName st
    /\ (calls_on p es = []
        \/ (pendingRequests st !! id = Some p
            /\ exists response o,
                 parse (trim line) = Some response
                 /\ answers id (serverName st) response o
                 /\ calls_on p es = [o])).
Proof.
  intros I Hi. unfold handleLine.
  destruct (nonempty (trim line));
    [|exists []; rewrite app_nil_r; repeat split; left; reflexivity].
  destruct (parse (trim line)) as [response|] eqn:Hparse.
  - destruct (handleResponse_calls response st id p I Hi) as (es & He & Hn & Hcase).
    destruct (handleResponse response st) as [st' threw]. cbn [fst] in *.
    assert (Hcase' : calls_on p es = []
                     \/ (pendingRequests st !! id = Some p
                         /\ exists response0 o,
                              Some response = Some response0
                              /\ answers id (serverName st) response0 o
                              /\ calls_on p es = [o])).
    { destruct Hcase as [H | (Hp & o & Ha & Hc)]; [left; exact H|].
      right. split; [exact Hp|]. exists response, o. auto. }
    destruct threw.
    + exists (es ++ [ELog ERROR "Failed to parse response"]).
      split; [cbn; rewrite He, app_assoc; reflexivity|]. split; [exact Hn|].
      rewrite calls_on_app. cbn [calls_on]. rewrite app_nil_r. exact Hcase'.
    + exists es. auto.
  - exists [ELog ERROR "Failed to parse response"]. repeat split. left. reflexivity.
Qed.

(** The loop of [handleStdout] and the waiter of a request: at most one of
    the lines settles it, and that line answers the request. *)
Lemma handleLines_calls (lines : list text) (id : Z) (p : Promise) :
  forall st, Inv st -> issued id p st = true ->
  exists es,
    effects (fold_left (handleLine parse) lines st) = effects st ++ es
    /\ (calls_on p es = []
        \/ (pendingRequests st !! id = Some p
            /\ exists line response o,
                 In line lines
                 /\ parse (trim line) = Some response
                 /\ answers id (serverName st) response o
                 /\ calls_on p es = [o])).
Proof.
  induction lines as [|l lines IH]; intros st I Hi.
  - exists []. rewrite app_nil_r. split; [reflexivity | left; reflexivity].
  - cbn [fold_left].
    destruct (handleLine_calls st l id p I Hi) as (es1 & He1 & Hn1 & Hcase1).
    pose proof (inv_handleLine st l I) as I1.
    assert (Hi1 : issued id p (handleLine parse st l) = true)
      by (rewrite (issued_effects id p st _ es1 He1), Hi; reflexivity).
    destruct (IH _ I1 Hi1) as (es2 & He2 & Hcase2).
    exists (es1 ++ es2).
    split; [rewrite He2, He1, app_assoc; reflexivity|].
    rewrite calls_on_app.
    assert (Hc1 : calls_on p (effects (handleLine parse st l))
                  = calls_on p (effects st) ++ calls_on p es1)
      by (rewrite He1; apply calls_on_app).
    destruct Hcase1 as [H1 | (Hp & response & o & Hparse & Ha & H1)];
      destruct Hcase2 as [H2 | (Hp2 & line & response2 & o2 & Hin & Hparse2 & Ha2 & H2)];
      rewrite H1, H2.
    + left. reflexivity.
    + right. rewrite H1, app_nil_r in Hc1.
      apply (pending_unsettled _ id p I1 Hi1) in Hp2. rewrite Hc1 in Hp2.
      apply (pending_unsettled st id p I Hi) in Hp2.
      split; [exact Hp2|]. exists line, response2, o2.
      rewrite Hn1 in Ha2.
      split; [right; exact Hin|]. split; [exact Hparse2|].
      split; [exact Ha2 | reflexivity].
    + right. split; [exact Hp|]. exists l, response, o.
      split; [left; reflexivity|]. split; [exact Hparse|].
      split; [exact Ha | reflexivity].
    + exfalso. apply (pending_unsettled _ id p I1 Hi1) in Hp2.
      rewrite Hc1, H1 in Hp2. destruct (calls_on p (effects st)); discriminate Hp2.
Qed.

(** Every call that a step makes on the waiter of a request has its cause
    in that step, and a step makes at most one. *)
Lemma step_cause (st : Client) (ev : Event) (id : Z) (p : Promise) :
  Inv st -> issued id p st = true ->
  calls_on p (effects (step parse st ev)) = calls_on p (effects st)
  \/ exists o,
       calls_on p (effects (step parse st ev)) = calls_on p (effects st) ++ [o]
       /\ cause parse st ev id p o.
Proof.
  intros I Hi.
  pose proof (issued_not_new st id p I Hi) as Hnew.
  pose proof (fun id' => pending_only st id id' p I Hi) as Honly.
  assert (Hfor : forall c, known_foreign c st -> Nat.eqb c p = false).
  { intros c Hc. apply Nat.eqb_neq. apply (issued_not_foreign st id p c I Hi Hc). }
  destruct ev as [| name arguments_ | | uri | | q | data | | w ok | t | |];
    cbn [step].
  - left. unfold listTools, when_initialized. destruct (negb (initialized st)).
    + apply (calls_same p st _ [EThrow (ErrNotInitialized (serverName st))]);
        reflexivity.
    + apply request_calls, Hnew.
  - left. unfold callTool, when_initialized. destruct (negb (initialized st)).
    + apply (calls_same p st _ [EThrow (ErrNotInitialized (serverName st))]);
        reflexivity.
    + rewrite request_calls by exact Hnew.
      apply (calls_same p st _ [ELog DEBUG "Calling tool"]); reflexivity.
  - left. unfold listResources, when_initialized. destruct (negb (initialized st)).
    + apply (calls_same p st _ [EThrow (ErrNotInitialized (serverName st))]);
        reflexivity.
    + apply request_calls, Hnew.
  - left. unfold readResource, when_initialized. destruct (negb (initialized st)).
    + apply (calls_same p st _ [EThrow (ErrNotInitialized (serverName st))]);
        reflexivity.
    + apply request_calls, Hnew.
  - unfold disconnect. destruct (initialized st) eqn:Hinit.
    + left. apply request_calls, Hnew.
    + destruct (cleanup_calls st id p Honly) as [[_ Hc] | [_ Hc]]; [|left; exact Hc].
      right. eexists. split; [exact Hc|].
      cbn [cause runs_cleanup]. rewrite Hinit. split; reflexivity.
  - unfold resume. destruct (awaiting st !! q) as [k|] eqn:Hk; [|left; reflexivity].
    destruct (outcome q st) as [o|] eqn:Ho; [|left; reflexivity].
    set (st0 := set_awaiting (delete q (awaiting st)) st).
    destruct k as [c | c | | | | |]; cbn [resume_with].
    + left. destruct o as [v | e].
      * pose proof (sendNotification_calls "notifications/initialized" st0 p Hnew) as H.
        destruct (sendNotification "notifications/initialized" st0) as [q' st1].
        exact H.
      * apply (calls_same p st _ [ESettle c (Rejected e)]); [reflexivity|].
        cbn. rewrite Hfor; [reflexivity|]. right. left. exists q. left. exact Hk.
    + left. assert (Hc : Nat.eqb c p = false)
        by (apply Hfor; right; left; exists q; right; exact Hk).
      destruct o as [v | e].
      * apply (calls_same p st _
                 [ELog DEBUG "Connection initialized";
                  ELog INFO "initialized successfully";
                  ESettle c (Resolved JUndefined)]);
          [cbn; rewrite <- !app_assoc; reflexivity|].
        cbn. rewrite Hc. reflexivity.
      * apply (calls_same p st _ [ESettle c (Rejected e)]); [reflexivity|].
        cbn. rewrite Hc. reflexivity.
    + left. apply (calls_same p st _ [EReturn q (listTools_return o)]); reflexivity.
    + left. apply (calls_same p st _ [EReturn q (result_return o)]); reflexivity.
    + left. apply (calls_same p st _ [EReturn q (listResources_return o)]);
        reflexivity.
    + left. apply (calls_same p st _ [EReturn q (result_return o)]); reflexivity.
    + set (s := match o with
                | Resolved _ => log DEBUG "Shutdown request sent" st0
                | Rejected _ => log ERROR "Error during shutdown" st0
                end).
      assert (Hs : calls_on p (effects s) = calls_on p (effects st)
                   /\ pendingRequests s = pendingRequests st
                   /\ serverName s = serverName st).
      { subst s. destruct o; repeat split;
          cbn [log emit set_effects effects]; rewrite calls_on_app;
          apply app_nil_r. }
      destruct Hs as (Hcs & Hps & Hns).
      assert (Honly' : forall id', pendingRequests s !! id' = Some p -> id' = id)
        by (intros id'; rewrite Hps; apply Honly).
      destruct (cleanup_calls s id p Honly') as [[_ Hc] | [_ Hc]];
        rewrite Hcs in Hc; [|left; exact Hc].
      right. eexists. split; [exact Hc|].
      cbn [cause runs_cleanup]. rewrite Hk, Ho, Hns. split; reflexivity.
  - destruct (handlers st); [|left; reflexivity].
    unfold handleStdout, handleText.
    set (lines := removelast (split (buffer st ++ toString data))).
    set (s0 := set_buffer _ st).
    assert (I0 : Inv s0) by (subst s0; plain (@nil Effect)).
    destruct (handleLines_calls lines id p s0 I0 Hi) as (es & He & Hcase).
    destruct Hcase as [Hc | (_ & line & response & o & Hin & Hparse & Ha & Hc)].
    + left. apply (calls_same p st _ es); assumption.
    + right. exists o. split; [apply (calls_one p st _ es); assumption|].
      cbn [cause]. exists line, response. auto.
  - left. destruct (handlers st); [|reflexivity].
    apply (calls_same p st _ [ELog DEBUG "stderr"]); reflexivity.
  - destruct (take_out write_eqb w (writes st)) as [rest|] eqn:Ht; [|left; reflexivity].
    destruct (take_out_In write_eqb w (writes st) rest write_eqb_eq Ht) as (Hin & _).
    destruct w as [id' p' | c]; destruct ok; cbn [write_callback].
    + left. reflexivity.
    + destruct (Nat.eqb_spec p' p) as [-> | Hne].
      * assert (id' = id).
        { apply (inv_inj st I id' p id p); auto. apply (inv_write st I), Hin. }
        subst id'. right. eexists. split.
        -- apply (calls_one p st _ [ESettle p (Rejected (ErrWrite (serverName st)))]);
             [reflexivity|]. cbn. rewrite Nat.eqb_refl. reflexivity.
        -- cbn [cause]. auto.
      * left. apply (calls_same p st _
                       [ESettle p' (Rejected (ErrWrite (serverName st)))]);
          [reflexivity|]. cbn. apply Nat.eqb_neq in Hne. rewrite Hne. reflexivity.
    + left. apply (calls_same p st _ [ESettle c (Resolved JUndefined)]);
        [reflexivity|]. cbn. rewrite Hfor; [reflexivity|]. right. right. exact Hin.
    + left. apply (calls_same p st _ [ESettle c (Rejected (ErrNotify (serverName st)))]);
        [reflexivity|]. cbn. rewrite Hfor; [reflexivity|]. right. right. exact Hin.
  - destruct (take_out timer_eqb t (timers st)) as [rest|] eqn:Ht; [|left; reflexivity].
    destruct (take_out_In timer_eqb t (timers st) rest timer_eqb_eq Ht) as (Hin & _).
    destruct t as [id' p'|]; cbn [timer_callback].
    + change (pendingRequests (set_timers rest st)) with (pendingRequests st).
      destruct (pendingRequests st !! id'); [|left; reflexivity].
      destruct (Nat.eqb_spec p' p) as [-> | Hne].
      * assert (id' = id).
        { apply (inv_inj st I id' p id p); auto. apply (inv_timer st I), Hin. }
        subst id'. right. eexists. split.
        -- apply (calls_one p st _
                    [ESettle p (Rejected (ErrTimeout id (serverName st)))]);
             [reflexivity|]. cbn. rewrite Nat.eqb_refl. reflexivity.
        -- cbn [cause]. auto.
      * left. apply (calls_same p st _
                       [ESettle p' (Rejected (ErrTimeout id' (serverName st)))]);
          [reflexivity|]. cbn. apply Nat.eqb_neq in Hne. rewrite Hne. reflexivity.
    + left. unfold force_kill. destruct (_ && _); [|reflexivity].
      unfold kill. cbn [child log emit set_effects set_timers].
      destruct (child st) as [c|]; [destruct (exited c)|].
      * apply (calls_same p st _ [ELog WARN "Force killing process";
                                  EKill SIGKILL false]);
          [cbn; rewrite <- !app_assoc; reflexivity | reflexivity].
      * apply (calls_same p st _ [ELog WARN "Force killing process";
                                  EKill SIGKILL true]);
          [cbn; rewrite <- !app_assoc; reflexivity | reflexivity].
      * apply (calls_same p st _ [ELog WARN "Force killing process";
                                  EKill SIGKILL false]);
          [cbn; rewrite <- !app_assoc; reflexivity | reflexivity].
  - unfold on_exit. destruct (handlers st) eqn:Hh; [|left; reflexivity].
    destruct (child st) as [c|] eqn:Hch; [|left; reflexivity].
    destruct (exited c) eqn:Hex; [left; reflexivity|].
    set (s := log INFO "exited" _).
    assert (Hcs : calls_on p (effects s) = calls_on p (effects st))
      by (subst s; cbn [log emit set_effects set_child effects];
          rewrite calls_on_app; apply app_nil_r).
    destruct (cleanup_calls s id p Honly) as [[_ Hc] | [_ Hc]];
      rewrite Hcs in Hc; [|left; exact Hc].
    right. eexists. split; [exact Hc|].
    cbn [cause runs_cleanup]. rewrite Hh, Hch, Hex. split; reflexivity.
  - left. unfold on_error. destruct (handlers st) as [c|] eqn:Hh; [|reflexivity].
    apply (calls_same p st _ [ELog ERROR "process error"; ESettle c (Rejected ErrProcess)]);
      [cbn; rewrite <- !app_assoc; reflexivity|].
    cbn. rewrite Hfor; [reflexivity|]. left. exact Hh.
Qed.

Lemma handleResponse_matching (response : JSValue) (st : Client) (id : Z)
  (p : Promise) :
  get_prop response "id" = Some (JNum id) ->
  id <> 0 ->
  pendingRequests st !! id = Some p ->
  handleResponse response st
  = (settle p
       (if truthy (get_prop_opt response "error")
        then Rejected (ErrRemote (serverName st) (get_prop_opt response "error"))
        else Resolved response)
       (set_pendingRequests (delete id (pendingRequests st))
          (log DEBUG "Received response" st)), false).
Proof.
  intros Hid Hnz Hp. unfold handleResponse. rewrite Hid.
  cbn [truthy]. destruct (Z.eqb_spec id 0) as [|_]; [contradiction|].
  cbn [negb find_pending log emit set_effects pendingRequests]. rewrite Hp.
  cbv zeta. destruct (truthy (get_prop_opt response "error")); reflexivity.
Qed.

Lemma awaiting_cleanup (st : Client) : awaiting (cleanup st) = awaiting st.
Proof.
  unfold cleanup, kill. destruct (process st); [|reflexivity].
  destruct (child st) as [c|]; [destruct (exited c)|]; reflexivity.
Qed.

(** C1 (amended).  Take a connection from [connect] on, through any sequence
    of events that has given out at most 2^53 ids (up to there the counter
    of the code, a double, and the integer of the model agree), and a request
    that [sendRequest] accepted (id [id], waiter [p]).  At most one outcome
    reaches the waiter through the pending table (a matching response, the
    timeout, the rejection at teardown); every call on the waiter is one of
    these or the rejection by the callback of a failed write; once the waiter
    is settled the id is out of the table; and once the request's timer has
    fired the waiter is settled, by one of these four outcomes.  Whatever
    happens next makes at most one call on the waiter, and only for a cause
    that is the request's own: a complete line of stdout whose message carries
    the request's id (the waiter is resolved with that message, or rejected
    with its [error]), the request's own timer, the callback of the request's
    own write reporting an error, or a run of [cleanup].  A request made
    while there is no stdin is rejected at once and does not enter the
    table. *)
Theorem request_outcomes (cfg : Config) (name : string) (sp : SpawnResult)
  (evs : list Event) (id : Z) (p : Promise) :
  let st := run parse (connect sp (constructor cfg name)) evs in
  requestId st <= 2 ^ 53 ->
  issued id p st = true ->
  (table_count p st <= 1)%nat
  /\ forallb request_outcome (calls_on p (effects st)) = true
  /\ (outcome p st <> None -> pendingRequests st !! id = None)
  /\ (armed id p st = false ->
      exists o, outcome p st = Some o /\ request_outcome o = true)
  /\ (forall ev,
        calls_on p (effects (step parse st ev)) = calls_on p (effects st)
        \/ exists o,
             calls_on p (effects (step parse st ev)) = calls_on p (effects st) ++ [o]
             /\ cause parse st ev id p o)
  /\ (forall r,
        has_stdin st = false ->
        outcome (fst (sendRequest r st)) (snd (sendRequest r st))
        = Some (Rejected (ErrNoStdin (serverName st)))
        /\ pendingRequests (snd (sendRequest r st)) = pendingRequests st).
Proof.
  intros st _ Hip.
  assert (I : Inv st) by apply inv_run, inv_connect, inv_constructor.
  split; [|split; [|split; [|split; [|split]]]].
  - unfold table_count.
    destruct (inv_phase st I id p Hip) as [(_ & Hc & _) | (_ & _ & Hcount & _)].
    + rewrite Hc. cbn. lia.
    + exact Hcount.
  - destruct (inv_phase st I id p Hip) as [(_ & Hc & _) | (_ & _ & _ & Hall)].
    + rewrite Hc. reflexivity.
    + exact Hall.
  - unfold outcome.
    destruct (inv_phase st I id p Hip) as [(_ & Hc & _) | (Hn & _)].
    + rewrite Hc. intros Hne. contradiction.
    + intros _. exact Hn.
  - unfold outcome.
    destruct (inv_phase st I id p Hip) as [(_ & _ & Harm) | (_ & Hc & _ & Hall)].
    + intros Hoff. apply armed_In in Harm. congruence.
    + intros _. destruct (calls_on p (effects st)) as [|o calls]; [contradiction|].
      exists o. split; [reflexivity|]. cbn in Hall. apply andb_prop in Hall. apply Hall.
  - intros ev. apply step_cause; assumption.
  - intros r Hno. unfold sendRequest, new_promise.
    change (has_stdin (set_nextPromise (S (nextPromise st)) st)) with (has_stdin st).
    rewrite Hno. cbn [negb fst snd]. split; [|reflexivity].
    unfold outcome. cbn [settle emit set_effects effects set_nextPromise].
    rewrite calls_on_app, (inv_fresh st I) by lia.
    cbn [calls_on app]. rewrite Nat.eqb_refl. reflexivity.
Qed.

End Requests.

(** The tools/call request that is never answered. *)
Lemma request_outcomes_witness :
  MCPClient.requestId
    (MCPClient.run Samples.parse
       (MCPClient.connect (MCPClient.Spawned 4242 true true true)
          (MCPClient.constructor Samples.filesystem "filesystem"))
       Samples.unanswered) <= 2 ^ 53
  /\ Props.issued 2 3
       (MCPClient.run Samples.parse
          (MCPClient.connect (MCPClient.Spawned 4242 true true true)
             (MCPClient.constructor Samples.filesystem "filesystem"))
          Samples.unanswered) = true
  /\ (Props.table_count 3
        (MCPClient.run Samples.parse
           (MCPClient.connect (MCPClient.Spawned 4242 true true true)
              (MCPClient.constructor Samples.filesystem "filesystem"))
           Samples.unanswered) <= 1)%nat.
Proof.
  assert (Hb : MCPClient.requestId
                 (MCPClient.run Samples.parse
                    (MCPClient.connect (MCPClient.Spawned 4242 true true true)
                       (MCPClient.constructor Samples.filesystem "filesystem"))
                    Samples.unanswered) <= 2 ^ 53)
    by (apply Z.leb_le; vm_compute; reflexivity).
  assert (H : Props.issued 2 3
                (MCPClient.run Samples.parse
                   (MCPClient.connect (MCPClient.Spawned 4242 true true true)
                      (MCPClient.constructor Samples.filesystem "filesystem"))
                   Samples.unanswered) = true) by (vm_compute; reflexivity).
  split; [exact Hb|]. split; [exact H|].
  exact (proj1 (request_outcomes Samples.parse Samples.filesystem "filesystem"
                  (MCPClient.Spawned 4242 true true true) Samples.unanswered
                  2 3%nat Hb H)).
Defined.

(** C1 (as stated) fails.  A tools/call request is accepted by [sendRequest]
    and the write fails: the callback of the write takes the id out of the
    table and rejects the waiter.  When the timer has fired the request is
    over with one call on its waiter, which is none of the three outcomes
    (no response, no timeout, no teardown). *)
Lemma request_rejected_by_write_failure :
  Props.issued 2 3 Samples.write_failed = true
  /\ Props.armed 2 3 Samples.write_failed = false
  /\ MCPClient.pendingRequests Samples.write_failed !! 2 = None
  /\ MCPClient.calls_on 3 (MCPClient.effects Samples.write_failed)
     = [MCPClient.Rejected (MCPClient.ErrWrite "filesystem")]
  /\ Props.from_table (MCPClient.Rejected (MCPClient.ErrWrite "filesystem")) = false.
Proof. vm_compute. repeat split; reflexivity. Qed.

(* ===================================================================== *)
(** * A handshake that fails *)
(* ===================================================================== *)

Section Handshake.
Import JS MCPClient Props.

Variable parse : text -> option JSValue.

Lemma take_out_Some {A} (eqb : A -> A -> bool) (x : A) (l : list A) :
  (forall a b, eqb a b = true <-> a = b) ->
  In x l -> exists rest, take_out eqb x l = Some rest.
Proof.
  intros Heqb. induction l as [|y l IH]; intros Hin; [contradiction|].
  cbn [take_out]. destruct (eqb x y) eqn:Hxy; [eexists; reflexivity|].
  destruct Hin as [-> | Hin].
  - assert (eqb x x = true) by (apply Heqb; reflexivity). congruence.
  - destruct (IH Hin) as [rest ->]. eexists; reflexivity.
Qed.

Lemma only_rejections_calls (es : list Effect) (c : Promise) :
  only_rejections es = true -> forallb is_rejection (calls_on c es) = true.
Proof.
  induction es as [|e es IH]; intros H; [reflexivity|].
  cbn [only_rejections forallb] in H. apply andb_prop in H as [He H].
  destruct e as [| | | | p o | | | |]; cbn [calls_on]; try (apply IH; exact H).
  destruct (Nat.eqb p c); [|apply IH; exact H].
  destruct o; [discriminate He|]. cbn [forallb is_rejection andb]. apply IH, H.
Qed.

Lemma only_rejections_closed (s : Client) (l : list (Z * Promise)) :
  only_rejections (map (reject_closed s) l) = true.
Proof. induction l as [|e l IH]; [reflexivity | exact IH]. Qed.

Lemma only_rejections_cleanup (st : Client) :
  exists es, effects (cleanup st) = effects st ++ es /\ only_rejections es = true.
Proof.
  destruct (cleanup_effects st) as (ks & Hks & He).
  eexists. split; [exact He|].
  unfold only_rejections. rewrite !forallb_app.
  fold (only_rejections (map (reject_closed st) (map_to_list (pendingRequests st)))).
  rewrite only_rejections_closed.
  destruct Hks as [-> | [delivered ->]]; reflexivity.
Qed.

Lemma cleanup_same (st : Client) :
  handlers (cleanup st) = handlers st
  /\ writes (cleanup st) = writes st
  /\ serverName (cleanup st) = serverName st.
Proof.
  unfold cleanup, kill. destruct (process st); [|repeat split].
  destruct (child st) as [c|]; [destruct (exited c)|]; repeat split.
Qed.

Lemma handleResponse_same (response : JSValue) (st : Client) :
  awaiting (fst (handleResponse response st)) = awaiting st
  /\ initialized (fst (handleResponse response st)) = initialized st
  /\ handlers (fst (handleResponse response st)) = handlers st
  /\ writes (fst (handleResponse response st)) = writes st
  /\ serverName (fst (handleResponse response st)) = serverName st.
Proof.
  unfold handleResponse. destruct (get_prop response "id") as [idv|]; [|repeat split].
  cbv zeta.
  destruct (if truthy idv then find_pending idv _ else None) as [[id p]|];
    destruct (truthy _); repeat split.
Qed.

Lemma handleLine_same (st : Client) (line : text) :
  awaiting (handleLine parse st line) = awaiting st
  /\ initialized (handleLine parse st line) = initialized st
  /\ handlers (handleLine parse st line) = handlers st
  /\ writes (handleLine parse st line) = writes st
  /\ serverName (handleLine parse st line) = serverName st.
Proof.
  unfold handleLine. destruct (nonempty _); [|repeat split].
  destruct (parse _) as [response|]; [|repeat split].
  pose proof (handleResponse_same response st) as H.
  destruct (handleResponse response st) as [st' threw]. cbn [fst] in H.
  destruct threw; exact H.
Qed.

Lemma handleText_same (chunk : text) (st : Client) :
  awaiting (handleText parse chunk st) = awaiting st
  /\ initialized (handleText parse chunk st) = initialized st
  /\ handlers (handleText parse chunk st) = handlers st
  /\ writes (handleText parse chunk st) = writes st
  /\ serverName (handleText parse chunk st) = serverName st.
Proof.
  unfold handleText.
  set (lines := removelast _). set (b := List.last _ _).
  change (awaiting st) with (awaiting (set_buffer b st)).
  change (initialized st) with (initialized (set_buffer b st)).
  change (handlers st) with (handlers (set_buffer b st)).
  change (writes st) with (writes (set_buffer b st)).
  change (serverName st) with (serverName (set_buffer b st)).
  generalize (set_buffer b st). clearbody lines.
  induction lines as [|l lines IH]; intros s; [repeat split|].
  cbn [fold_left].
  destruct (IH (handleLine parse s l)) as (H1 & H2 & H3 & H4 & H5).
  destruct (handleLine_same s l) as (G1 & G2 & G3 & G4 & G5).
  repeat split; congruence.
Qed.

(** ** The invariant of the handshake *)

Lemma hs_frame (st st' : Client) (es : list Effect) :
  Handshake st ->
  (forall q k, awaiting st' !! q = Some k -> awaiting st !! q = Some k) ->
  handlers st' = handlers st ->
  (initialized st' = true -> initialized st = true) ->
  (forall c', In (WNotification c') (writes st') -> In (WNotification c') (writes st)) ->
  (forall q, In (WNotification q) (writes st) ->
             In (WNotification q) (writes st') \/ calls_on q es <> []) ->
  effects st' = effects st ++ es ->
  (forall c, handlers st = Some c -> forallb is_rejection (calls_on c es) = true) ->
  Handshake st'.
Proof.
  intros H Haw Hh Hi Hw1 Hw2 Hes Hcalls.
  assert (Hat : forall q c, handshake_at st' q c -> handshake_at st q c).
  { intros q c [Hq | Hq]; [left | right]; apply Haw, Hq. }
  constructor.
  - intros q c Hq. destruct (hs_cont st H q c (Hat q c Hq)) as (Hc & Hini & Hrej).
    split; [congruence|]. split.
    + destruct (initialized st') eqn:E; [|reflexivity].
      rewrite (Hi eq_refl) in Hini. discriminate.
    + rewrite Hes, calls_on_app, forallb_app, Hrej. apply Hcalls, Hc.
  - intros q q' c c' Hq Hq'. apply (hs_unique st H q q' c c'); apply Hat; assumption.
  - intros q c Hq.
    rewrite (issued_effects 1 q st st' es Hes), (hs_init st H q c (Haw _ _ Hq)).
    reflexivity.
  - intros c' Hin. rewrite Hh. apply (hs_writes st H), Hw1, Hin.
  - intros q c Hq Hc. rewrite Hes, calls_on_app in Hc.
    apply app_eq_nil in Hc as [Hc1 Hc2].
    destruct (Hw2 q (hs_notify st H q c (Haw _ _ Hq) Hc1)) as [Hin | Hne];
      [exact Hin | contradiction].
Qed.

(** A step that resolves nothing and leaves the writes and the awaiting
    methods alone. *)
Lemma hs_quiet (st st' : Client) (es : list Effect) :
  Handshake st ->
  awaiting st' = awaiting st ->
  handlers st' = handlers st ->
  (initialized st' = true -> initialized st = true) ->
  writes st' = writes st ->
  effects st' = effects st ++ es ->
  only_rejections es = true ->
  Handshake st'.
Proof.
  intros H Haw Hh Hi Hw Hes Hrej.
  apply (hs_frame st st' es); try assumption.
  - intros q k. rewrite Haw. auto.
  - intros c'. rewrite Hw. auto.
  - intros q. rewrite Hw. auto.
  - intros c _. apply only_rejections_calls, Hrej.
Qed.

Ltac quiet es :=
  eapply (hs_quiet _ _ es);
  [ eassumption | reflexivity | reflexivity | intros E; exact E | reflexivity
  | cbn; rewrite <- ?app_assoc, ?app_nil_r; reflexivity
  | reflexivity ].

Lemma hs_none (st st' : Client) :
  Handshake st ->
  (forall q c, ~ handshake_at st' q c) ->
  handlers st' = handlers st ->
  (forall c', In (WNotification c') (writes st') -> In (WNotification c') (writes st)) ->
  Handshake st'.
Proof.
  intros H Hno Hh Hw. constructor.
  - intros q c Hq. destruct (Hno q c Hq).
  - intros q q' c c' Hq. destruct (Hno q c Hq).
  - intros q c Hq. destruct (Hno q c (or_introl Hq)).
  - intros c' Hin. rewrite Hh. apply (hs_writes st H), Hw, Hin.
  - intros q c Hq. destruct (Hno q c (or_intror Hq)).
Qed.

Lemma hs_kill (sig : Signal) (st : Client) : Handshake st -> Handshake (kill sig st).
Proof.
  intros H. unfold kill. destruct (child st) as [c|].
  - destruct (exited c).
    + quiet [EKill sig false].
    + quiet [EKill sig true].
  - quiet [EKill sig false].
Qed.

Lemma hs_log (lvl : LogLevel) (msg : string) (st : Client) :
  Handshake st -> Handshake (log lvl msg st).
Proof. intros H. quiet [ELog lvl msg]. Qed.

Lemma hs_cleanup (st : Client) : Handshake st -> Handshake (cleanup st).
Proof.
  intros H. destruct (only_rejections_cleanup st) as (es & He & Hrej).
  destruct (cleanup_same st) as (Hh & Hw & _).
  apply (hs_quiet st _ es); try assumption.
  - apply awaiting_cleanup.
  - intros E. discriminate E.
Qed.

Lemma hs_request (k : Cont) (method : string) (params : JSValue) (st : Client) :
  Handshake st ->
  initialized st = true ->
  is_plain k = true ->
  Handshake (request k method params st).
Proof.
  intros H Hi Hk.
  assert (Haw : awaiting (request k method params st)
                = <[nextPromise st := k]> (awaiting st)).
  { unfold request, getNextRequestId, sendRequest, new_promise.
    destruct (negb (has_stdin _)); reflexivity. }
  apply (hs_none st); [exact H | | |].
  - intros q c Hq. unfold handshake_at in Hq. rewrite Haw in Hq.
    destruct (decide (nextPromise st = q)) as [<- | Hne].
    + rewrite lookup_insert_eq in Hq.
      destruct Hq as [Hq | Hq]; injection Hq as ->; discriminate Hk.
    + rewrite lookup_insert_ne in Hq by exact Hne.
      destruct (hs_cont st H q c Hq) as (_ & Hf & _). congruence.
  - unfold request, getNextRequestId, sendRequest, new_promise.
    destruct (negb (has_stdin _)); reflexivity.
  - intros c'. unfold request, getNextRequestId, sendRequest, new_promise.
    destruct (negb (has_stdin _)); cbn; [auto|].
    intros Hin. apply in_app_or in Hin as [Hin | [Hin | []]];
      [exact Hin | discriminate].
Qed.

Lemma hs_when_initialized (body : Client -> Client) (st : Client) :
  Handshake st ->
  (initialized st = true -> Handshake (body st)) ->
  Handshake (when_initialized body st).
Proof.
  intros H Hb. unfold when_initialized. destruct (initialized st); cbn [negb].
  - apply Hb. reflexivity.
  - quiet [EThrow (ErrNotInitialized (serverName st))].
Qed.

Lemma hs_handleResponse (response : JSValue) (st : Client) :
  Inv st -> Handshake st -> Handshake (fst (handleResponse response st)).
Proof.
  intros I H. unfold handleResponse.
  destruct (get_prop response "id") as [idv|]; cbn [fst];
    [|quiet [ELog DEBUG "Received response"]].
  cbv zeta.
  destruct (if truthy idv then find_pending idv _ else None) as [[id p]|] eqn:Hfind.
  - assert (Hp : pendingRequests st !! id = Some p).
    { destruct (truthy idv); [|discriminate].
      apply (find_pending_Some idv (log DEBUG "Received response" st)), Hfind. }
    assert (Hfor : forall o c, handlers st = Some c ->
              forallb is_rejection
                (calls_on c [ELog DEBUG "Received response"; ESettle p o]) = true).
    { intros o c Hc. cbn [calls_on].
      destruct (Nat.eqb_spec p c) as [-> | _]; [|reflexivity].
      exfalso. apply (issued_not_foreign st id c c I); auto.
      - apply (inv_pending st I), Hp.
      - left. exact Hc. }
    destruct (truthy (get_prop_opt response "error")); cbn [fst].
    + apply (hs_frame st _
               [ELog DEBUG "Received response";
                ESettle p (Rejected (ErrRemote (serverName st)
                                       (get_prop_opt response "error")))]); auto.
      cbn. rewrite <- app_assoc. reflexivity.
    + apply (hs_frame st _ [ELog DEBUG "Received response";
                            ESettle p (Resolved response)]); auto.
      cbn. rewrite <- app_assoc. reflexivity.
  - destruct (truthy (get_prop_opt response "method")); cbn [fst].
    + quiet [ELog DEBUG "Received response"; ELog DEBUG "Received notification";
             EEmitNotification response].
    + quiet [ELog DEBUG "Received response"].
Qed.

Lemma hs_handleLine (st : Client) (line : text) :
  Inv st -> Handshake st -> Handshake (handleLine parse st line).
Proof.
  intros I H. unfold handleLine. destruct (nonempty _); [|exact H].
  destruct (parse _) as [response|]; [|apply hs_log, H].
  pose proof (hs_handleResponse response st I H) as H'.
  destruct (handleResponse response st) as [st' threw]. cbn [fst] in H'.
  destruct threw; [apply hs_log, H' | exact H'].
Qed.

Lemma hs_handleText (chunk : text) (st : Client) :
  Inv st -> Handshake st -> Handshake (handleText parse chunk st).
Proof.
  intros I H. unfold handleText.
  assert (G : forall lines st0, Inv st0 -> Handshake st0 ->
                Handshake (fold_left (handleLine parse) lines st0)).
  { induction lines as [|l lines IH]; intros st0 I0 H0; [exact H0|].
    cbn [fold_left]. apply IH; [apply inv_handleLine, I0 | apply hs_handleLine; assumption]. }
  apply G.
  - eapply (inv_plain _ _ []); try eassumption; try reflexivity.
    cbn. rewrite app_nil_r. reflexivity.
  - quiet (@nil Effect).
Qed.

Lemma hs_write_step (w : Write) (ok : bool) (st : Client) (rest : list Write) :
  Handshake st ->
  take_out write_eqb w (writes st) = Some rest ->
  Handshake (write_callback w ok (set_writes rest st)).
Proof.
  intros H Htake.
  destruct (take_out_In write_eqb w (writes st) rest write_eqb_eq Htake)
    as (Hin & Hsub & Hkeep).
  assert (Hother : forall q, WNotification q <> w ->
                     In (WNotification q) (writes st) -> In (WNotification q) rest).
  { intros q Hne Hq. apply Hkeep; assumption. }
  destruct w as [id p | c]; destruct ok; cbn [write_callback].
  - apply (hs_frame st _ []); auto;
      try (cbn; rewrite app_nil_r; reflexivity);
      try (intros q Hq; left; apply Hother; [discriminate | exact Hq]).
  - apply (hs_frame st _ [ESettle p (Rejected (ErrWrite (serverName st)))]); auto;
      try (intros c _; apply only_rejections_calls; reflexivity);
      try (intros q Hq; left; apply Hother; [discriminate | exact Hq]).
  - apply (hs_frame st _ [ESettle c (Resolved JUndefined)]); auto.
    + intros q Hq. destruct (decide (q = c)) as [-> | Hne].
      * right. cbn. rewrite Nat.eqb_refl. discriminate.
      * left. apply Hother; [congruence | exact Hq].
    + intros c0 Hc0. cbn [calls_on].
      destruct (Nat.eqb_spec c c0) as [-> | _]; [|reflexivity].
      destruct (hs_writes st H c0 Hin Hc0).
  - apply (hs_frame st _ [ESettle c (Rejected (ErrNotify (serverName st)))]); auto.
    + intros q Hq. destruct (decide (q = c)) as [-> | Hne].
      * right. cbn. rewrite Nat.eqb_refl. discriminate.
      * left. apply Hother; [congruence | exact Hq].
    + intros c0 _. apply only_rejections_calls. reflexivity.
Qed.

Lemma hs_timer_step (t : Timer) (st : Client) (rest : list Timer) :
  Handshake st -> Handshake (timer_callback t (set_timers rest st)).
Proof.
  intros H. destruct t as [id p|]; cbn [timer_callback].
  - change (pendingRequests (set_timers rest st)) with (pendingRequests st).
    destruct (pendingRequests st !! id).
    + quiet [ESettle p (Rejected (ErrTimeout id (serverName st)))].
    + quiet (@nil Effect).
  - unfold force_kill. destruct (_ && _).
    + apply hs_kill, hs_log. quiet (@nil Effect).
    + quiet (@nil Effect).
Qed.

Lemma hs_resume (p : Promise) (st : Client) :
  Inv st -> Handshake st -> Handshake (resume p st).
Proof.
  intros I H. unfold resume.
  destruct (awaiting st !! p) as [k|] eqn:Hk; [|exact H].
  destruct (outcome p st) as [o|] eqn:Ho; [|exact H].
  set (st0 := set_awaiting (delete p (awaiting st)) st).
  assert (H0 : Handshake st0).
  { apply (hs_frame st _ []); auto.
    - intros q k'. apply lookup_delete_Some_old.
    - cbn. rewrite app_nil_r. reflexivity. }
  assert (Hgone : forall c, handshake_at st p c -> forall q c', ~ handshake_at st0 q c').
  { intros c Hp q c' Hq.
    assert (Hq' : handshake_at st q c').
    { destruct Hq as [Hq | Hq]; [left | right];
        apply (lookup_delete_Some_old p q _ (awaiting st)), Hq. }
    pose proof (hs_unique st H p q c c' Hp Hq') as <-.
    destruct Hq as [Hq | Hq]; cbn in Hq; rewrite lookup_delete_eq in Hq; discriminate. }
  destruct k as [c | c | | | | |]; cbn [resume_with].
  - pose proof (Hgone c (or_introl Hk)) as Hno.
    destruct (hs_cont st H p c (or_introl Hk)) as (Hc & Hini & Hrej).
    destruct o as [v | e].
    + unfold sendNotification, new_promise.
      change (has_stdin (set_nextPromise (S (nextPromise st0)) st0)) with (has_stdin st0).
      change (nextPromise st0) with (nextPromise st).
      destruct (inv_foreign st I c (or_introl Hc)) as [Hlt _].
      destruct (negb (has_stdin st0)); cbn [await].
      * constructor.
        -- intros q c' Hq. unfold handshake_at in Hq. cbn in Hq.
           destruct (decide (nextPromise st = q)) as [<- | Hne].
           ++ rewrite lookup_insert_eq in Hq.
              assert (c' = c) by (destruct Hq as [Hq | Hq]; congruence). subst c'.
              split; [exact Hc|]. split; [exact Hini|].
              cbn. rewrite calls_on_app, forallb_app, Hrej. cbn.
              destruct (Nat.eqb_spec (nextPromise st) c); [lia | reflexivity].
           ++ rewrite lookup_insert_ne in Hq by exact Hne. destruct (Hno q c' Hq).
        -- intros q q' c1 c2 Hq Hq'. unfold handshake_at in Hq, Hq'. cbn in Hq, Hq'.
           destruct (decide (nextPromise st = q)) as [<- | Hne].
           ++ destruct (decide (nextPromise st = q')) as [<- | Hne']; [reflexivity|].
              rewrite lookup_insert_ne in Hq' by exact Hne'. destruct (Hno q' c2 Hq').
           ++ rewrite lookup_insert_ne in Hq by exact Hne. destruct (Hno q c1 Hq).
        -- intros q c' Hq. cbn in Hq.
           destruct (decide (nextPromise st = q)) as [<- | Hne].
           ++ rewrite lookup_insert_eq in Hq. discriminate.
           ++ rewrite lookup_insert_ne in Hq by exact Hne.
              destruct (Hno q c' (or_introl Hq)).
        -- intros c' Hin. apply (hs_writes st H c' Hin).
        -- intros q c' Hq Hcalls. exfalso. cbn in Hq, Hcalls.
           destruct (decide (nextPromise st = q)) as [<- | Hne].
           ++ rewrite calls_on_app in Hcalls. cbn in Hcalls.
              rewrite Nat.eqb_refl in Hcalls.
              apply app_eq_nil in Hcalls as [_ Hcalls]. discriminate.
           ++ rewrite lookup_insert_ne in Hq by exact Hne.
              destruct (Hno q c' (or_intror Hq)).
      * constructor.
        -- intros q c' Hq. unfold handshake_at in Hq. cbn in Hq.
           destruct (decide (nextPromise st = q)) as [<- | Hne].
           ++ rewrite lookup_insert_eq in Hq.
              assert (c' = c) by (destruct Hq as [Hq | Hq]; congruence). subst c'.
              split; [exact Hc|]. split; [exact Hini|].
              cbn. rewrite <- app_assoc, calls_on_app, forallb_app, Hrej. reflexivity.
           ++ rewrite lookup_insert_ne in Hq by exact Hne. destruct (Hno q c' Hq).
        -- intros q q' c1 c2 Hq Hq'. unfold handshake_at in Hq, Hq'. cbn in Hq, Hq'.
           destruct (decide (nextPromise st = q)) as [<- | Hne].
           ++ destruct (decide (nextPromise st = q')) as [<- | Hne']; [reflexivity|].
              rewrite lookup_insert_ne in Hq' by exact Hne'. destruct (Hno q' c2 Hq').
           ++ rewrite lookup_insert_ne in Hq by exact Hne. destruct (Hno q c1 Hq).
        -- intros q c' Hq. cbn in Hq.
           destruct (decide (nextPromise st = q)) as [<- | Hne].
           ++ rewrite lookup_insert_eq in Hq. discriminate.
           ++ rewrite lookup_insert_ne in Hq by exact Hne.
              destruct (Hno q c' (or_introl Hq)).
        -- intros c' Hin. cbn in Hin |- *.
           apply in_app_or in Hin as [Hin | [Hin | []]].
           ++ apply (hs_writes st H c' Hin).
           ++ injection Hin as <-. rewrite Hc. intros [= E]. lia.
        -- intros q c' Hq Hcalls. cbn in Hq |- *.
           destruct (decide (nextPromise st = q)) as [<- | Hne].
           ++ apply in_or_app. right. left. reflexivity.
           ++ rewrite lookup_insert_ne in Hq by exact Hne.
              destruct (Hno q c' (or_intror Hq)).
    + apply (hs_none st0); auto.
  - pose proof (Hgone c (or_intror Hk)) as Hno.
    destruct o as [v | e]; apply (hs_none st0); auto.
  - quiet [EReturn p (listTools_return o)].
  - quiet [EReturn p (result_return o)].
  - quiet [EReturn p (listResources_return o)].
  - quiet [EReturn p (result_return o)].
  - apply hs_cleanup. destruct o; apply hs_log, H0.
Qed.

Lemma hs_step (st : Client) (ev : Event) :
  Inv st -> Handshake st -> Handshake (step parse st ev).
Proof.
  intros I H. destruct ev as [| tool arguments_ | | uri | | q | data | | w ok | t | |];
    cbn [step].
  - apply hs_when_initialized; [exact H|]. intros Hi. apply hs_request; auto.
  - apply hs_when_initialized; [exact H|]. intros Hi.
    apply hs_request; [apply hs_log, H | exact Hi | reflexivity].
  - apply hs_when_initialized; [exact H|]. intros Hi. apply hs_request; auto.
  - apply hs_when_initialized; [exact H|]. intros Hi. apply hs_request; auto.
  - unfold disconnect. destruct (initialized st) eqn:Hi.
    + apply hs_request; auto.
    + apply hs_cleanup, H.
  - apply hs_resume; assumption.
  - destruct (handlers st); [|exact H]. apply hs_handleText; assumption.
  - destruct (handlers st); [|exact H]. apply hs_log, H.
  - destruct (take_out write_eqb w (writes st)) as [rest|] eqn:Ht; [|exact H].
    apply hs_write_step; assumption.
  - destruct (take_out timer_eqb t (timers st)) as [rest|] eqn:Ht; [|exact H].
    apply hs_timer_step, H.
  - unfold on_exit. destruct (handlers st); [|exact H].
    destruct (child st) as [c|]; [|exact H]. destruct (exited c); [exact H|].
    apply hs_cleanup, hs_log. quiet (@nil Effect).
  - unfold on_error. destruct (handlers st) as [c|]; [|exact H].
    quiet [ELog ERROR "process error"; ESettle c (Rejected ErrProcess)].
Qed.

Lemma hs_run (evs : list Event) (st : Client) :
  Inv st -> Handshake st -> Handshake (run parse st evs).
Proof.
  revert st. induction evs as [|ev evs IH]; intros st I H; [exact H|].
  cbn [run fold_left]. apply IH; [apply inv_step, I | apply hs_step; assumption].
Qed.

Lemma hs_connect (cfg : Config) (name : string) (sp : SpawnResult) :
  Handshake (connect sp (constructor cfg name)).
Proof.
  assert (Hnone : forall st, awaiting st = ∅ -> writes st = [] -> Handshake st).
  { intros st Ha Hw. constructor.
    - intros q c [Hq | Hq]; rewrite Ha, lookup_empty in Hq; discriminate.
    - intros q q' c c' [Hq | Hq]; rewrite Ha, lookup_empty in Hq; discriminate.
    - intros q c Hq. rewrite Ha, lookup_empty in Hq. discriminate.
    - intros c'. rewrite Hw. intros [].
    - intros q c Hq. rewrite Ha, lookup_empty in Hq. discriminate. }
  destruct sp as [|pid i o e]; [apply Hnone; reflexivity|].
  destruct i; [|apply Hnone; reflexivity].
  destruct o; [|apply Hnone; reflexivity].
  destruct e; [|apply Hnone; reflexivity].
  set (st := connect (Spawned pid true true true) (constructor cfg name)).
  assert (Haw : awaiting st = <[1%nat := KInitialize 0%nat]> ∅) by reflexivity.
  assert (Hh : handlers st = Some 0%nat) by reflexivity.
  assert (Hi : initialized st = false) by reflexivity.
  assert (Hw : writes st = [WRequest 1 1%nat]) by reflexivity.
  assert (Hc : calls_on 0%nat (effects st) = []) by reflexivity.
  assert (Hiss : issued 1 1%nat st = true) by reflexivity.
  clearbody st.
  assert (Hat : forall q c, handshake_at st q c -> q = 1%nat /\ c = 0%nat).
  { intros q c Hq. unfold handshake_at in Hq. rewrite Haw in Hq.
    destruct (decide (1%nat = q)) as [<- | Hne].
    - rewrite lookup_insert_eq in Hq. split; [reflexivity|].
      destruct Hq as [Hq | Hq]; congruence.
    - rewrite lookup_insert_ne, lookup_empty in Hq by exact Hne.
      destruct Hq; discriminate. }
  constructor.
  - intros q c Hq. destruct (Hat q c Hq) as [-> ->].
    rewrite Hc. repeat split; assumption.
  - intros q q' c c' Hq Hq'.
    destruct (Hat q c Hq) as [-> _]. destruct (Hat q' c' Hq') as [-> _]. reflexivity.
  - intros q c Hq. destruct (Hat q c (or_introl Hq)) as [-> _]. exact Hiss.
  - intros c'. rewrite Hw. intros [Hin | []]. discriminate.
  - intros q c Hq. destruct (Hat q c (or_intror Hq)) as [-> ->].
    rewrite Haw, lookup_insert_eq in Hq. discriminate.
Qed.

(** ** What the steps leave alone *)

Lemma request_same (k : Cont) (method : string) (params : JSValue) (st : Client) :
  serverName (request k method params st) = serverName st.
Proof.
  unfold request, getNextRequestId, sendRequest, new_promise.
  destruct (negb (has_stdin _)); reflexivity.
Qed.

Lemma serverName_step (st : Client) (ev : Event) :
  serverName (step parse st ev) = serverName st.
Proof.
  destruct ev as [| tool arguments_ | | uri | | q | data | | w ok | t | |];
    cbn [step].
  - unfold listTools, when_initialized. destruct (negb _); [reflexivity|].
    apply request_same.
  - unfold callTool, when_initialized. destruct (negb _); [reflexivity|].
    rewrite request_same. reflexivity.
  - unfold listResources, when_initialized. destruct (negb _); [reflexivity|].
    apply request_same.
  - unfold readResource, when_initialized. destruct (negb _); [reflexivity|].
    apply request_same.
  - unfold disconnect. destruct (initialized st); [apply request_same|].
    apply cleanup_same.
  - unfold resume. destruct (awaiting st !! q) as [k|]; [|reflexivity].
    destruct (outcome q st) as [o|]; [|reflexivity].
    destruct k as [c | c | | | | |]; cbn [resume_with]; try reflexivity.
    + destruct o; [|reflexivity].
      unfold sendNotification, new_promise. destruct (negb (has_stdin _)); reflexivity.
    + destruct o; reflexivity.
    + destruct (cleanup_same
                  match o with
                  | Resolved _ =>
                      log DEBUG "Shutdown request sent"
                        (set_awaiting (delete q (awaiting st)) st)
                  | Rejected _ =>
                      log ERROR "Error during shutdown"
                        (set_awaiting (delete q (awaiting st)) st)
                  end) as (_ & _ & ->).
      destruct o; reflexivity.
  - destruct (handlers st); [|reflexivity]. apply handleText_same.
  - destruct (handlers st); reflexivity.
  - destruct (take_out write_eqb w (writes st)); [|reflexivity].
    destruct w; destruct ok; reflexivity.
  - destruct (take_out timer_eqb t (timers st)) as [rest|]; [|reflexivity].
    destruct t as [id p|]; cbn [timer_callback].
    + change (pendingRequests (set_timers rest st)) with (pendingRequests st).
      destruct (pendingRequests st !! id); reflexivity.
    + unfold force_kill. destruct (_ && _); [|reflexivity].
      unfold kill. cbn [child log emit set_effects set_timers].
      destruct (child st) as [c|]; [destruct (exited c)|]; reflexivity.
  - unfold on_exit. destruct (handlers st); [|reflexivity].
    destruct (child st) as [c|]; [|reflexivity]. destruct (exited c); [reflexivity|].
    match goal with |- serverName (cleanup ?s) = _ =>
      destruct (cleanup_same s) as (_ & _ & ->) end.
    reflexivity.
  - unfold on_error. destruct (handlers st); reflexivity.
Qed.

Lemma serverName_run (evs : list Event) (st : Client) :
  serverName (run parse st evs) = serverName st.
Proof.
  revert st. induction evs as [|ev evs IH]; intros st; [reflexivity|].
  cbn [run fold_left]. fold (run parse (step parse st ev) evs).
  rewrite IH. apply serverName_step.
Qed.

Lemma serverName_connect (cfg : Config) (name : string) (sp : SpawnResult) :
  serverName (connect sp (constructor cfg name)) = name.
Proof.
  destruct sp as [|pid i o e]; [reflexivity|].
  unfold connect, new_promise. destruct (negb (i && o && e)); [reflexivity|].
  unfold initialize, getNextRequestId, sendRequest, new_promise.
  destruct (negb (has_stdin _)); reflexivity.
Qed.

(** On a connection that is not initialized, only a method that goes on
    after its [await] changes what is awaited. *)
Lemma step_waiting (st : Client) (ev : Event) :
  initialized st = false ->
  (forall p, ev <> Resume p) ->
  awaiting (step parse st ev) = awaiting st
  /\ initialized (step parse st ev) = false.
Proof.
  intros Hi Hev.
  destruct ev as [| tool arguments_ | | uri | | q | data | | w ok | t | |];
    cbn [step].
  - unfold listTools, when_initialized. rewrite Hi. split; [reflexivity | exact Hi].
  - unfold callTool, when_initialized. rewrite Hi. split; [reflexivity | exact Hi].
  - unfold listResources, when_initialized. rewrite Hi. split; [reflexivity | exact Hi].
  - unfold readResource, when_initialized. rewrite Hi. split; [reflexivity | exact Hi].
  - unfold disconnect. rewrite Hi. split; [apply awaiting_cleanup | reflexivity].
  - destruct (Hev q eq_refl).
  - destruct (handlers st); [|split; [reflexivity | exact Hi]].
    destruct (handleText_same (toString data) st) as (Ha & Hini & _).
    unfold handleStdout. split; [exact Ha | congruence].
  - destruct (handlers st); split; try reflexivity; exact Hi.
  - destruct (take_out write_eqb w (writes st)); [|split; [reflexivity | exact Hi]].
    destruct w; destruct ok; split; try reflexivity; exact Hi.
  - destruct (take_out timer_eqb t (timers st)) as [rest|];
      [|split; [reflexivity | exact Hi]].
    destruct t as [id p|]; cbn [timer_callback].
    + change (pendingRequests (set_timers rest st)) with (pendingRequests st).
      destruct (pendingRequests st !! id); split; try reflexivity; exact Hi.
    + unfold force_kill. destruct (_ && _); [|split; [reflexivity | exact Hi]].
      unfold kill. cbn [child log emit set_effects set_timers].
      destruct (child st) as [c|]; [destruct (exited c)|];
        split; try reflexivity; exact Hi.
  - unfold on_exit. destruct (handlers st); [|split; [reflexivity | exact Hi]].
    destruct (child st) as [c|]; [|split; [reflexivity | exact Hi]].
    destruct (exited c); [split; [reflexivity | exact Hi]|].
    split; [rewrite awaiting_cleanup; reflexivity | reflexivity].
  - unfold on_error. destruct (handlers st); split; try reflexivity; exact Hi.
Qed.

Lemma ni_step (st : Client) (ev : Event) :
  never_initialized st -> never_initialized (step parse st ev).
Proof.
  intros [Hi Hplain].
  assert (Hother : (forall p, ev <> Resume p) -> never_initialized (step parse st ev)).
  { intros Hev. destruct (step_waiting st ev Hi Hev) as [Ha Hi'].
    split; [exact Hi'|]. rewrite Ha. exact Hplain. }
  destruct ev as [| tool arguments_ | | uri | | q | data | | w ok | t | |];
    try (apply Hother; intros p; discriminate).
  cbn [step]. unfold resume.
  destruct (awaiting st !! q) as [k|] eqn:Hk; [|split; assumption].
  destruct (outcome q st) as [o|]; [|split; assumption].
  pose proof (Hplain q k Hk) as Hpk.
  assert (Hdel : forall q' k', delete q (awaiting st) !! q' = Some k' ->
                   is_plain k' = true).
  { intros q' k' H. apply (Hplain q'), (lookup_delete_Some_old q q' k' _ H). }
  destruct k; try discriminate Hpk; cbn [resume_with];
    try (split; [exact Hi | exact Hdel]).
  split; [reflexivity|]. rewrite awaiting_cleanup. destruct o; exact Hdel.
Qed.

Lemma ni_run (evs : list Event) (st : Client) :
  never_initialized st -> initialized (run parse st evs) = false.
Proof.
  revert st. induction evs as [|ev evs IH]; intros st H; [apply H|].
  cbn [run fold_left]. apply IH, ni_step, H.
Qed.

(** The [await] of the handshake stays until [initialize()] goes on. *)
Lemma hs_persist (st : Client) (ev : Event) (q c : Promise) :
  Handshake st ->
  handshake_at st q c ->
  ev <> Resume q ->
  handshake_at (step parse st ev) q c.
Proof.
  intros H Hq Hev.
  destruct (hs_cont st H q c Hq) as (_ & Hi & _).
  assert (Hother : (forall p, ev <> Resume p) -> handshake_at (step parse st ev) q c).
  { intros Hev'. destruct (step_waiting st ev Hi Hev') as [Ha _].
    unfold handshake_at. rewrite Ha. exact Hq. }
  destruct ev as [| tool arguments_ | | uri | | p | data | | w ok | t | |];
    try (apply Hother; intros p'; discriminate).
  assert (Hne : p <> q) by congruence.
  cbn [step]. unfold resume.
  destruct (awaiting st !! p) as [k|] eqn:Hk; [|exact Hq].
  destruct (outcome p st) as [o|]; [|exact Hq].
  assert (Hdel : handshake_at (set_awaiting (delete p (awaiting st)) st) q c).
  { unfold handshake_at. cbn [set_awaiting awaiting].
    rewrite !lookup_delete_ne by exact Hne. exact Hq. }
  destruct k as [c' | c' | | | | |]; cbn [resume_with]; try exact Hdel.
  - destruct Hne. apply (hs_unique st H p q c' c); [left; exact Hk | exact Hq].
  - destruct Hne. apply (hs_unique st H p q c' c); [right; exact Hk | exact Hq].
  - unfold handshake_at. rewrite awaiting_cleanup. destruct o; exact Hdel.
Qed.

(** [cleanup] rejects the waiter of a request that is in the table. *)
Lemma cleanup_rejects (st s : Client) (id : Z) (p : Promise) :
  Inv st ->
  pendingRequests st !! id = Some p ->
  pendingRequests s = pendingRequests st ->
  calls_on p (effects (cleanup s))
  = calls_on p (effects s) ++ [Rejected (ErrClosed (serverName s))].
Proof.
  intros I Hp Hs.
  pose proof (inv_pending st I id p Hp) as Hi.
  assert (Honly : forall id', pendingRequests s !! id' = Some p -> id' = id)
    by (intros id'; rewrite Hs; apply (pending_only st id id' p I Hi)).
  destruct (cleanup_calls s id p Honly) as [[_ Hc] | [Hn _]]; [exact Hc|].
  rewrite Hs in Hn. contradiction.
Qed.

Lemma outcome_first (p : Promise) (st st' : Client) (o : Outcome) :
  calls_on p (effects st) = [] ->
  calls_on p (effects st') = calls_on p (effects st) ++ [o] ->
  outcome p st' = Some o.
Proof. unfold outcome. intros Hn Hc. rewrite Hc, Hn. reflexivity. Qed.

Lemma outcome_None (p : Promise) (st : Client) :
  outcome p st = None -> calls_on p (effects st) = [].
Proof.
  unfold outcome. destruct (calls_on p (effects st)); [reflexivity | discriminate].
Qed.

(** C4 (amended).  Take a connection from [connect()] on, through any
    sequence of events, at a time when [initialize()] is awaiting a promise
    [q]: the waiter of the initialize request (id 1) or the promise of the
    write of the initialized notification; [c] is the promise [connect()]
    returned.

    - While [initialize()] waits the connection is not initialized and
      [connect()] has not resolved, and the wait lasts until [initialize()]
      goes on.
    - Each of the failures of a step rejects [q], if nothing has settled it
      before: for the initialize request its 30 s timer (timeout error), the
      callback of its write reporting an error (write error), a run of
      [cleanup], that is, the exit of the child or a [disconnect()]
      (connection-closed error), and a message with id 1 and an [error] (the
      remote error); for the notification the callback of its write reporting
      an error.  And when [initialize()] goes on after the answer to its
      request, it awaits the promise of the notification, which is rejected
      at once when there is no stdin to write to.
    - When [q] is rejected and [initialize()] goes on, all it does is call
      [reject] of [c] with the same error: [connect()] fails, with that error
      unless the child's error event has made it fail before.  No signal is
      sent to the child, no timer is set, [this.process] is left as it is,
      and the connection is not initialized then or at any later time. *)
Theorem handshake_failure (cfg : Config) (name : string) (sp : SpawnResult)
  (evs : list Event) (q c : Promise) :
  let st := run parse (connect sp (constructor cfg name)) evs in
  handshake_at st q c ->
  (handlers st = Some c
   /\ initialized st = false
   /\ forallb is_rejection (calls_on c (effects st)) = true
   /\ forall ev, ev <> Resume q -> handshake_at (step parse st ev) q c)
  /\ (outcome q st = None ->
      (awaiting st !! q = Some (KInitialize c) ->
       outcome q (step parse st (TimerFired (TRequest 1 q)))
       = Some (Rejected (ErrTimeout 1 name))
       /\ (In (WRequest 1 q) (writes st) ->
           outcome q (step parse st (WriteDone (WRequest 1 q) false))
           = Some (Rejected (ErrWrite name)))
       /\ (forall ev, runs_cleanup st ev = true ->
                      outcome q (step parse st ev) = Some (Rejected (ErrClosed name)))
       /\ (forall response,
             get_prop response "id" = Some (JNum 1) ->
             truthy (get_prop_opt response "error") = true ->
             outcome q (fst (handleResponse response st))
             = Some (Rejected (ErrRemote name (get_prop_opt response "error")))))
      /\ (awaiting st !! q = Some (KInitialized c) ->
          outcome q (step parse st (WriteDone (WNotification q) false))
          = Some (Rejected (ErrNotify name))))
  /\ (forall v,
        awaiting st !! q = Some (KInitialize c) ->
        outcome q st = Some (Resolved v) ->
        let st' := step parse st (Resume q) in
        handshake_at st' (nextPromise st) c
        /\ (has_stdin st = false ->
            outcome (nextPromise st) st' = Some (Rejected (ErrNoStdin name))))
  /\ (forall e,
        outcome q st = Some (Rejected e) ->
        let st' := step parse st (Resume q) in
        effects st' = effects st ++ [ESettle c (Rejected e)]
        /\ (exists e', outcome c st' = Some (Rejected e'))
        /\ (outcome c st = None -> outcome c st' = Some (Rejected e))
        /\ process st' = process st
        /\ child st' = child st
        /\ timers st' = timers st
        /\ forall evs', initialized (run parse st' evs') = false).
Proof.
  intros st Hq.
  assert (I : Inv st) by apply inv_run, inv_connect, inv_constructor.
  assert (H : Handshake st)
    by (apply hs_run; [apply inv_connect, inv_constructor | apply hs_connect]).
  assert (Hn : serverName st = name)
    by (subst st; rewrite serverName_run; apply serverName_connect).
  clearbody st. subst name.
  destruct (hs_cont st H q c Hq) as (Hc & Hi & Hrej).
  split; [|split; [|split]].
  - repeat split; auto. intros ev Hev. apply hs_persist; assumption.
  - intros Ho. apply outcome_None in Ho. split.
    + intros Hk. pose proof (hs_init st H q c Hk) as Hiss.
      destruct (inv_phase st I 1 q Hiss) as [(Hp & _ & Ht) | (_ & Hne & _)];
        [|contradiction].
      split; [|split; [|split]].
      * cbn [step].
        destruct (take_out_Some timer_eqb (TRequest 1 q) (timers st) timer_eqb_eq Ht)
          as [rest ->].
        cbn [timer_callback].
        change (pendingRequests (set_timers rest st)) with (pendingRequests st).
        rewrite Hp. apply (outcome_first q st); [exact Ho|].
        apply (calls_one q st _ [ESettle q (Rejected (ErrTimeout 1 (serverName st)))]);
          [reflexivity|]. cbn. rewrite Nat.eqb_refl. reflexivity.
      * intros Hw. cbn [step].
        destruct (take_out_Some write_eqb (WRequest 1 q) (writes st) write_eqb_eq Hw)
          as [rest ->].
        cbn [write_callback]. apply (outcome_first q st); [exact Ho|].
        apply (calls_one q st _ [ESettle q (Rejected (ErrWrite (serverName st)))]);
          [reflexivity|]. cbn. rewrite Nat.eqb_refl. reflexivity.
      * intros ev Hev.
        destruct ev as [| tool arguments_ | | uri | | p | data | | w ok | t | |];
          try discriminate Hev; cbn [step runs_cleanup] in *.
        -- unfold disconnect. rewrite Hi. apply (outcome_first q st); [exact Ho|].
           apply (cleanup_rejects st st 1 q I Hp eq_refl).
        -- unfold resume. destruct (awaiting st !! p) as [k|]; [|discriminate Hev].
           destruct k; try discriminate Hev.
           destruct (outcome p st) as [o|]; [|discriminate Hev].
           cbn [resume_with].
           set (s := match o with
                     | Resolved _ => log DEBUG "Shutdown request sent" _
                     | Rejected _ => log ERROR "Error during shutdown" _
                     end).
           assert (Hs : calls_on q (effects s) = [] /\ serverName s = serverName st
                        /\ pendingRequests s = pendingRequests st).
           { subst s. destruct o; repeat split;
               cbn [log emit set_effects set_awaiting effects];
               rewrite calls_on_app, Ho; reflexivity. }
           destruct Hs as (Hs1 & Hs2 & Hs3). rewrite <- Hs2.
           apply (outcome_first q s); [exact Hs1|].
           apply (cleanup_rejects st s 1 q I Hp Hs3).
        -- unfold on_exit. destruct (handlers st); [|discriminate Hev].
           destruct (child st) as [ch|]; [|discriminate Hev].
           destruct (exited ch); [discriminate Hev|].
           set (s := log INFO "exited" _).
           assert (Hs : calls_on q (effects s) = [] /\ serverName s = serverName st
                        /\ pendingRequests s = pendingRequests st).
           { subst s. repeat split. cbn [log emit set_effects set_child effects].
             rewrite calls_on_app, Ho. reflexivity. }
           destruct Hs as (Hs1 & Hs2 & Hs3). rewrite <- Hs2.
           apply (outcome_first q s); [exact Hs1|].
           apply (cleanup_rejects st s 1 q I Hp Hs3).
      * intros response Hid Herr.
        rewrite (handleResponse_matching response st 1 q Hid ltac:(lia) Hp).
        cbn [fst]. rewrite Herr. apply (outcome_first q st); [exact Ho|].
        apply (calls_one q st _
                 [ELog DEBUG "Received response";
                  ESettle q (Rejected (ErrRemote (serverName st)
                                         (get_prop_opt response "error")))]);
          [cbn; rewrite <- app_assoc; reflexivity|].
        cbn. rewrite Nat.eqb_refl. reflexivity.
    + intros Hk. pose proof (hs_notify st H q c Hk Ho) as Hw. cbn [step].
      destruct (take_out_Some write_eqb (WNotification q) (writes st) write_eqb_eq Hw)
        as [rest ->].
      cbn [write_callback]. apply (outcome_first q st); [exact Ho|].
      apply (calls_one q st _ [ESettle q (Rejected (ErrNotify (serverName st)))]);
        [reflexivity|]. cbn. rewrite Nat.eqb_refl. reflexivity.
  - intros v Hk Ho st'. subst st'. cbn [step]. unfold resume. rewrite Hk, Ho.
    cbn [resume_with]. unfold sendNotification, new_promise.
    change (has_stdin (set_nextPromise (S (nextPromise (set_awaiting
              (delete q (awaiting st)) st))) (set_awaiting (delete q (awaiting st)) st)))
      with (has_stdin st).
    change (nextPromise (set_awaiting (delete q (awaiting st)) st))
      with (nextPromise st).
    destruct (has_stdin st); cbn [negb await].
    + split; [|discriminate]. right. cbn. apply lookup_insert_eq.
    + split; [right; cbn; apply lookup_insert_eq|]. intros _.
      unfold outcome. cbn. rewrite calls_on_app, (inv_fresh st I) by lia.
      cbn. rewrite Nat.eqb_refl. reflexivity.
  - intros e Ho st'.
    assert (Hst' : st' = settle c (Rejected e) (set_awaiting (delete q (awaiting st)) st)).
    { subst st'. cbn [step]. unfold resume. rewrite Ho.
      destruct Hq as [Hk | Hk]; rewrite Hk; reflexivity. }
    clearbody st'. subst st'.
    assert (Hcalls : calls_on c (effects (settle c (Rejected e)
                                            (set_awaiting (delete q (awaiting st)) st)))
                     = calls_on c (effects st) ++ [Rejected e]).
    { apply (calls_one c st _ [ESettle c (Rejected e)]); [reflexivity|].
      cbn. rewrite Nat.eqb_refl. reflexivity. }
    split; [reflexivity|]. split; [|split; [|repeat split]].
    + unfold outcome. rewrite Hcalls.
      destruct (calls_on c (effects st)) as [|o calls]; [exists e; reflexivity|].
      cbn [forallb] in Hrej. apply andb_prop in Hrej as [Ho' _].
      destruct o as [v | e']; [discriminate Ho'|]. exists e'. reflexivity.
    + intros Hnone. apply outcome_None in Hnone.
      apply (outcome_first c st); assumption.
    + intros evs'. apply ni_run. split; [exact Hi|].
      intros q' k' Hq'. cbn [settle emit set_effects set_awaiting awaiting] in Hq'.
      destruct (decide (q = q')) as [<- | Hne];
        [rewrite lookup_delete_eq in Hq'; discriminate|].
      rewrite lookup_delete_ne in Hq' by exact Hne.
      destruct k' as [c' | c' | | | | |]; try reflexivity; exfalso; apply Hne.
      * apply (hs_unique st H q q' c c'); [exact Hq | left; exact Hq'].
      * apply (hs_unique st H q q' c c'); [exact Hq | right; exact Hq'].
Qed.

End Handshake.

(** The child never answers the initialize request: the request is
    written, its timer fires, and [initialize()] goes on with the timeout
    error. *)
Lemma handshake_failure_witness :
  Props.handshake_at
    (MCPClient.run Samples.parse
       (MCPClient.connect (MCPClient.Spawned 4242 true true true)
          (MCPClient.constructor Samples.filesystem "filesystem"))
       [MCPClient.WriteDone (MCPClient.WRequest 1 1) true;
        MCPClient.TimerFired (MCPClient.TRequest 1 1)]) 1 0
  /\ MCPClient.outcome 0
       (MCPClient.step Samples.parse
          (MCPClient.run Samples.parse
             (MCPClient.connect (MCPClient.Spawned 4242 true true true)
                (MCPClient.constructor Samples.filesystem "filesystem"))
             [MCPClient.WriteDone (MCPClient.WRequest 1 1) true;
              MCPClient.TimerFired (MCPClient.TRequest 1 1)])
          (MCPClient.Resume 1))
     = Some (MCPClient.Rejected (MCPClient.ErrTimeout 1 "filesystem")).
Proof.
  assert (H : Props.handshake_at
                (MCPClient.run Samples.parse
                   (MCPClient.connect (MCPClient.Spawned 4242 true true true)
                      (MCPClient.constructor Samples.filesystem "filesystem"))
                   [MCPClient.WriteDone (MCPClient.WRequest 1 1) true;
                    MCPClient.TimerFired (MCPClient.TRequest 1 1)]) 1 0)
    by (left; vm_compute; reflexivity).
  assert (Ho : MCPClient.outcome 1
                 (MCPClient.run Samples.parse
                    (MCPClient.connect (MCPClient.Spawned 4242 true true true)
                       (MCPClient.constructor Samples.filesystem "filesystem"))
                    [MCPClient.WriteDone (MCPClient.WRequest 1 1) true;
                     MCPClient.TimerFired (MCPClient.TRequest 1 1)])
               = Some (MCPClient.Rejected (MCPClient.ErrTimeout 1 "filesystem")))
    by (vm_compute; reflexivity).
  assert (Hc : MCPClient.outcome 0
                 (MCPClient.run Samples.parse
                    (MCPClient.connect (MCPClient.Spawned 4242 true true true)
                       (MCPClient.constructor Samples.filesystem "filesystem"))
                    [MCPClient.WriteDone (MCPClient.WRequest 1 1) true;
                     MCPClient.TimerFired (MCPClient.TRequest 1 1)])
               = None)
    by (vm_compute; reflexivity).
  split; [exact H|].
  exact (proj1 (proj2 (proj2
           (proj2 (proj2 (proj2
              (handshake_failure Samples.parse Samples.filesystem "filesystem"
                 (MCPClient.Spawned 4242 true true true)
                 [MCPClient.WriteDone (MCPClient.WRequest 1 1) true;
                  MCPClient.TimerFired (MCPClient.TRequest 1 1)] 1%nat 0%nat H)))
              (MCPClient.ErrTimeout 1 "filesystem") Ho))) Hc).
Defined.

(** C4 (as stated) fails.  The child never answers the initialize request.
    After the timeout [connect] is rejected and [initialized] is false, but
    the child has received no signal and is still running, and
    [this.process] still refers to it. *)
Lemma handshake_failure_leaves_child :
  MCPClient.outcome 0 Samples.handshake_timed_out
  = Some (MCPClient.Rejected (MCPClient.ErrTimeout 1 "filesystem"))
  /\ MCPClient.initialized Samples.handshake_timed_out = false
  /\ MCPClient.process Samples.handshake_timed_out = true
  /\ MCPClient.child Samples.handshake_timed_out
     = Some {| MCPClient.pid := 4242; MCPClient.stdin := true;
               MCPClient.stdout := true; MCPClient.stderr := true;
               MCPClient.killed := false; MCPClient.exited := false;
               MCPClient.signals := [] |}.
Proof. vm_compute. repeat split; reflexivity. Qed.

(* ===================================================================== *)
(** * Further properties of the connection *)
(* ===================================================================== *)

Section Connection.
Import JS MCPClient Props.

Variable parse : text -> option JSValue.

(** What holds of every connection from [connect] on. *)
Lemma inv_reachable (cfg : Config) (name : string) (sp : SpawnResult)
  (evs : list Event) :
  Inv (run parse (connect sp (constructor cfg name)) evs).
Proof. apply inv_run, inv_connect, inv_constructor. Qed.

(** X1.  On a connection from [connect] on that has given out at most 2^53
    ids (up to there the counter of the code, a double, and the integer of
    the model agree; from 2^53 on the code's [requestId++] gives the same id
    again), no two requests that [sendRequest] accepted share an id and no
    two share a waiter, and every id in use is below [requestId], the next
    one to be given out. *)
Theorem request_ids_unique (cfg : Config) (name : string) (sp : SpawnResult)
  (evs : list Event) (id id' : Z) (p p' : Promise) :
  let st := run parse (connect sp (constructor cfg name)) evs in
  requestId st <= 2 ^ 53 ->
  issued id p st = true ->
  issued id' p' st = true ->
  (id = id' <-> p = p') /\ id < requestId st /\ id' < requestId st
  /\ id < 2 ^ 53 /\ id' < 2 ^ 53.
Proof.
  intros st Hb H H'. pose proof (inv_reachable cfg name sp evs) as I. fold st in I.
  destruct (inv_bound st I id p H) as [_ Hlt].
  destruct (inv_bound st I id' p' H') as [_ Hlt'].
  split; [apply (inv_inj st I); assumption|].
  repeat split; lia.
Qed.



(** X4.  On a connection from [connect] on, [cleanup] rejects the waiter of
    every request that is still pending exactly once, with the closed
    error, and leaves the table empty. *)
Theorem cleanup_rejects_pending (cfg : Config) (name : string) (sp : SpawnResult)
  (evs : list Event) (id : Z) (p : Promise) :
  let st := run parse (connect sp (constructor cfg name)) evs in
  pendingRequests st !! id = Some p ->
  calls_on p (effects (cleanup st)) = [Rejected (ErrClosed (serverName st))]
  /\ pendingRequests (cleanup st) = ∅.
Proof.
  intros st Hp. pose proof (inv_reachable cfg name sp evs) as I. fold st in I.
  split; [|reflexivity].
  destruct (cleanup_effects st) as (ks & Hks & ->).
  rewrite !calls_on_app.
  replace (calls_on p ks) with (@nil Outcome)
    by (destruct Hks as [-> | [delivered ->]]; reflexivity).
  pose proof (inv_pending st I id p Hp) as Hi.
  destruct (inv_phase st I id p Hi) as [(_ & Hc & _) | (Hn & _)]; [|congruence].
  rewrite Hc. cbn [app calls_on]. rewrite app_nil_r.
  apply (calls_rejected_once st p id).
  - apply NoDup_ListNoDup, NoDup_map_to_list.
  - apply list_elem_of_In, elem_of_map_to_list. exact Hp.
  - intros [id' p'] Hin Heq. cbn in Heq. subst p'.
    apply list_elem_of_In, elem_of_map_to_list in Hin.
    pose proof (inv_pending st I id' p Hin) as Hi'.
    f_equal. apply (inv_inj st I id' p id p Hi' Hi). reflexivity.
Qed.

End Connection.

(** The handshake request (id 1) and the request that is never answered
    (id 2) have different waiters. *)
Lemma request_ids_unique_witness :
  MCPClient.requestId
    (MCPClient.run Samples.parse
       (MCPClient.connect (MCPClient.Spawned 4242 true true true)
          (MCPClient.constructor Samples.filesystem "filesystem"))
       Samples.unanswered) <= 2 ^ 53
  /\ Props.issued 1 1
       (MCPClient.run Samples.parse
          (MCPClient.connect (MCPClient.Spawned 4242 true true true)
             (MCPClient.constructor Samples.filesystem "filesystem"))
          Samples.unanswered) = true
  /\ Props.issued 2 3
       (MCPClient.run Samples.parse
          (MCPClient.connect (MCPClient.Spawned 4242 true true true)
             (MCPClient.constructor Samples.filesystem "filesystem"))
          Samples.unanswered) = true
  /\ (1 = 2 <-> 1%nat = 3%nat).
Proof.
  assert (Hb : MCPClient.requestId
                 (MCPClient.run Samples.parse
                    (MCPClient.connect (MCPClient.Spawned 4242 true true true)
                       (MCPClient.constructor Samples.filesystem "filesystem"))
                    Samples.unanswered) <= 2 ^ 53)
    by (apply Z.leb_le; vm_compute; reflexivity).
  assert (H1 : Props.issued 1 1
                 (MCPClient.run Samples.parse
                    (MCPClient.connect (MCPClient.Spawned 4242 true true true)
                       (MCPClient.constructor Samples.filesystem "filesystem"))
                    Samples.unanswered) = true) by (vm_compute; reflexivity).
  assert (H2 : Props.issued 2 3
                 (MCPClient.run Samples.parse
                    (MCPClient.connect (MCPClient.Spawned 4242 true true true)
                       (MCPClient.constructor Samples.filesystem "filesystem"))
                    Samples.unanswered) = true) by (vm_compute; reflexivity).
  split; [exact Hb|]. split; [exact H1|]. split; [exact H2|].
  exact (proj1 (request_ids_unique Samples.parse Samples.filesystem "filesystem"
                  (MCPClient.Spawned 4242 true true true) Samples.unanswered
                  1 2 1%nat 3%nat Hb H1 H2)).
Defined.


(** Teardown while request 2 is in flight. *)
Lemma cleanup_rejects_pending_witness :
  MCPClient.pendingRequests
    (MCPClient.run Samples.parse
       (MCPClient.connect (MCPClient.Spawned 4242 true true true)
          (MCPClient.constructor Samples.filesystem "filesystem"))
       Samples.in_flight) !! 2 = Some 3%nat
  /\ MCPClient.calls_on 3
       (MCPClient.effects
          (MCPClient.cleanup
             (MCPClient.run Samples.parse
                (MCPClient.connect (MCPClient.Spawned 4242 true true true)
                   (MCPClient.constructor Samples.filesystem "filesystem"))
                Samples.in_flight)))
     = [MCPClient.Rejected
          (MCPClient.ErrClosed
             (MCPClient.serverName
                (MCPClient.run Samples.parse
                   (MCPClient.connect (MCPClient.Spawned 4242 true true true)
                      (MCPClient.constructor Samples.filesystem "filesystem"))
                   Samples.in_flight)))].
Proof.
  assert (H : MCPClient.pendingRequests
                (MCPClient.run Samples.parse
                   (MCPClient.connect (MCPClient.Spawned 4242 true true true)
                      (MCPClient.constructor Samples.filesystem "filesystem"))
                   Samples.in_flight) !! 2 = Some 3%nat) by (vm_compute; reflexivity).
  split; [exact H|].
  exact (proj1 (cleanup_rejects_pending Samples.parse Samples.filesystem "filesystem"
                  (MCPClient.Spawned 4242 true true true) Samples.in_flight
                  2 3%nat H)).
Defined.

(* ===================================================================== *)
(** * After teardown *)
(* ===================================================================== *)

Section AfterTeardown.
Import JS MCPClient Props.

Lemma pending_cleanup (st : Client) : pendingRequests (cleanup st) = ∅.
Proof. reflexivity. Qed.

Lemma initialized_cleanup (st : Client) : initialized (cleanup st) = false.
Proof. reflexivity. Qed.

Lemma serverName_cleanup (st : Client) : serverName (cleanup st) = serverName st.
Proof.
  unfold cleanup, kill. destruct (process st); [|reflexivity].
  destruct (child st) as [c|]; [destruct (exited c)|]; reflexivity.
Qed.

(** [cleanup] on a connection that has no process, no pending request and is
    not initialized. *)
Lemma cleanup_idle (st : Client) :
  process st = false ->
  pendingRequests st = ∅ ->
  initialized st = false ->
  cleanup st = emit EEmitDisconnected st.
Proof.
  intros Hp Hq Hi. unfold cleanup. rewrite Hp.
  cbn [set_effects set_pendingRequests set_initialized emit effects pendingRequests
       serverName config process requestId initialized buffer child handlers
       nextPromise awaiting writes timers].
  rewrite Hq, map_to_list_empty. cbn [map]. rewrite app_nil_r.
  destruct st; cbn in *; subst. reflexivity.
Qed.


Variable parse : text -> option JSValue.

Lemma handshake_over_spec (st : Client) :
  handshake_over st = true ->
  forall q k, awaiting st !! q = Some k -> is_plain k = true.
Proof.
  unfold handshake_over. intros H q k Hk.
  rewrite forallb_forall in H. apply H.
  apply list_elem_of_In, list_elem_of_fmap. exists (q, k).
  split; [reflexivity | apply elem_of_map_to_list, Hk].
Qed.

Lemma closed_frame (name : string) (st st' : Client) :
  closed name st ->
  serverName st' = serverName st ->
  process st' = process st ->
  initialized st' = initialized st ->
  pendingRequests st' = pendingRequests st ->
  awaiting st' = awaiting st ->
  closed name st'.
Proof.
  intros (Hn & Hp & Hi & Hq & Ha) Hn' Hp' Hi' Hq' Ha'.
  unfold closed. rewrite Hn', Hp', Hi', Hq', Ha'. auto.
Qed.

Lemma closed_cleanup (name : string) (st : Client) :
  closed name st -> closed name (cleanup st).
Proof.
  intros (Hn & Hp & Hi & Hq & Ha). unfold closed.
  rewrite serverName_cleanup, process_cleanup, initialized_cleanup, pending_cleanup,
    awaiting_cleanup. auto.
Qed.

Lemma closed_throw (name : string) (st : Client) (body : Client -> Client) :
  closed name st -> closed name (when_initialized body st).
Proof.
  intros C. pose proof C as (_ & _ & Hi & _). unfold when_initialized.
  rewrite Hi. cbn [negb]. apply (closed_frame name st); auto.
Qed.

Lemma closed_handleLine (name : string) (st : Client) (line : text) :
  closed name st -> closed name (handleLine parse st line).
Proof.
  intros C. pose proof C as (_ & _ & _ & Hq & _).
  unfold handleLine. destruct (nonempty (trim line)); [|exact C].
  destruct (parse (trim line)) as [response|];
    [|apply (closed_frame name st); auto].
  unfold handleResponse. destruct (get_prop response "id") as [idv|];
    [|apply (closed_frame name st); auto].
  cbv zeta.
  replace (if truthy idv
           then find_pending idv (log DEBUG "Received response" st)
           else None) with (@None (Z * Promise)).
  - destruct (truthy (get_prop_opt response "method"));
      apply (closed_frame name st); auto.
  - destruct (truthy idv); [|reflexivity].
    unfold find_pending. destruct idv; try reflexivity.
    cbn [log emit set_effects pendingRequests]. rewrite Hq, lookup_empty. reflexivity.
Qed.

Lemma closed_step (name : string) (st : Client) (ev : Event) :
  closed name st -> closed name (step parse st ev).
Proof.
  intros C. pose proof C as (Hn & Hp & Hi & Hq & Ha).
  destruct ev as [| tool arguments_ | | uri | | q | data | | w ok | t | |];
    cbn [step].
  - apply closed_throw, C.
  - apply closed_throw, C.
  - apply closed_throw, C.
  - apply closed_throw, C.
  - unfold disconnect. rewrite Hi. apply closed_cleanup, C.
  - unfold resume. destruct (awaiting st !! q) as [k|] eqn:Hk; [|exact C].
    destruct (outcome q st) as [o|]; [|exact C].
    pose proof (Ha q k Hk) as Hplain.
    assert (C0 : closed name (set_awaiting (delete q (awaiting st)) st)).
    { unfold closed. cbn [set_awaiting serverName process initialized pendingRequests
                          awaiting].
      repeat split; try assumption.
      intros q' k' H. apply lookup_delete_Some in H as [_ H]. apply (Ha q' k' H). }
    destruct k; try discriminate Hplain; cbn [resume_with];
      try (apply (closed_frame name _ _ C0); reflexivity).
    apply closed_cleanup. destruct o; apply (closed_frame name _ _ C0); reflexivity.
  - destruct (handlers st); [|exact C]. unfold handleStdout, handleText.
    set (lines := removelast _). set (b := List.last _ _).
    assert (C0 : closed name (set_buffer b st)) by (apply (closed_frame name st); auto).
    revert C0. generalize (set_buffer b st). clearbody lines.
    induction lines as [|l lines IH]; intros s Cs; [exact Cs|].
    cbn [fold_left]. apply IH, closed_handleLine, Cs.
  - destruct (handlers st); [|exact C]. apply (closed_frame name st); auto.
  - destruct (take_out write_eqb w (writes st)) as [rest|]; [|exact C].
    destruct w as [id p | p]; destruct ok; cbn [write_callback];
      try (apply (closed_frame name st); auto; fail).
    apply (closed_frame name st); auto.
    cbn. rewrite Hq. apply delete_empty.
  - destruct (take_out timer_eqb t (timers st)) as [rest|]; [|exact C].
    destruct t as [id p|]; cbn [timer_callback].
    + change (pendingRequests (set_timers rest st)) with (pendingRequests st).
      rewrite Hq, lookup_empty. apply (closed_frame name st); auto.
    + unfold force_kill. change (process (set_timers rest st)) with (process st).
      rewrite Hp. cbn [andb]. apply (closed_frame name st); auto.
  - unfold on_exit. destruct (handlers st); [|exact C].
    destruct (child st) as [c|]; [|exact C]. destruct (exited c); [exact C|].
    apply closed_cleanup. apply (closed_frame name st); auto.
  - unfold on_error. destruct (handlers st); [|exact C].
    apply (closed_frame name st); auto.
Qed.

Lemma closed_run (name : string) (evs : list Event) (st : Client) :
  closed name st -> closed name (run parse st evs).
Proof.
  revert st. induction evs as [|ev evs IH]; intros st C; [exact C|].
  cbn [run fold_left]. apply IH, closed_step, C.
Qed.

Lemma closed_after_cleanup (st : Client) :
  handshake_over st = true -> closed (serverName st) (cleanup st).
Proof.
  intros H. unfold closed.
  rewrite serverName_cleanup, process_cleanup, initialized_cleanup, pending_cleanup,
    awaiting_cleanup.
  repeat split. apply handshake_over_spec, H.
Qed.

(** X6.  Once [cleanup()] has run on a connection whose handshake is over
    ([initialize()] has returned or thrown, so that no part of it is still
    waiting), the connection stays torn down whatever is called or happens
    later: each of the four verbs throws the not-initialized error and does
    nothing else, no request id is taken and nothing is written. *)
Theorem verbs_after_teardown (st : Client) (evs : list Event) (name uri : string)
  (arguments_ : JSValue) :
  handshake_over st = true ->
  let st' := run parse (cleanup st) evs in
  let thrown := emit (EThrow (ErrNotInitialized (serverName st))) st' in
  listTools st' = thrown
  /\ callTool name arguments_ st' = thrown
  /\ listResources st' = thrown
  /\ readResource uri st' = thrown.
Proof.
  intros Hover st' thrown.
  destruct (closed_run (serverName st) evs (cleanup st) (closed_after_cleanup st Hover))
    as (Hn & _ & Hi & _).
  fold st' in Hn, Hi. subst thrown.
  unfold listTools, callTool, listResources, readResource, when_initialized.
  rewrite Hi, Hn. cbn [negb]. repeat split.
Qed.

(** X7.  Once [cleanup()] has run on a connection whose handshake is over
    ([initialize()] has returned or thrown, so that no part of it is still
    waiting), whatever is called or happens later, [isConnected()] is false and
    [getStatus()] reports the server name with connected false, initialized
    false, no pending request and no pid. *)
Theorem status_after_teardown (st : Client) (evs : list Event) :
  handshake_over st = true ->
  let st' := run parse (cleanup st) evs in
  isConnected st' = false
  /\ getStatus st'
     = {| st_serverName := serverName st; st_connected := false;
          st_initialized := false; st_pendingRequests := 0; st_pid := None |}.
Proof.
  intros Hover st'.
  destruct (closed_run (serverName st) evs (cleanup st) (closed_after_cleanup st Hover))
    as (Hn & Hp & Hi & Hq & _).
  fold st' in Hn, Hp, Hi, Hq.
  assert (H : isConnected st' = false) by (unfold isConnected; rewrite Hi; reflexivity).
  split; [exact H|].
  unfold getStatus. rewrite H, Hi, Hn, Hq, Hp. reflexivity.
Qed.

End AfterTeardown.

(** A ready client is torn down; later the caller calls [listTools()] and the
    exit of the child is reported. *)
Lemma verbs_after_teardown_witness :
  Props.handshake_over Samples.ready = true
  /\ MCPClient.listTools
       (MCPClient.run Samples.parse (MCPClient.cleanup Samples.ready)
          [MCPClient.ListTools; MCPClient.Exit])
     = MCPClient.emit
         (MCPClient.EThrow
            (MCPClient.ErrNotInitialized (MCPClient.serverName Samples.ready)))
         (MCPClient.run Samples.parse (MCPClient.cleanup Samples.ready)
            [MCPClient.ListTools; MCPClient.Exit]).
Proof.
  assert (H : Props.handshake_over Samples.ready = true) by (vm_compute; reflexivity).
  split; [exact H|].
  exact (proj1 (verbs_after_teardown Samples.parse Samples.ready
                  [MCPClient.ListTools; MCPClient.Exit] "read_file" "file:///tmp"
                  (JS.JObj []) H)).
Defined.

Lemma status_after_teardown_witness :
  Props.handshake_over Samples.ready = true
  /\ MCPClient.isConnected
       (MCPClient.run Samples.parse (MCPClient.cleanup Samples.ready)
          [MCPClient.ListTools; MCPClient.Exit]) = false.
Proof.
  assert (H : Props.handshake_over Samples.ready = true) by (vm_compute; reflexivity).
  split; [exact H|].
  exact (proj1 (status_after_teardown Samples.parse Samples.ready
                  [MCPClient.ListTools; MCPClient.Exit] H)).
Defined.

(* ===================================================================== *)
(** * A request and its answer *)
(* ===================================================================== *)

Section RoundTrip.
Import JS MCPClient Props.

Variable parse : text -> option JSValue.

(** X8.  On a connection from [connect] on that has no process or whose
    process has no stdin, [sendRequest] rejects the promise it returns at
    once; the request is not entered in the table, nothing is written and no
    timer is set. *)
Theorem sendRequest_without_stdin (cfg : Config) (name : string) (sp : SpawnResult)
  (evs : list Event) (r : Request) :
  let st := run parse (connect sp (constructor cfg name)) evs in
  has_stdin st = false ->
  let sent := sendRequest r st in
  outcome (fst sent) (snd sent) = Some (Rejected (ErrNoStdin (serverName st)))
  /\ pendingRequests (snd sent) = pendingRequests st
  /\ writes (snd sent) = writes st
  /\ timers (snd sent) = timers st.
Proof.
  intros st Hno sent. pose proof (inv_reachable parse cfg name sp evs) as I.
  fold st in I. subst sent. unfold sendRequest, new_promise.
  change (has_stdin (set_nextPromise (S (nextPromise st)) st)) with (has_stdin st).
  rewrite Hno. cbn [negb fst snd]. repeat split.
  unfold outcome. cbn [settle emit set_effects effects set_nextPromise].
  rewrite calls_on_app, (inv_fresh st I) by lia.
  cbn [calls_on app]. rewrite Nat.eqb_refl. reflexivity.
Qed.

(** X9.  A request and its answer.  On a connection from [connect] on whose
    process has a stdin, send a request with a non-zero id; when the chunk
    that completes the line of a message with that id arrives, the waiter is
    resolved with the message, or rejected with the remote error when the
    message has a truthy [error]; the id is out of the table and the buffer
    is empty. *)
Theorem request_response_round_trip (cfg : Config) (name : string) (sp : SpawnResult)
  (evs : list Event) (r : Request) (data : list Byte.byte) (line : text)
  (response : JSValue) :
  let st := run parse (connect sp (constructor cfg name)) evs in
  has_stdin st = true ->
  req_id r <> 0 ->
  buffer st ++ toString data = line ++ [LF] ->
  no_LF line = true ->
  nonempty (trim line) = true ->
  parse (trim line) = Some response ->
  get_prop response "id" = Some (JNum (req_id r)) ->
  let sent := sendRequest r st in
  let st' := handleStdout parse data (snd sent) in
  outcome (fst sent) st'
  = Some (if truthy (get_prop_opt response "error")
          then Rejected (ErrRemote (serverName st) (get_prop_opt response "error"))
          else Resolved response)
  /\ pendingRequests st' = delete (req_id r) (pendingRequests st)
  /\ buffer st' = [].
Proof.
  intros st Hin Hnz Hcut Hline Hne Hparse Hid sent st'.
  pose proof (inv_reachable parse cfg name sp evs) as I. fold st in I.
  assert (Hsent : sent
    = (nextPromise st,
       setTimeout (TRequest (req_id r) (nextPromise st))
         (stdin_write (WRequest (req_id r) (nextPromise st))
            (EWriteRequest (nextPromise st) r)
            (log DEBUG "Sending request"
               (set_pendingRequests (<[req_id r := nextPromise st]> (pendingRequests st))
                  (set_nextPromise (S (nextPromise st)) st)))))).
  { subst sent. unfold sendRequest, new_promise.
    change (has_stdin (set_nextPromise (S (nextPromise st)) st)) with (has_stdin st).
    rewrite Hin. reflexivity. }
  subst st'. rewrite Hsent. cbn [fst snd].
  set (st1 := setTimeout _ _).
  unfold handleStdout, handleText.
  change (buffer st1) with (buffer st). rewrite Hcut.
  rewrite split_line by exact Hline.
  cbn [split List.last removelast fold_left].
  rewrite handleLine_set_buffer. unfold handleLine. rewrite Hne, Hparse.
  rewrite (handleResponse_matching response st1 (req_id r) (nextPromise st) Hid Hnz)
    by (subst st1; cbn; apply lookup_insert_eq).
  repeat split.
  - unfold outcome. subst st1.
    cbn [settle emit set_effects effects set_buffer set_pendingRequests log
         setTimeout set_timers stdin_write set_writes set_nextPromise].
    rewrite !calls_on_app, (inv_fresh st I) by lia.
    cbn [calls_on app]. rewrite Nat.eqb_refl. reflexivity.
  - subst st1. cbn. apply delete_insert_eq.
Qed.

End RoundTrip.

(** The child has exited: a request is rejected at once. *)
Lemma sendRequest_without_stdin_witness :
  MCPClient.has_stdin
    (MCPClient.run Samples.parse
       (MCPClient.connect (MCPClient.Spawned 4242 true true true)
          (MCPClient.constructor Samples.filesystem "filesystem"))
       Samples.child_gone) = false
  /\ MCPClient.outcome
       (fst (MCPClient.sendRequest Samples.tools_request
               (MCPClient.run Samples.parse
                  (MCPClient.connect (MCPClient.Spawned 4242 true true true)
                     (MCPClient.constructor Samples.filesystem "filesystem"))
                  Samples.child_gone)))
       (snd (MCPClient.sendRequest Samples.tools_request
               (MCPClient.run Samples.parse
                  (MCPClient.connect (MCPClient.Spawned 4242 true true true)
                     (MCPClient.constructor Samples.filesystem "filesystem"))
                  Samples.child_gone)))
     = Some (MCPClient.Rejected
               (MCPClient.ErrNoStdin
                  (MCPClient.serverName
                     (MCPClient.run Samples.parse
                        (MCPClient.connect (MCPClient.Spawned 4242 true true true)
                           (MCPClient.constructor Samples.filesystem "filesystem"))
                        Samples.child_gone)))).
Proof.
  assert (H : MCPClient.has_stdin
                (MCPClient.run Samples.parse
                   (MCPClient.connect (MCPClient.Spawned 4242 true true true)
                      (MCPClient.constructor Samples.filesystem "filesystem"))
                   Samples.child_gone) = false) by (vm_compute; reflexivity).
  split; [exact H|].
  exact (proj1 (sendRequest_without_stdin Samples.parse Samples.filesystem "filesystem"
                  (MCPClient.Spawned 4242 true true true) Samples.child_gone
                  Samples.tools_request H)).
Defined.

(** A ready client sends the tools/list request and its answer arrives in
    one chunk. *)
Lemma request_response_round_trip_witness :
  MCPClient.has_stdin
    (MCPClient.run Samples.parse
       (MCPClient.connect (MCPClient.Spawned 4242 true true true)
          (MCPClient.constructor Samples.filesystem "filesystem"))
       Samples.handshake) = true
  /\ MCPClient.pendingRequests
       (MCPClient.handleStdout Samples.parse Samples.tools_answer
          (snd (MCPClient.sendRequest Samples.tools_request
                  (MCPClient.run Samples.parse
                     (MCPClient.connect (MCPClient.Spawned 4242 true true true)
                        (MCPClient.constructor Samples.filesystem "filesystem"))
                     Samples.handshake))))
     = delete (MCPClient.req_id Samples.tools_request)
         (MCPClient.pendingRequests
            (MCPClient.run Samples.parse
               (MCPClient.connect (MCPClient.Spawned 4242 true true true)
                  (MCPClient.constructor Samples.filesystem "filesystem"))
               Samples.handshake)).
Proof.
  assert (H : MCPClient.has_stdin
                (MCPClient.run Samples.parse
                   (MCPClient.connect (MCPClient.Spawned 4242 true true true)
                      (MCPClient.constructor Samples.filesystem "filesystem"))
                   Samples.handshake) = true) by (vm_compute; reflexivity).
  assert (Hnz : MCPClient.req_id Samples.tools_request <> 0) by (cbn; lia).
  assert (Hcut : MCPClient.buffer
                   (MCPClient.run Samples.parse
                      (MCPClient.connect (MCPClient.Spawned 4242 true true true)
                         (MCPClient.constructor Samples.filesystem "filesystem"))
                      Samples.handshake) ++ JS.toString Samples.tools_answer
                 = Samples.tools_line ++ [JS.LF]) by (vm_compute; reflexivity).
  assert (Hline : Props.no_LF Samples.tools_line = true) by (vm_compute; reflexivity).
  assert (Hne : JS.nonempty (JS.trim Samples.tools_line) = true)
    by (vm_compute; reflexivity).
  assert (Hparse : Samples.parse (JS.trim Samples.tools_line)
                   = Some (Samples.response 2 (JS.JObj [("tools", JS.JArr [])])))
    by (vm_compute; reflexivity).
  split; [exact H|].
  exact (proj1 (proj2 (request_response_round_trip Samples.parse Samples.filesystem
                         "filesystem" (MCPClient.Spawned 4242 true true true)
                         Samples.handshake Samples.tools_request Samples.tools_answer
                         Samples.tools_line
                         (Samples.response 2 (JS.JObj [("tools", JS.JArr [])]))
                         H Hnz Hcut Hline Hne Hparse eq_refl))).
Defined.

(* ===================================================================== *)
(** * The handshake comes first *)
(* ===================================================================== *)

Section HandshakeOrder.
Import JS MCPClient Props.

Variable parse : text -> option JSValue.

Lemma handshake_first_quiet (es es' : list Effect) :
  handshake_first es = true ->
  existsb writes_other_request es' = false ->
  handshake_first (es ++ es') = true.
Proof.
  intros Hes Hq. induction es as [|e es IH].
  - cbn [app]. induction es' as [|e' es' IH']; [reflexivity|].
    cbn in Hq. apply orb_false_iff in Hq as [He' Hq].
    cbn [handshake_first]. rewrite He', IH' by exact Hq. cbn.
    apply orb_true_r.
  - cbn [app handshake_first] in *. destruct (is_handshake_done e); [reflexivity|].
    cbn [orb] in *. apply andb_prop in Hes as [He Hes].
    rewrite He, IH by exact Hes. reflexivity.
Qed.

Lemma handshake_first_done (es es' : list Effect) :
  handshake_first es = true ->
  existsb is_handshake_done es = true ->
  handshake_first (es ++ es') = true.
Proof.
  intros Hes Hd. induction es as [|e es IH]; [discriminate Hd|].
  cbn [app handshake_first existsb] in *.
  destruct (is_handshake_done e); [reflexivity|].
  cbn [orb] in *. apply andb_prop in Hes as [He Hes].
  rewrite He, IH by assumption. reflexivity.
Qed.

(** What [handshake_first] says of a request found in the log. *)
Lemma handshake_first_split (a b : list Effect) (p : Promise) (r : Request) :
  handshake_first (a ++ EWriteRequest p r :: b) = true ->
  req_method r <> "initialize" ->
  existsb is_handshake_done a = true.
Proof.
  intros H Hm. induction a as [|e a IH].
  - cbn in H. apply String.eqb_neq in Hm. rewrite Hm in H. discriminate H.
  - cbn [app handshake_first existsb] in *.
    destruct (is_handshake_done e); [reflexivity|].
    cbn [orb] in *. apply andb_prop in H as [_ H]. apply IH, H.
Qed.

Lemma quiet_refl (st : Client) : quiet st st.
Proof. exists []. rewrite app_nil_r. repeat split; auto. Qed.

Lemma quiet_trans (st1 st2 st3 : Client) : quiet st1 st2 -> quiet st2 st3 -> quiet st1 st3.
Proof.
  intros (es & He & Hq & Hi) (es' & He' & Hq' & Hi').
  exists (es ++ es'). split; [rewrite He', He, app_assoc; reflexivity|].
  split; [rewrite existsb_app, Hq, Hq'; reflexivity | auto].
Qed.

Lemma order_quiet (st st' : Client) : handshake_order st -> quiet st st' -> handshake_order st'.
Proof.
  intros [Hf Hd] (es & He & Hq & Hi). split.
  - rewrite He. apply handshake_first_quiet; assumption.
  - intros H. rewrite He, existsb_app, Hd by auto. reflexivity.
Qed.

Ltac quiet_by es :=
  exists es; split; [cbn; rewrite <- ?app_assoc; reflexivity|];
  split; [reflexivity | cbn; auto].

Lemma quiet_kill (sig : Signal) (st : Client) : quiet st (kill sig st).
Proof.
  unfold kill. destruct (child st) as [c|]; [destruct (exited c)|].
  - quiet_by [EKill sig false].
  - quiet_by [EKill sig true].
  - quiet_by [EKill sig false].
Qed.

Lemma quiet_rejected (st : Client) (entries : list (Z * Promise)) :
  existsb writes_other_request (map (reject_closed st) entries) = false.
Proof. induction entries as [|entry entries IH]; [reflexivity | exact IH]. Qed.

Lemma quiet_cleanup (st : Client) : quiet st (cleanup st).
Proof.
  destruct (cleanup_effects st) as (ks & Hks & He).
  exists (ks ++ map (reject_closed st) (map_to_list (pendingRequests st))
          ++ [EEmitDisconnected]).
  split; [exact He|]. split.
  - rewrite !existsb_app, quiet_rejected.
    destruct Hks as [-> | [delivered ->]]; reflexivity.
  - rewrite initialized_cleanup. discriminate.
Qed.

Lemma quiet_sendNotification (method : string) (st : Client) :
  quiet st (snd (sendNotification method st)).
Proof.
  unfold sendNotification, new_promise. destruct (negb (has_stdin _)); cbn [snd].
  - quiet_by [ESettle (nextPromise st) (Rejected (ErrNoStdin (serverName st)))].
  - quiet_by [ELog DEBUG "Sending notification"; EWriteNotification method].
Qed.

(** [sendRequest] writes the request it is given, if anything. *)
Lemma sendRequest_effects (r : Request) (st : Client) :
  initialized (snd (sendRequest r st)) = initialized st
  /\ exists es, effects (snd (sendRequest r st)) = effects st ++ es
       /\ existsb writes_other_request es
          = has_stdin st && negb (String.eqb (req_method r) "initialize").
Proof.
  unfold sendRequest, new_promise.
  change (has_stdin (set_nextPromise (S (nextPromise st)) st)) with (has_stdin st).
  destruct (has_stdin st); cbn [negb snd andb].
  - split; [reflexivity|].
    exists [ELog DEBUG "Sending request"; EWriteRequest (nextPromise st) r].
    split; [cbn; rewrite <- ?app_assoc; reflexivity|].
    cbn. apply orb_false_r.
  - split; [reflexivity|].
    exists [ESettle (nextPromise st) (Rejected (ErrNoStdin (serverName st)))].
    split; reflexivity.
Qed.

Lemma quiet_write_callback (w : Write) (ok : bool) (st : Client) :
  quiet st (write_callback w ok st).
Proof.
  destruct w as [id p | p]; destruct ok; cbn [write_callback].
  - apply quiet_refl.
  - quiet_by [ESettle p (Rejected (ErrWrite (serverName st)))].
  - quiet_by [ESettle p (Resolved JUndefined)].
  - quiet_by [ESettle p (Rejected (ErrNotify (serverName st)))].
Qed.

Lemma quiet_timer_callback (t : Timer) (st : Client) : quiet st (timer_callback t st).
Proof.
  destruct t as [id p|]; cbn [timer_callback].
  - destruct (pendingRequests st !! id); [|apply quiet_refl].
    quiet_by [ESettle p (Rejected (ErrTimeout id (serverName st)))].
  - unfold force_kill. destruct (_ && _); [|apply quiet_refl].
    apply (quiet_trans _ (log WARN "Force killing process" st)); [|apply quiet_kill].
    quiet_by [ELog WARN "Force killing process"].
Qed.

Lemma quiet_handleResponse (response : JSValue) (st : Client) :
  quiet st (fst (handleResponse response st)).
Proof.
  unfold handleResponse.
  destruct (get_prop response "id") as [idv|]; cbn [fst].
  - cbv zeta. destruct (if truthy idv then find_pending idv _ else None) as [[id p]|].
    + destruct (truthy (get_prop_opt response "error")); cbn [fst].
      * quiet_by [ELog DEBUG "Received response";
                  ESettle p (Rejected (ErrRemote (serverName st)
                                         (get_prop_opt response "error")))].
      * quiet_by [ELog DEBUG "Received response"; ESettle p (Resolved response)].
    + destruct (truthy (get_prop_opt response "method")); cbn [fst].
      * quiet_by [ELog DEBUG "Received response"; ELog DEBUG "Received notification";
                  EEmitNotification response].
      * quiet_by [ELog DEBUG "Received response"].
  - quiet_by [ELog DEBUG "Received response"].
Qed.

Lemma quiet_handleLine (st : Client) (line : text) : quiet st (handleLine parse st line).
Proof.
  unfold handleLine. destruct (nonempty (trim line)); [|apply quiet_refl].
  destruct (parse (trim line)) as [response|].
  - pose proof (quiet_handleResponse response st) as H.
    destruct (handleResponse response st) as [st' threw]. cbn [fst] in H.
    destruct threw; [|exact H].
    apply (quiet_trans _ st'); [exact H|].
    quiet_by [ELog ERROR "Failed to parse response"].
  - quiet_by [ELog ERROR "Failed to parse response"].
Qed.

Lemma quiet_handleText (chunk : text) (st : Client) : quiet st (handleText parse chunk st).
Proof.
  unfold handleText.
  set (lines := removelast _). set (b := List.last _ _).
  assert (H : quiet st (set_buffer b st)) by (exists []; rewrite app_nil_r; auto).
  revert H. generalize (set_buffer b st). clearbody lines.
  induction lines as [|l lines IH]; intros st' H; [exact H|].
  cbn [fold_left]. apply IH. apply (quiet_trans _ st'); [exact H|].
  apply quiet_handleLine.
Qed.

Lemma order_request (k : Cont) (method : string) (params : JSValue) (st : Client) :
  handshake_order st ->
  initialized st = true \/ method = "initialize" ->
  handshake_order (request k method params st).
Proof.
  intros [Hf Hd] Hcase. unfold request, getNextRequestId.
  set (r := {| req_id := requestId st; req_method := method; req_params := params |}).
  set (st0 := set_requestId (requestId st + 1) st).
  destruct (sendRequest_effects r st0) as (Hi & es & He & Hw).
  destruct (sendRequest r st0) as [p st1]. cbn [snd] in *.
  change (effects st0) with (effects st) in He.
  change (initialized st0) with (initialized st) in Hi.
  unfold handshake_order.
  change (effects (await p k st1)) with (effects st1).
  change (initialized (await p k st1)) with (initialized st1).
  rewrite He, Hi. split.
  - destruct Hcase as [Hinit | ->].
    + apply handshake_first_done; auto.
    + apply handshake_first_quiet; [exact Hf|].
      rewrite Hw. cbn. apply andb_false_r.
  - intros H. rewrite existsb_app, Hd by exact H. reflexivity.
Qed.

Lemma order_when_initialized (body : Client -> Client) (st : Client) :
  handshake_order st ->
  (initialized st = true -> handshake_order (body st)) ->
  handshake_order (when_initialized body st).
Proof.
  intros Ho Hbody. unfold when_initialized.
  destruct (initialized st); cbn [negb]; [auto|].
  apply (order_quiet st); [exact Ho|].
  quiet_by [EThrow (ErrNotInitialized (serverName st))].
Qed.

Lemma order_disconnect (st : Client) : handshake_order st -> handshake_order (disconnect st).
Proof.
  intros Ho. unfold disconnect. destruct (initialized st) eqn:Hi.
  - apply order_request; auto.
  - apply (order_quiet st); [exact Ho | apply quiet_cleanup].
Qed.

Lemma order_resume_with (k : Cont) (p : Promise) (o : Outcome) (st : Client) :
  handshake_order st -> handshake_order (resume_with k p o st).
Proof.
  intros Ho. destruct k as [c | c | | | | |]; cbn [resume_with].
  - destruct o as [v|e].
    + pose proof (quiet_sendNotification "notifications/initialized" st) as H.
      destruct (sendNotification "notifications/initialized" st) as [q st1].
      cbn [snd] in H. apply (order_quiet st); [exact Ho|].
      apply (quiet_trans _ st1); [exact H|].
      exists []. rewrite app_nil_r. auto.
    + apply (order_quiet st); [exact Ho|]. quiet_by [ESettle c (Rejected e)].
  - destruct o as [v|e].
    + destruct Ho as [Hf Hd]. split.
      * cbn [settle log emit set_effects set_initialized effects].
        rewrite <- !app_assoc. apply handshake_first_quiet; [exact Hf | reflexivity].
      * intros _. cbn [settle log emit set_effects set_initialized effects].
        rewrite !existsb_app. cbn. rewrite !orb_true_r. reflexivity.
    + apply (order_quiet st); [exact Ho|]. quiet_by [ESettle c (Rejected e)].
  - apply (order_quiet st); [exact Ho|]. quiet_by [EReturn p (listTools_return o)].
  - apply (order_quiet st); [exact Ho|]. quiet_by [EReturn p (result_return o)].
  - apply (order_quiet st); [exact Ho|]. quiet_by [EReturn p (listResources_return o)].
  - apply (order_quiet st); [exact Ho|]. quiet_by [EReturn p (result_return o)].
  - apply (order_quiet st); [exact Ho|].
    destruct o as [v|e].
    + apply (quiet_trans _ (log DEBUG "Shutdown request sent" st));
        [quiet_by [ELog DEBUG "Shutdown request sent"] | apply quiet_cleanup].
    + apply (quiet_trans _ (log ERROR "Error during shutdown" st));
        [quiet_by [ELog ERROR "Error during shutdown"] | apply quiet_cleanup].
Qed.

Lemma order_step (st : Client) (ev : Event) :
  handshake_order st -> handshake_order (step parse st ev).
Proof.
  intros Ho. destruct ev as [| name arguments_ | | uri | | p | data | | w ok | t | |];
    cbn [step].
  - apply order_when_initialized; [exact Ho|]. intros Hi. apply order_request; auto.
  - apply order_when_initialized; [exact Ho|]. intros Hi.
    apply order_request; [|left; exact Hi].
    apply (order_quiet st); [exact Ho|]. quiet_by [ELog DEBUG "Calling tool"].
  - apply order_when_initialized; [exact Ho|]. intros Hi. apply order_request; auto.
  - apply order_when_initialized; [exact Ho|]. intros Hi. apply order_request; auto.
  - apply order_disconnect, Ho.
  - unfold resume. destruct (awaiting st !! p) as [k|]; [|exact Ho].
    destruct (outcome p st) as [o|]; [|exact Ho].
    apply order_resume_with. exact Ho.
  - destruct (handlers st); [|exact Ho].
    apply (order_quiet st); [exact Ho | apply quiet_handleText].
  - destruct (handlers st); [|exact Ho].
    apply (order_quiet st); [exact Ho|]. quiet_by [ELog DEBUG "stderr"].
  - destruct (take_out write_eqb w (writes st)) as [rest|]; [|exact Ho].
    apply (order_quiet (set_writes rest st)); [exact Ho | apply quiet_write_callback].
  - destruct (take_out timer_eqb t (timers st)) as [rest|]; [|exact Ho].
    apply (order_quiet (set_timers rest st)); [exact Ho | apply quiet_timer_callback].
  - unfold on_exit. destruct (handlers st); [|exact Ho].
    destruct (child st) as [c|]; [|exact Ho]. destruct (exited c); [exact Ho|].
    apply (order_quiet st); [exact Ho|].
    eapply quiet_trans; [|apply quiet_cleanup]. quiet_by [ELog INFO "exited"].
  - unfold on_error. destruct (handlers st) as [c|]; [|exact Ho].
    apply (order_quiet st); [exact Ho|].
    quiet_by [ELog ERROR "process error"; ESettle c (Rejected ErrProcess)].
Qed.

Lemma order_run (evs : list Event) (st : Client) :
  handshake_order st -> handshake_order (run parse st evs).
Proof.
  revert st. induction evs as [|ev evs IH]; intros st Ho; [exact Ho|].
  cbn [run fold_left]. apply IH, order_step, Ho.
Qed.

Lemma order_connect (sp : SpawnResult) (cfg : Config) (name : string) :
  handshake_order (connect sp (constructor cfg name)).
Proof.
  unfold connect, new_promise. destruct sp as [|pid i o e].
  - split; [reflexivity | discriminate].
  - destruct (negb (i && o && e)); [split; [reflexivity | discriminate]|].
    unfold initialize, getNextRequestId.
    match goal with
    | |- context [sendRequest ?r ?s] =>
        destruct (sendRequest_effects r s) as (Hi & es & He & Hw);
        destruct (sendRequest r s) as [p st1]
    end.
    cbn [snd] in *. rewrite andb_false_r in Hw.
    unfold handshake_order, await.
    cbn [set_awaiting effects initialized]. rewrite He, Hi. split.
    + apply handshake_first_quiet; [reflexivity | exact Hw].
    + discriminate.
Qed.

(** X10.  On a connection from [connect] on, the handshake comes first:
    when a request other than the initialize request is written to the child,
    [initialize()] has run to its end before; and a connection that is
    initialized has completed its handshake. *)
Theorem handshake_before_requests (cfg : Config) (name : string) (sp : SpawnResult)
  (evs : list Event) (before after : list Effect) (p : Promise) (r : Request) :
  let st := run parse (connect sp (constructor cfg name)) evs in
  effects st = before ++ EWriteRequest p r :: after ->
  req_method r <> "initialize" ->
  existsb is_handshake_done before = true.
Proof.
  intros st He Hm.
  destruct (order_run evs _ (order_connect sp cfg name)) as [Hf _]. fold st in Hf.
  rewrite He in Hf. exact (handshake_first_split before after p r Hf Hm).
Qed.

(** X11.  On a connection from [connect] on, [initialized] is only true
    after [initialize()] has run to its end. *)
Theorem initialized_after_handshake (cfg : Config) (name : string) (sp : SpawnResult)
  (evs : list Event) :
  let st := run parse (connect sp (constructor cfg name)) evs in
  initialized st = true ->
  existsb is_handshake_done (effects st) = true.
Proof.
  intros st. destruct (order_run evs _ (order_connect sp cfg name)) as [_ Hd].
  exact Hd.
Qed.

End HandshakeOrder.

(** The tools/call request of a ready client is written after the
    handshake. *)
Lemma handshake_before_requests_witness :
  MCPClient.effects
    (MCPClient.run Samples.parse
       (MCPClient.connect (MCPClient.Spawned 4242 true true true)
          (MCPClient.constructor Samples.filesystem "filesystem"))
       Samples.in_flight)
  = Samples.before_call ++ MCPClient.EWriteRequest 3 Samples.call_request :: []
  /\ existsb Props.is_handshake_done Samples.before_call = true.
Proof.
  assert (H : MCPClient.effects
                (MCPClient.run Samples.parse
                   (MCPClient.connect (MCPClient.Spawned 4242 true true true)
                      (MCPClient.constructor Samples.filesystem "filesystem"))
                   Samples.in_flight)
              = Samples.before_call
                ++ MCPClient.EWriteRequest 3 Samples.call_request :: [])
    by (vm_compute; reflexivity).
  assert (Hm : MCPClient.req_method Samples.call_request <> "initialize")
    by (vm_compute; discriminate).
  split; [exact H|].
  exact (handshake_before_requests Samples.parse Samples.filesystem "filesystem"
           (MCPClient.Spawned 4242 true true true) Samples.in_flight
           Samples.before_call [] 3%nat Samples.call_request H Hm).
Defined.

(** A ready client. *)
Lemma initialized_after_handshake_witness :
  MCPClient.initialized
    (MCPClient.run Samples.parse
       (MCPClient.connect (MCPClient.Spawned 4242 true true true)
          (MCPClient.constructor Samples.filesystem "filesystem"))
       Samples.handshake) = true
  /\ existsb Props.is_handshake_done
       (MCPClient.effects
          (MCPClient.run Samples.parse
             (MCPClient.connect (MCPClient.Spawned 4242 true true true)
                (MCPClient.constructor Samples.filesystem "filesystem"))
             Samples.handshake)) = true.
Proof.
  assert (H : MCPClient.initialized
                (MCPClient.run Samples.parse
                   (MCPClient.connect (MCPClient.Spawned 4242 true true true)
                      (MCPClient.constructor Samples.filesystem "filesystem"))
                   Samples.handshake) = true) by (vm_compute; reflexivity).
  split; [exact H|].
  exact (initialized_after_handshake Samples.parse Samples.filesystem "filesystem"
           (MCPClient.Spawned 4242 true true true) Samples.handshake H).
Defined.

(* ===================================================================== *)
(** * The line buffer *)
(* ===================================================================== *)

Section Buffer.
Import JS MCPClient Props.

Variable parse : text -> option JSValue.

Lemma split_all_no_LF (s : text) : forallb no_LF (split s) = true.
Proof.
  induction s as [|c s IH]; [reflexivity|].
  cbn [split]. destruct (N.eqb_spec c LF) as [|Hc]; [exact IH|].
  destruct (split s) as [|l ls]; cbn in *.
  - apply N.eqb_neq in Hc. rewrite Hc. reflexivity.
  - apply N.eqb_neq in Hc. rewrite Hc. exact IH.
Qed.

Lemma last_no_LF (ls : list text) :
  forallb no_LF ls = true -> no_LF (List.last ls []) = true.
Proof.
  induction ls as [|l ls IH]; [reflexivity|].
  intros H. cbn in H. apply andb_prop in H as [Hl Hls].
  destruct ls as [|l' ls]; [exact Hl|]. apply IH, Hls.
Qed.

Lemma buffer_handleStdout (data : list Byte.byte) (st : Client) :
  no_LF (buffer (handleStdout parse data st)) = true.
Proof.
  unfold handleStdout. rewrite handleText_buffer. apply last_no_LF, split_all_no_LF.
Qed.

Lemma buffer_cleanup (st : Client) : buffer (cleanup st) = buffer st.
Proof.
  unfold cleanup, kill. destruct (process st); [|reflexivity].
  destruct (child st) as [c|]; [destruct (exited c)|]; reflexivity.
Qed.

Lemma buffer_request (k : Cont) (method : string) (params : JSValue) (st : Client) :
  buffer (request k method params st) = buffer st.
Proof.
  unfold request, getNextRequestId, sendRequest, new_promise.
  destruct (negb (has_stdin _)); reflexivity.
Qed.

Lemma buffer_resume_with (k : Cont) (p : Promise) (o : Outcome) (st : Client) :
  buffer (resume_with k p o st) = buffer st.
Proof.
  destruct k, o; cbn [resume_with]; try reflexivity;
    try (rewrite buffer_cleanup; reflexivity).
  unfold sendNotification, new_promise. destruct (negb (has_stdin _)); reflexivity.
Qed.

Lemma buffer_step (st : Client) (ev : Event) :
  buffer (step parse st ev) = buffer st
  \/ no_LF (buffer (step parse st ev)) = true.
Proof.
  destruct ev as [| name arguments_ | | uri | | p | data | | w ok | t | |];
    cbn [step].
  - left. unfold listTools, when_initialized.
    destruct (negb (initialized st)); [reflexivity | apply buffer_request].
  - left. unfold callTool, when_initialized.
    destruct (negb (initialized st)); [reflexivity|]. rewrite buffer_request. reflexivity.
  - left. unfold listResources, when_initialized.
    destruct (negb (initialized st)); [reflexivity | apply buffer_request].
  - left. unfold readResource, when_initialized.
    destruct (negb (initialized st)); [reflexivity | apply buffer_request].
  - left. unfold disconnect.
    destruct (initialized st); [apply buffer_request | apply buffer_cleanup].
  - left. unfold resume. destruct (awaiting st !! p) as [k|]; [|reflexivity].
    destruct (outcome p st) as [o|]; [|reflexivity].
    rewrite buffer_resume_with. reflexivity.
  - destruct (handlers st); [right; apply buffer_handleStdout | left; reflexivity].
  - left. destruct (handlers st); reflexivity.
  - left. destruct (take_out write_eqb w (writes st)) as [rest|]; [|reflexivity].
    destruct w as [id p | p]; destruct ok; reflexivity.
  - left. destruct (take_out timer_eqb t (timers st)) as [rest|]; [|reflexivity].
    destruct t as [id p|]; cbn [timer_callback].
    + destruct (pendingRequests _ !! id); reflexivity.
    + unfold force_kill, kill. destruct (_ && _); [|reflexivity].
      cbn [child log emit set_effects set_timers].
      destruct (child st) as [c|]; [destruct (exited c)|]; reflexivity.
  - left. unfold on_exit. destruct (handlers st); [|reflexivity].
    destruct (child st) as [c|]; [|reflexivity]. destruct (exited c); [reflexivity|].
    rewrite buffer_cleanup. reflexivity.
  - left. unfold on_error. destruct (handlers st); reflexivity.
Qed.

(** X12.  On a connection from [connect] on, [buffer] never holds a
    newline: it is the unfinished last line of what the child has written,
    every complete line having been taken out when its newline arrived. *)
Theorem buffer_holds_no_newline (cfg : Config) (name : string) (sp : SpawnResult)
  (evs : list Event) :
  no_LF (buffer (run parse (connect sp (constructor cfg name)) evs)) = true.
Proof.
  assert (H0 : no_LF (buffer (connect sp (constructor cfg name))) = true).
  { unfold connect, new_promise. destruct sp as [|pid i o e]; [reflexivity|].
    destruct (negb (i && o && e)); [reflexivity|].
    unfold initialize, getNextRequestId, sendRequest, new_promise.
    destruct (negb (has_stdin _)); reflexivity. }
  revert H0. generalize (connect sp (constructor cfg name)).
  induction evs as [|ev evs IH]; intros st H; [exact H|].
  cbn [run fold_left]. apply IH.
  destruct (buffer_step st ev) as [-> | Hb]; assumption.
Qed.

End Buffer.

(* ===================================================================== *)
(** * A connection that could not be set up *)
(* ===================================================================== *)

Section SetupFailed.
Import JS MCPClient Props.

Variable parse : text -> option JSValue.

Lemma is_write_rejected (st : Client) (entries : list (Z * Promise)) :
  existsb is_write (map (reject_closed st) entries) = false.
Proof. induction entries as [|entry entries IH]; [reflexivity | exact IH]. Qed.

Lemma down_effects (st st' : Client) (es : list Effect) :
  down st ->
  handlers st' = handlers st ->
  initialized st' = false ->
  awaiting st' = awaiting st ->
  writes st' = writes st ->
  pendingRequests st' = ∅ ->
  effects st' = effects st ++ es ->
  existsb is_write es = false ->
  down st'.
Proof.
  intros (Hh & Hi & Ha & Hw & Hp & He) Hh' Hi' Ha' Hw' Hp' He' Hes.
  repeat split; try congruence.
  rewrite He', existsb_app, He, Hes. reflexivity.
Qed.

Lemma down_kill (sig : Signal) (st : Client) : down st -> down (kill sig st).
Proof.
  intros D. pose proof D as (Hh & Hi & Ha & Hw & Hp & He). unfold kill.
  destruct (child st) as [c|]; [destruct (exited c)|].
  - apply (down_effects st _ [EKill sig false]); auto.
  - apply (down_effects st _ [EKill sig true]); auto.
  - apply (down_effects st _ [EKill sig false]); auto.
Qed.

Lemma down_cleanup (st : Client) : down st -> down (cleanup st).
Proof.
  intros D. pose proof D as (Hh & Hi & Ha & Hw & Hp & He).
  destruct (cleanup_effects st) as (ks & Hks & Hes).
  apply (down_effects st _ _ D) in Hes; auto.
  - unfold cleanup, kill. destruct (process st); [|reflexivity].
    destruct (child st) as [c|]; [destruct (exited c)|]; reflexivity.
  - unfold cleanup, kill. destruct (process st); [|reflexivity].
    destruct (child st) as [c|]; [destruct (exited c)|]; reflexivity.
  - unfold cleanup, kill. destruct (process st); [|reflexivity].
    destruct (child st) as [c|]; [destruct (exited c)|]; reflexivity.
  - rewrite !existsb_app, is_write_rejected.
    destruct Hks as [-> | [delivered ->]]; reflexivity.
Qed.

Lemma down_throw (st : Client) (body : Client -> Client) :
  down st -> down (when_initialized body st).
Proof.
  intros D. pose proof D as (Hh & Hi & Ha & Hw & Hp & He).
  unfold when_initialized. rewrite Hi. cbn [negb].
  apply (down_effects st _ [EThrow (ErrNotInitialized (serverName st))]); auto.
Qed.

Lemma down_step (st : Client) (ev : Event) : down st -> down (step parse st ev).
Proof.
  intros D. pose proof D as (Hh & Hi & Ha & Hw & Hp & He).
  destruct ev as [| name arguments_ | | uri | | p | data | | w ok | t | |];
    cbn [step].
  - apply down_throw, D.
  - apply down_throw, D.
  - apply down_throw, D.
  - apply down_throw, D.
  - unfold disconnect. rewrite Hi. apply down_cleanup, D.
  - unfold resume. rewrite Ha, lookup_empty. exact D.
  - rewrite Hh. exact D.
  - rewrite Hh. exact D.
  - rewrite Hw. exact D.
  - destruct (take_out timer_eqb t (timers st)) as [rest|]; [|exact D].
    assert (D' : down (set_timers rest st)) by exact D.
    destruct t as [id p|]; cbn [timer_callback].
    + change (pendingRequests (set_timers rest st)) with (pendingRequests st).
      rewrite Hp, lookup_empty. exact D'.
    + unfold force_kill. destruct (_ && _); [|exact D'].
      apply down_kill.
      apply (down_effects _ _ [ELog WARN "Force killing process"] D'); auto.
  - unfold on_exit. rewrite Hh. exact D.
  - unfold on_error. rewrite Hh. exact D.
Qed.

(** X13.  When [connect()] fails before it installs the handlers ([spawn]
    throws or a stream is missing), the connection stays down whatever
    happens later: it is never initialized and never reported as connected,
    no request is ever pending and nothing is ever written to the child. *)
Theorem failed_setup_stays_down (cfg : Config) (name : string) (sp : SpawnResult)
  (evs : list Event) :
  setup_fails sp = true ->
  let st := run parse (connect sp (constructor cfg name)) evs in
  initialized st = false
  /\ isConnected st = false
  /\ pendingRequests st = ∅
  /\ existsb is_write (effects st) = false.
Proof.
  intros Hsp st.
  assert (D : down st).
  { subst st.
    assert (D0 : down (connect sp (constructor cfg name))).
    { unfold connect, new_promise. destruct sp as [|pid i o e].
      - repeat split.
      - cbn [setup_fails] in Hsp. rewrite Hsp. repeat split. }
    revert D0. generalize (connect sp (constructor cfg name)).
    induction evs as [|ev evs IH]; intros s D; [exact D|].
    cbn [run fold_left]. apply IH, down_step, D. }
  destruct D as (Hh & Hi & Ha & Hw & Hp & He).
  repeat split; try assumption.
  unfold isConnected. rewrite Hi. reflexivity.
Qed.

End SetupFailed.

(** [spawn] gives a child without stdout; the caller then calls
    [listTools()] and [disconnect()]. *)
Lemma failed_setup_stays_down_witness :
  Props.setup_fails (MCPClient.Spawned 4242 true false true) = true
  /\ MCPClient.initialized
       (MCPClient.run Samples.parse
          (MCPClient.connect (MCPClient.Spawned 4242 true false true)
             (MCPClient.constructor Samples.filesystem "filesystem"))
          [MCPClient.ListTools; MCPClient.Disconnect]) = false.
Proof.
  assert (H : Props.setup_fails (MCPClient.Spawned 4242 true false true) = true)
    by (vm_compute; reflexivity).
  split; [exact H|].
  exact (proj1 (failed_setup_stays_down Samples.parse Samples.filesystem "filesystem"
                  (MCPClient.Spawned 4242 true false true)
                  [MCPClient.ListTools; MCPClient.Disconnect] H)).
Defined.

(* ===================================================================== *)
(** * More on the dispatch of messages *)
(* ===================================================================== *)

Section DispatchMore.
Import JS MCPClient Props.

Variable parse : text -> option JSValue.

(** X14.  A line that is valid JSON but not an object settles no waiter and
    emits no notification: a number, string, boolean or array only adds the
    log entry of [handleResponse]; [null] makes [handleResponse] throw, which
    [handleStdout] catches and logs. *)
Theorem non_object_line_ignored (st : Client) (line : text) (v : JSValue) :
  nonempty (trim line) = true ->
  parse (trim line) = Some v ->
  is_object v = false ->
  handleLine parse st line
  = if nullish v
    then log ERROR "Failed to parse response" (log DEBUG "Received response" st)
    else log DEBUG "Received response" st.
Proof.
  intros Hne Hparse Hobj. unfold handleLine. rewrite Hne, Hparse.
  destruct v; try discriminate Hobj; reflexivity.
Qed.

(** X15.  Answers may arrive in any order.  On a connection from [connect]
    on with two requests pending, the messages that answer them leave the
    same table and make the same calls on every waiter whichever of the two
    is handled first. *)
Theorem responses_commute (cfg : Config) (name : string) (sp : SpawnResult)
  (evs : list Event) (id1 id2 : Z) (p1 p2 : Promise) (r1 r2 : JSValue) :
  let st := run parse (connect sp (constructor cfg name)) evs in
  pendingRequests st !! id1 = Some p1 ->
  pendingRequests st !! id2 = Some p2 ->
  id1 <> id2 ->
  id1 <> 0 ->
  id2 <> 0 ->
  get_prop r1 "id" = Some (JNum id1) ->
  get_prop r2 "id" = Some (JNum id2) ->
  let first := fst (handleResponse r2 (fst (handleResponse r1 st))) in
  let second := fst (handleResponse r1 (fst (handleResponse r2 st))) in
  pendingRequests first = pendingRequests second
  /\ forall p, calls_on p (effects first) = calls_on p (effects second).
Proof.
  intros st H1 H2 Hne Hz1 Hz2 Hr1 Hr2 first second.
  pose proof (inv_reachable parse cfg name sp evs) as I. fold st in I.
  assert (Hp : p1 <> p2).
  { intros Heq. apply Hne.
    apply (inv_inj st I id1 p1 id2 p2); [apply (inv_pending st I) ..|]; assumption. }
  subst first second.
  rewrite (handleResponse_matching r1 st id1 p1 Hr1 Hz1 H1).
  rewrite (handleResponse_matching r2 st id2 p2 Hr2 Hz2 H2).
  cbn [fst].
  rewrite (handleResponse_matching r2 _ id2 p2 Hr2 Hz2)
    by (cbn; rewrite lookup_delete_ne by congruence; exact H2).
  rewrite (handleResponse_matching r1 _ id1 p1 Hr1 Hz1)
    by (cbn; rewrite lookup_delete_ne by congruence; exact H1).
  cbn [fst]. split.
  - cbn. apply delete_delete.
  - intros p. cbn [settle log emit set_effects set_pendingRequests effects serverName].
    rewrite <- !app_assoc, !calls_on_app. f_equal.
    cbn [calls_on app].
    destruct (Nat.eqb_spec p1 p) as [E1|_], (Nat.eqb_spec p2 p) as [E2|_];
      try reflexivity.
    exfalso. apply Hp. congruence.
Qed.

End DispatchMore.

(** The line [null]. *)
Lemma non_object_line_ignored_witness :
  JS.nonempty (JS.trim (JS.toString (JS.bytes "null"))) = true
  /\ MCPClient.handleLine Samples.parse_null Samples.ready (JS.toString (JS.bytes "null"))
     = MCPClient.log MCPClient.ERROR "Failed to parse response"
         (MCPClient.log MCPClient.DEBUG "Received response" Samples.ready).
Proof.
  assert (H : JS.nonempty (JS.trim (JS.toString (JS.bytes "null"))) = true)
    by (vm_compute; reflexivity).
  assert (Hp : Samples.parse_null (JS.trim (JS.toString (JS.bytes "null")))
               = Some JS.JNull) by (vm_compute; reflexivity).
  split; [exact H|].
  exact (non_object_line_ignored Samples.parse_null Samples.ready
           (JS.toString (JS.bytes "null")) JS.JNull H Hp eq_refl).
Defined.

(** The answers to requests 2 and 3. *)
Lemma responses_commute_witness :
  MCPClient.pendingRequests
    (MCPClient.run Samples.parse
       (MCPClient.connect (MCPClient.Spawned 4242 true true true)
          (MCPClient.constructor Samples.filesystem "filesystem"))
       Samples.two_in_flight) !! 2 = Some 3%nat
  /\ MCPClient.pendingRequests
       (MCPClient.run Samples.parse
          (MCPClient.connect (MCPClient.Spawned 4242 true true true)
             (MCPClient.constructor Samples.filesystem "filesystem"))
          Samples.two_in_flight) !! 3 = Some 4%nat
  /\ MCPClient.pendingRequests
       (fst (MCPClient.handleResponse (Samples.response 3 (JS.JObj []))
               (fst (MCPClient.handleResponse (Samples.response 2 (JS.JObj []))
                       (MCPClient.run Samples.parse
                          (MCPClient.connect (MCPClient.Spawned 4242 true true true)
                             (MCPClient.constructor Samples.filesystem "filesystem"))
                          Samples.two_in_flight)))))
     = MCPClient.pendingRequests
         (fst (MCPClient.handleResponse (Samples.response 2 (JS.JObj []))
                 (fst (MCPClient.handleResponse (Samples.response 3 (JS.JObj []))
                         (MCPClient.run Samples.parse
                            (MCPClient.connect (MCPClient.Spawned 4242 true true true)
                               (MCPClient.constructor Samples.filesystem "filesystem"))
                            Samples.two_in_flight))))).
Proof.
  assert (H1 : MCPClient.pendingRequests
                 (MCPClient.run Samples.parse
                    (MCPClient.connect (MCPClient.Spawned 4242 true true true)
                       (MCPClient.constructor Samples.filesystem "filesystem"))
                    Samples.two_in_flight) !! 2 = Some 3%nat)
    by (vm_compute; reflexivity).
  assert (H2 : MCPClient.pendingRequests
                 (MCPClient.run Samples.parse
                    (MCPClient.connect (MCPClient.Spawned 4242 true true true)
                       (MCPClient.constructor Samples.filesystem "filesystem"))
                    Samples.two_in_flight) !! 3 = Some 4%nat)
    by (vm_compute; reflexivity).
  split; [exact H1|]. split; [exact H2|].
  exact (proj1 (responses_commute Samples.parse Samples.filesystem "filesystem"
                  (MCPClient.Spawned 4242 true true true) Samples.two_in_flight
                  2 3 3%nat 4%nat
                  (Samples.response 2 (JS.JObj [])) (Samples.response 3 (JS.JObj []))
                  H1 H2 ltac:(lia) ltac:(lia) ltac:(lia) eq_refl eq_refl)).
Defined.

(* ===================================================================== *)
(** * More on the manager *)
(* ===================================================================== *)

Section Registry.
Import JS MCPManager Props.

Lemma manager_eq (m m' : Manager) :
  clients m = clients m' -> configs m = configs m' -> m = m'.
Proof. destruct m, m'; cbn; intros -> ->; reflexivity. Qed.

(** X16.  Registering a server under a name that is already registered
    replaces the configuration: the last registration is the one found, the
    other names keep theirs, and no client is touched, so a server that is
    connected goes on with the configuration it was started with. *)
Theorem registerServer_replaces (config config' : ServerConfig) (m : Manager) :
  name config = name config' ->
  registerServer config' (registerServer config m) = registerServer config' m
  /\ configs (registerServer config' m) !! name config = Some config'
  /\ (forall other, other <> name config ->
        configs (registerServer config' m) !! other = configs m !! other)
  /\ clients (registerServer config' (registerServer config m)) = clients m.
Proof.
  intros Hname. unfold registerServer. cbn. rewrite Hname. repeat split.
  - f_equal. apply insert_insert_eq.
  - apply lookup_insert_eq.
  - intros other Hother. apply lookup_insert_ne. congruence.
Qed.


(** X18.  Connecting a server and disconnecting it again gives the manager
    back as it was, whether the entry is taken out by [disconnectServer]
    (on either of its paths) or by the listener of the client's disconnected
    signal. *)
Theorem connect_disconnect_round_trip (serverName : string)
  (customConfig : CustomConfig) (m : Manager) (fresh client : MCPClient.Client)
  (disconnected : Result unit) :
  snd (connectServer serverName customConfig m) = Connecting fresh ->
  let m' := fst (connectServer_resume serverName (inl client) m) in
  fst (disconnectServer_resume serverName disconnected m') = m
  /\ on_disconnected serverName m' = m.
Proof.
  intros Hstart m'. unfold connectServer in Hstart.
  destruct (clients m !! serverName) eqn:Hc; [discriminate Hstart|].
  assert (H : delete serverName (clients m') = clients m).
  { subst m'. cbn. apply delete_insert_id, Hc. }
  split.
  - destruct disconnected; cbn [disconnectServer_resume fst];
      apply manager_eq; cbn; (exact H || reflexivity).
  - apply manager_eq; cbn; (exact H || reflexivity).
Qed.

Lemma disconnect_one_clients (disconnected : string -> Result unit) (m : Manager)
  (serverName : string) :
  clients (disconnect_one disconnected m serverName) = delete serverName (clients m)
  /\ configs (disconnect_one disconnected m serverName) = configs m.
Proof.
  unfold disconnect_one. destruct (disconnected serverName); split; reflexivity.
Qed.

Lemma disconnect_fold (disconnected : string -> Result unit) (order : list string)
  (m : Manager) (serverName : string) :
  clients (fold_left (disconnect_one disconnected) order m) !! serverName
  = (if bool_decide (serverName ∈ order) then None else clients m !! serverName)
  /\ configs (fold_left (disconnect_one disconnected) order m) = configs m.
Proof.
  revert m. induction order as [|n order IH]; intros m.
  - cbn [fold_left]. rewrite bool_decide_eq_false_2 by (intros H; inversion H). auto.
  - cbn [fold_left]. destruct (IH (disconnect_one disconnected m n)) as [-> ->].
    destruct (disconnect_one_clients disconnected m n) as [-> ->].
    split; [|reflexivity].
    destruct (decide (serverName ∈ order)) as [Hin|Hout].
    + rewrite !bool_decide_eq_true_2; [reflexivity | right; exact Hin | exact Hin].
    + rewrite (bool_decide_eq_false_2 _ Hout).
      destruct (decide (serverName = n)) as [->|Hne].
      * rewrite bool_decide_eq_true_2 by left. apply lookup_delete_eq.
      * rewrite bool_decide_eq_false_2.
        -- apply lookup_delete_ne. congruence.
        -- intros H. apply elem_of_cons in H as [?|?]; contradiction.
Qed.


(** X20.  Once a server is disconnected, [callTool] and [readResource] on
    it throw the not-connected error, and the connected servers that the
    message lists do not include it. *)
Theorem verbs_after_disconnect (call read : MCPClient.Client -> MCPClient.Outcome)
  (serverName : string) (disconnected : Result unit) (m : Manager) :
  let m' := fst (disconnectServer_resume serverName disconnected m) in
  callTool call serverName m' = inr (ErrNoClient serverName (getConnectedServers m'))
  /\ readResource read serverName m'
     = inr (ErrNoClient serverName (getConnectedServers m'))
  /\ serverName ∉ getConnectedServers m'.
Proof.
  intros m'.
  assert (Hc : clients m' = delete serverName (clients m))
    by (subst m'; destruct disconnected; reflexivity).
  assert (Hn : clients m' !! serverName = None)
    by (rewrite Hc; apply lookup_delete_eq).
  unfold callTool, readResource. rewrite Hn. repeat split.
  unfold getConnectedServers. intros Hin.
  apply list_elem_of_fmap in Hin as ([n c] & Heq & Hin).
  cbn in Heq. subst n. apply elem_of_map_to_list in Hin. congruence.
Qed.

End Registry.

(** The filesystem server registered twice. *)
Lemma registerServer_replaces_witness :
  MCPManager.name Samples.filesystem_tmp = MCPManager.name Samples.filesystem_home
  /\ MCPManager.registerServer Samples.filesystem_home
       (MCPManager.registerServer Samples.filesystem_tmp Samples.connected)
     = MCPManager.registerServer Samples.filesystem_home Samples.connected.
Proof.
  assert (H : MCPManager.name Samples.filesystem_tmp
              = MCPManager.name Samples.filesystem_home) by reflexivity.
  split; [exact H|].
  exact (proj1 (registerServer_replaces Samples.filesystem_tmp Samples.filesystem_home
                  Samples.connected H)).
Defined.


(** The filesystem server connected and disconnected. *)
Lemma connect_disconnect_round_trip_witness :
  snd (MCPManager.connectServer "filesystem" MCPManager.noCustomConfig
         Samples.registered)
  = MCPManager.Connecting
      (MCPClient.constructor
         (MCPManager.mcpConfig Samples.filesystem_tmp MCPManager.noCustomConfig)
         "filesystem")
  /\ MCPManager.on_disconnected "filesystem"
       (fst (MCPManager.connectServer_resume "filesystem" (inl Samples.ready)
               Samples.registered))
     = Samples.registered.
Proof.
  assert (H : snd (MCPManager.connectServer "filesystem" MCPManager.noCustomConfig
                     Samples.registered)
              = MCPManager.Connecting
                  (MCPClient.constructor
                     (MCPManager.mcpConfig Samples.filesystem_tmp
                        MCPManager.noCustomConfig)
                     "filesystem")) by (vm_compute; reflexivity).
  split; [exact H|].
  exact (proj2 (connect_disconnect_round_trip "filesystem" MCPManager.noCustomConfig
                  Samples.registered _ Samples.ready (MCPManager.Ok tt) H)).
Defined.


(* ===================================================================== *)
(** * The manager over time *)
(* ===================================================================== *)

Section Sessions.
Import JS MCPManager Props.

Lemma completed_subset (serverName n : string) (calls : list string) :
  n ∈ completed serverName calls -> n ∈ calls.
Proof.
  induction calls as [|c calls IH]; [auto|].
  cbn [completed]. destruct (String.eqb c serverName).
  - intros H. right. exact H.
  - intros H. apply elem_of_cons in H as [-> | H]; [left | right; auto].
Qed.

Lemma registered_delete (serverName : string) (m m' : Manager) :
  clients_registered m ->
  clients m' = delete serverName (clients m) ->
  configs m' = configs m ->
  clients_registered m'.
Proof.
  intros R Hc Hg n H. rewrite Hc in H. rewrite Hg.
  apply lookup_delete_is_Some in H as [_ H]. apply R, H.
Qed.

Lemma registered_disconnect_fold (disconnected : string -> Result unit)
  (order : list string) (m : Manager) :
  clients_registered m ->
  clients_registered (fold_left (disconnect_one disconnected) order m).
Proof.
  intros R n H.
  destruct (disconnect_fold disconnected order m n) as [Hc Hg].
  rewrite Hc in H. rewrite Hg.
  destruct (bool_decide (n ∈ order)); [destruct H; discriminate | apply R, H].
Qed.

(** One round of the loop of [initializeDefaultServers]. *)
Lemma start_one_spec (connect : MCPClient.Client -> MCPClient.Client + MCPClient.Error)
  (m : Manager) (serverName : string) :
  configs (start_one connect m serverName) = configs m
  /\ (forall n client, clients m !! n = Some client ->
        clients (start_one connect m serverName) !! n = Some client)
  /\ (forall n, is_Some (clients (start_one connect m serverName) !! n) ->
        is_Some (clients m !! n)
        \/ (n = serverName /\ is_Some (configs m !! serverName))).
Proof.
  unfold start_one, connectServer.
  destruct (clients m !! serverName) as [c|] eqn:Hc; [auto|].
  destruct (configs m !! serverName) as [config|] eqn:Hg; [|auto].
  destruct (connect _) as [client | e]; cbn; [|auto].
  split; [reflexivity|]. split.
  - intros n c Hn. rewrite lookup_insert_ne; [exact Hn | congruence].
  - intros n H. destruct (decide (n = serverName)) as [->|Hne].
    + right. split; [reflexivity | eexists; reflexivity].
    + left. rewrite lookup_insert_ne in H by congruence. exact H.
Qed.

Lemma start_fold_spec (connect : MCPClient.Client -> MCPClient.Client + MCPClient.Error)
  (names : list string) (m : Manager) :
  configs (fold_left (start_one connect) names m) = configs m
  /\ (forall n client, clients m !! n = Some client ->
        clients (fold_left (start_one connect) names m) !! n = Some client)
  /\ (forall n, is_Some (clients (fold_left (start_one connect) names m) !! n) ->
        is_Some (clients m !! n) \/ (n ∈ names /\ is_Some (configs m !! n))).
Proof.
  revert m. induction names as [|name names IH]; intros m; [cbn; auto|].
  cbn [fold_left].
  destruct (IH (start_one connect m name)) as (Hg & Hkeep & Hnew).
  destruct (start_one_spec connect m name) as (Hg1 & Hkeep1 & Hnew1).
  split; [congruence|]. split.
  - intros n c Hn. apply Hkeep, Hkeep1, Hn.
  - intros n H. apply Hnew in H as [H | [Hin Hcfg]].
    + apply Hnew1 in H as [H | [-> Hcfg]]; [left; exact H|].
      right. split; [left | exact Hcfg].
    + right. split; [right; exact Hin | rewrite <- Hg1; exact Hcfg].
Qed.


Lemma session_step (s : Session) (ev : Event) :
  session_registered s -> session_registered (step s ev).
Proof.
  intros [R C].
  destruct ev as [config | n cc | n r | n r | n | d order | connect]; cbn [step].
  - split; cbn [manager connecting registerServer configs clients].
    + intros x H. apply R in H. apply lookup_insert_is_Some'. right. exact H.
    + intros x H. apply C in H. apply lookup_insert_is_Some'. right. exact H.
  - unfold connectServer.
    destruct (clients (manager s) !! n) eqn:Hc; [split; assumption|].
    destruct (configs (manager s) !! n) eqn:Hg; [|split; assumption].
    split; cbn [manager connecting]; [exact R|].
    intros x H. apply elem_of_cons in H as [-> | H]; [|apply C, H].
    rewrite Hg. eexists. reflexivity.
  - destruct (decide (n ∈ connecting s)) as [Hin|Hout].
    + rewrite bool_decide_eq_true_2 by exact Hin.
      destruct r as [client | e]; cbn [connectServer_resume fst]; split;
        cbn [manager connecting set_clients clients configs].
      * intros x H. cbn in H |- *.
        destruct (decide (x = n)) as [->|Hne]; [apply C, Hin|].
        rewrite lookup_insert_ne in H by congruence. apply R, H.
      * intros x H. apply C, (completed_subset n), H.
      * exact R.
      * intros x H. apply C, (completed_subset n), H.
    + rewrite bool_decide_eq_false_2 by exact Hout. split; assumption.
  - split; cbn [manager connecting].
    + apply (registered_delete n (manager s)); [exact R | |];
        destruct r; reflexivity.
    + intros x H. destruct r; apply C, H.
  - split; cbn [manager connecting].
    + apply (registered_delete n (manager s)); [exact R | reflexivity..].
    + exact C.
  - split; cbn [manager connecting disconnectAll fst].
    + apply registered_disconnect_fold, R.
    + intros x H. rewrite (proj2 (disconnect_fold d order (manager s) x)). apply C, H.
  - destruct (start_fold_spec connect (serversToStart (manager s)) (manager s))
      as (Hg & _ & Hnew).
    fold (initializeDefaultServers connect (manager s)) in Hg, Hnew.
    split; cbn [manager connecting].
    + intros x H. rewrite Hg. apply Hnew in H as [H | [_ H]]; [apply R, H | exact H].
    + intros x H. rewrite Hg. apply C, H.
Qed.

Lemma session_run (evs : list Event) (s : Session) :
  session_registered s -> session_registered (run s evs).
Proof.
  revert s. induction evs as [|ev evs IH]; intros s H; [exact H|].
  cbn [run fold_left]. apply IH, session_step, H.
Qed.

(** X22.  At any time in the life of a manager, whatever is called and
    whatever completes in whatever order, every connected server is a
    registered one. *)
Theorem connected_servers_are_registered (nodit_api_key : option string)
  (evs : list Event) (serverName : string) :
  let m := manager (run (start nodit_api_key) evs) in
  is_Some (clients m !! serverName) -> is_Some (configs m !! serverName).
Proof.
  intros m. apply (session_run evs (start nodit_api_key)).
  split.
  - intros n [c H]. exfalso. revert H.
    unfold start, constructor, registerDefaultServers. cbn [manager].
    generalize (defaultServers nodit_api_key).
    intros l. assert (Hl : forall m0, clients m0 = ∅ ->
      clients (fold_left (fun m config => registerServer config m) l m0) = ∅).
    { induction l as [|c0 l IH]; intros m0 H0; [exact H0|]. cbn. apply IH, H0. }
    rewrite Hl by reflexivity. rewrite lookup_empty. discriminate.
  - intros n H. inversion H.
Qed.

End Sessions.

(** The filesystem server connected on a new manager. *)
Lemma connected_servers_are_registered_witness :
  is_Some
    (MCPManager.clients
       (MCPManager.manager
          (MCPManager.run (MCPManager.start None)
             [MCPManager.ConnectServer "filesystem" MCPManager.noCustomConfig;
              MCPManager.ConnectDone "filesystem" (inl Samples.ready)]))
     !! "filesystem")
  /\ is_Some
       (MCPManager.configs
          (MCPManager.manager
             (MCPManager.run (MCPManager.start None)
                [MCPManager.ConnectServer "filesystem" MCPManager.noCustomConfig;
                 MCPManager.ConnectDone "filesystem" (inl Samples.ready)]))
        !! "filesystem").
Proof.
  assert (H : is_Some
                (MCPManager.clients
                   (MCPManager.manager
                      (MCPManager.run (MCPManager.start None)
                         [MCPManager.ConnectServer "filesystem"
                            MCPManager.noCustomConfig;
                          MCPManager.ConnectDone "filesystem" (inl Samples.ready)]))
                 !! "filesystem"))
    by (exists Samples.ready; vm_compute; reflexivity).
  split; [exact H|].
  exact (connected_servers_are_registered None
           [MCPManager.ConnectServer "filesystem" MCPManager.noCustomConfig;
            MCPManager.ConnectDone "filesystem" (inl Samples.ready)]
           "filesystem" H).
Defined.

(* ===================================================================== *)
(** * Status and health *)
(* ===================================================================== *)

Section Status.
Import JS MCPManager Props.

Lemma set_of_elem (names seen : list string) (n : string) :
  n ∈ set_of seen names <-> n ∈ names /\ n ∉ seen.
Proof.
  revert seen. induction names as [|x names IH]; intros seen; cbn [set_of].
  - split; [intros H; inversion H | intros [H _]; inversion H].
  - destruct (decide (x ∈ seen)) as [Hin|Hout].
    + rewrite bool_decide_eq_true_2 by exact Hin. rewrite IH. split.
      * intros [H1 H2]. split; [right; exact H1 | exact H2].
      * intros [H1 H2]. split; [|exact H2].
        apply elem_of_cons in H1 as [->|H1]; [contradiction | exact H1].
    + rewrite bool_decide_eq_false_2 by exact Hout. rewrite elem_of_cons, IH. split.
      * intros [-> | [H1 H2]]; [split; [left | exact Hout]|].
        split; [right; exact H1|]. intros H. apply H2. right. exact H.
      * intros [H1 H2]. apply elem_of_cons in H1 as [->|H1]; [left; reflexivity|].
        destruct (decide (n = x)) as [->|Hne]; [left; reflexivity|].
        right. split; [exact H1|]. intros H. apply elem_of_cons in H as [?|?]; auto.
Qed.

Lemma set_of_NoDup (names seen : list string) : NoDup (set_of seen names).
Proof.
  revert seen. induction names as [|x names IH]; intros seen; cbn [set_of].
  - constructor.
  - destruct (bool_decide (x ∈ seen)); [apply IH|].
    constructor; [|apply IH].
    intros H. apply set_of_elem in H as [_ H]. apply H. left.
Qed.

Lemma set_of_seen (names seen : list string) :
  (forall n, n ∈ names -> n ∈ seen) -> set_of seen names = [].
Proof.
  revert seen. induction names as [|x names IH]; intros seen H; [reflexivity|].
  cbn [set_of]. rewrite bool_decide_eq_true_2 by (apply H; left).
  apply IH. intros n Hn. apply H. right. exact Hn.
Qed.

Lemma set_of_fresh (names more seen : list string) :
  NoDup names ->
  (forall n, n ∈ names -> n ∉ seen) ->
  (forall n, n ∈ more -> n ∈ names \/ n ∈ seen) ->
  set_of seen (names ++ more) = names.
Proof.
  revert seen. induction names as [|x names IH]; intros seen Hnd Hfresh Hmore.
  - cbn [app]. apply set_of_seen. intros n Hn.
    destruct (Hmore n Hn) as [H|H]; [inversion H | exact H].
  - apply NoDup_cons in Hnd as [Hx Hnd]. cbn [app set_of].
    rewrite bool_decide_eq_false_2 by (apply Hfresh; left). f_equal.
    apply IH; [exact Hnd | |].
    + intros n Hn H. apply elem_of_cons in H as [->|H]; [contradiction|].
      apply (Hfresh n); [right; exact Hn | exact H].
    + intros n Hn. destruct (Hmore n Hn) as [H|H].
      * apply elem_of_cons in H as [->|H]; [right; left | left; exact H].
      * right. right. exact H.
Qed.

Lemma keys_elem {A} (cs : gmap string A) (n : string) :
  n ∈ map fst (map_to_list cs) <-> is_Some (cs !! n).
Proof.
  split.
  - intros H. apply list_elem_of_fmap in H as ([k a] & Heq & H). cbn in Heq. subst k.
    apply elem_of_map_to_list in H. rewrite H. eexists. reflexivity.
  - intros [a H]. apply list_elem_of_fmap. exists (n, a).
    split; [reflexivity | apply elem_of_map_to_list, H].
Qed.

Lemma status_names (names : list string) (m : Manager) :
  map ss_name (map (fun serverName => getServerStatus serverName m) names) = names.
Proof.
  induction names as [|n names IH]; [reflexivity|]. cbn [map]. rewrite IH. reflexivity.
Qed.

(** X23.  [getAllServerStatus()] reports every server that is registered
    or connected, each of them once, and no other name; when every connected
    server is registered, it reports the registered servers in the order of
    [getRegisteredServers()], all of them marked as registered. *)
Theorem getAllServerStatus_names (m : Manager) :
  let names := map ss_name (getAllServerStatus m) in
  NoDup names
  /\ (forall n, n ∈ names <-> is_Some (configs m !! n) \/ is_Some (clients m !! n))
  /\ (clients_registered m ->
      names = getRegisteredServers m
      /\ forall status, status ∈ getAllServerStatus m -> ss_registered status = true).
Proof.
  intros names. subst names. unfold getAllServerStatus. rewrite status_names.
  split; [apply set_of_NoDup|]. split.
  - intros n. rewrite set_of_elem, elem_of_app.
    unfold getRegisteredServers, getConnectedServers. rewrite !keys_elem.
    split; [intros [H _]; exact H | intros H; split; [exact H | intros H'; inversion H']].
  - intros R.
    assert (Hnames : set_of [] (getRegisteredServers m ++ getConnectedServers m)
                     = getRegisteredServers m).
    { apply set_of_fresh.
      - apply NoDup_fst_map_to_list.
      - intros n _ H. inversion H.
      - intros n Hn. left. unfold getRegisteredServers, getConnectedServers in *.
        apply keys_elem, R, keys_elem, Hn. }
    split; [exact Hnames|].
    intros status H. rewrite Hnames in H.
    apply list_elem_of_fmap in H as (n & -> & Hn).
    unfold getRegisteredServers in Hn. apply keys_elem in Hn as [config Hn].
    unfold getServerStatus. cbn. rewrite Hn. reflexivity.
Qed.

(** X24.  A new manager has the sixteen default servers registered and none
    connected, and none of them is marked [autoStart]:
    [initializeDefaultServers()] on it connects nothing. *)
Theorem new_manager_starts_nothing (nodit_api_key : option string)
  (connect : MCPClient.Client -> MCPClient.Client + MCPClient.Error) :
  clients (constructor nodit_api_key) = ∅
  /\ length (getRegisteredServers (constructor nodit_api_key)) = 16%nat
  /\ serversToStart (constructor nodit_api_key) = []
  /\ initializeDefaultServers connect (constructor nodit_api_key)
     = constructor nodit_api_key.
Proof.
  assert (H : serversToStart (constructor nodit_api_key) = [])
    by (destruct nodit_api_key; vm_compute; reflexivity).
  split; [reflexivity|]. split; [destruct nodit_api_key; vm_compute; reflexivity|].
  split; [exact H|].
  unfold initializeDefaultServers. rewrite H. reflexivity.
Qed.

Lemma summary_own (f : MCPClient.Client -> Health)
  (visited : list (string * MCPClient.Client)) (n : string) :
  n <> "__proto__" ->
  own (fold_left (fun summary entry => set_property (fst entry) (f (snd entry)) summary)
         visited empty_object) !! n
  = f <$> last_visit visited n.
Proof.
  intros Hn. induction visited as [|entry visited IH] using rev_ind.
  - unfold last_visit. cbn. rewrite !lookup_empty. reflexivity.
  - rewrite fold_left_app. cbn [fold_left].
    rewrite own_set_property by exact Hn. rewrite last_visit_snoc.
    destruct (decide (n = fst entry)); [reflexivity | exact IH].
Qed.

Lemma summary_no_proto (f : MCPClient.Client -> Health)
  (visited : list (string * MCPClient.Client)) :
  own (fold_left (fun summary entry => set_property (fst entry) (f (snd entry)) summary)
         visited empty_object) !! "__proto__" = None.
Proof.
  induction visited as [|entry visited IH] using rev_ind; [apply lookup_empty|].
  rewrite fold_left_app. cbn [fold_left].
  set (summary := fold_left _ visited empty_object) in *.
  destruct (decide (fst entry = "__proto__")) as [-> | Hne].
  - rewrite set_proto_setter; [|exact IH | destruct (proto summary); reflexivity].
    destruct (as_prototype _); exact IH.
  - rewrite (proj1 (proto_set_property (fst entry) (f (snd entry)) summary Hne)).
    exact IH.
Qed.


End Status.

(* ===================================================================== *)
(** * Late answers *)
(* ===================================================================== *)

Section LateAnswers.
Import JS MCPClient Props.

Variable parse : text -> option JSValue.


End LateAnswers.


(* ===================================================================== *)
(** * Calls of connectServer that overlap *)
(* ===================================================================== *)

Section Overlap.
Import JS MCPManager Props.

(** X27.  The already-connected check of [connectServer] looks at the
    clients that are connected, not at the ones being connected: a second
    call for a registered server made while the first is awaiting
    [client.connect()] makes a client of its own, and when both have
    completed the manager holds the client of the call that completed last,
    the other one having been replaced without being disconnected. *)
Theorem overlapping_connects (s : Session) (serverName : string)
  (customConfig customConfig' : CustomConfig) (first second : MCPClient.Client) :
  clients (manager s) !! serverName = None ->
  is_Some (configs (manager s) !! serverName) ->
  let s2 := run s [ConnectServer serverName customConfig;
                   ConnectServer serverName customConfig'] in
  let s3 := step s2 (ConnectDone serverName (inl first)) in
  let s4 := step s3 (ConnectDone serverName (inl second)) in
  connecting s2 = serverName :: serverName :: connecting s
  /\ clients (manager s3) !! serverName = Some first
  /\ clients (manager s4) !! serverName = Some second
  /\ connecting s4 = connecting s.
Proof.
  intros Hc [config Hg] s2 s3 s4.
  assert (H2 : s2 = {| manager := manager s;
                       connecting := serverName :: serverName :: connecting s |}).
  { subst s2. cbn [run fold_left step]. unfold connectServer.
    rewrite Hc, Hg. cbn [manager connecting]. rewrite Hc, Hg. reflexivity. }
  assert (H3 : s3 = {| manager := set_clients (<[serverName := first]> (clients (manager s)))
                                    (manager s);
                       connecting := serverName :: connecting s |}).
  { subst s3. rewrite H2. cbn [step connecting manager].
    rewrite bool_decide_eq_true_2 by left.
    cbn [completed connectServer_resume fst]. rewrite String.eqb_refl. reflexivity. }
  assert (H4 : s4 = {| manager := set_clients
                                    (<[serverName := second]>
                                       (<[serverName := first]> (clients (manager s))))
                                    (manager s);
                       connecting := connecting s |}).
  { subst s4. rewrite H3. cbn [step connecting manager].
    rewrite bool_decide_eq_true_2 by left.
    cbn [completed connectServer_resume fst]. rewrite String.eqb_refl. reflexivity. }
  rewrite H2, H3, H4. cbn [manager connecting set_clients clients].
  rewrite !lookup_insert_eq. auto.
Qed.

End Overlap.

(** The filesystem server on a new manager. *)
Lemma overlapping_connects_witness :
  MCPManager.clients (MCPManager.manager (MCPManager.start None)) !! "filesystem" = None
  /\ MCPManager.clients
       (MCPManager.manager
          (MCPManager.step
             (MCPManager.step
                (MCPManager.run (MCPManager.start None)
                   [MCPManager.ConnectServer "filesystem" MCPManager.noCustomConfig;
                    MCPManager.ConnectServer "filesystem" MCPManager.noCustomConfig])
                (MCPManager.ConnectDone "filesystem" (inl Samples.ready)))
             (MCPManager.ConnectDone "filesystem" (inl Samples.calling))))
     !! "filesystem" = Some Samples.calling.
Proof.
  assert (Hc : MCPManager.clients (MCPManager.manager (MCPManager.start None))
               !! "filesystem" = None) by reflexivity.
  assert (Hg : is_Some (MCPManager.configs (MCPManager.manager (MCPManager.start None))
                        !! "filesystem"))
    by (eexists; vm_compute; reflexivity).
  split; [exact Hc|].
  exact (proj1 (proj2 (proj2 (overlapping_connects (MCPManager.start None) "filesystem"
                                MCPManager.noCustomConfig MCPManager.noCustomConfig
                                Samples.ready Samples.calling Hc Hg)))).
Defined.

(* ===================================================================== *)
(** * The end of the handshake *)
(* ===================================================================== *)

Section HandshakeEnd.
Import JS MCPClient Props.

(** X29.  When [initialize()] goes on after the initialized notification
    was written, the connection becomes initialized and [connect()] resolves
    without a look at the process: if the child has exited meanwhile and
    [cleanup] has run, the connection is initialized with no process and no
    stdin. *)
Theorem handshake_completes_without_process (st : Client) (q connecting : Promise)
  (v : JSValue) :
  awaiting st !! q = Some (KInitialized connecting) ->
  outcome q st = Some (Resolved v) ->
  let st' := resume q st in
  initialized st' = true
  /\ process st' = process st
  /\ has_stdin st' = has_stdin st
  /\ calls_on connecting (effects st')
     = calls_on connecting (effects st) ++ [Resolved JUndefined].
Proof.
  intros Ha Ho st'. subst st'. unfold resume. rewrite Ha, Ho.
  cbn [resume_with]. repeat split.
  cbn [settle log emit set_effects set_initialized set_awaiting effects].
  rewrite !calls_on_app. cbn [calls_on]. rewrite Nat.eqb_refl, !app_nil_r.
  reflexivity.
Qed.

End HandshakeEnd.

(** The child exits while the notification is being written. *)
Lemma handshake_completes_without_process_witness :
  MCPClient.awaiting Samples.gone_during_handshake !! 2%nat
  = Some (MCPClient.KInitialized 0)
  /\ MCPClient.process Samples.gone_during_handshake = false
  /\ MCPClient.initialized (MCPClient.resume 2 Samples.gone_during_handshake) = true
  /\ MCPClient.process (MCPClient.resume 2 Samples.gone_during_handshake) = false.
Proof.
  assert (Ha : MCPClient.awaiting Samples.gone_during_handshake !! 2%nat
               = Some (MCPClient.KInitialized 0)) by (vm_compute; reflexivity).
  assert (Ho : MCPClient.outcome 2 Samples.gone_during_handshake
               = Some (MCPClient.Resolved JS.JUndefined)) by (vm_compute; reflexivity).
  assert (Hp : MCPClient.process Samples.gone_during_handshake = false)
    by (vm_compute; reflexivity).
  split; [exact Ha|]. split; [exact Hp|].
  destruct (handshake_completes_without_process Samples.gone_during_handshake
              2%nat 0%nat JS.JUndefined Ha Ho) as (Hi & Hq & _).
  split; [exact Hi|]. rewrite Hq. exact Hp.
Defined.
